(** * Biostar: Bayesian bioburden simulation and hierarchical rollup

    A shallow embedding of the simulation engine of the repository
    ([biostar/modules/update.py], [biostar/modules/parsing.py],
    [biostar/callbacks/results.py], [biostar/callbacks/delete.py]) and the
    properties its specification states about it.

    Conventions of the embedding.
    - A Python [float] is a real number; the IEEE values that the code can
      create out of finite inputs (the logarithm of zero, a division by
      zero) are kept as the special values of [npfloat].  Rounding error,
      overflow, underflow and signed zeros are not modelled.
    - A Python [dict] is an association list in insertion order.
    - Every [np.random.default_rng()] reads fresh operating-system entropy;
      the entropy is an explicit state threaded through the samplers, which
      are parameters of the development.
    - A raised exception is a value of [exn]. *)

From Stdlib Require Import Reals Lra Lia ZArith Bool Ascii String List Permutation.
From Stdlib Require Import Zfloor.
Import ListNotations.
Open Scope R_scope.

(* ------------------------------------------------------------------ *)
(** * Floating-point values of numpy *)

Inductive npfloat : Type :=
| Fin (r : R)
| PInf
| NInf
| NaN.

Definition signed_inf (positive : bool) : npfloat :=
  if positive then PInf else NInf.

(** [r * inf] and [r * -inf] for a finite [r]. *)
Definition inf_times (r : R) (positive : bool) : npfloat :=
  if Req_dec_T r 0 then NaN
  else if Rlt_dec 0 r then signed_inf positive
  else signed_inf (negb positive).

Definition fneg (x : npfloat) : npfloat :=
  match x with
  | Fin r => Fin (- r)
  | PInf => NInf
  | NInf => PInf
  | NaN => NaN
  end.

Definition fadd (x y : npfloat) : npfloat :=
  match x, y with
  | NaN, _ | _, NaN => NaN
  | Fin a, Fin b => Fin (a + b)
  | PInf, NInf | NInf, PInf => NaN
  | PInf, _ | _, PInf => PInf
  | NInf, _ | _, NInf => NInf
  end.

Definition fsub (x y : npfloat) : npfloat := fadd x (fneg y).

Definition fmul (x y : npfloat) : npfloat :=
  match x, y with
  | NaN, _ | _, NaN => NaN
  | Fin a, Fin b => Fin (a * b)
  | Fin a, PInf | PInf, Fin a => inf_times a true
  | Fin a, NInf | NInf, Fin a => inf_times a false
  | PInf, PInf | NInf, NInf => PInf
  | PInf, NInf | NInf, PInf => NInf
  end.

Definition fdiv (x y : npfloat) : npfloat :=
  match x, y with
  | NaN, _ | _, NaN => NaN
  | Fin a, Fin b =>
      if Req_dec_T b 0 then
        if Req_dec_T a 0 then NaN
        else if Rlt_dec 0 a then PInf else NInf
      else Fin (a / b)
  | Fin _, PInf | Fin _, NInf => Fin 0
  | PInf, Fin b => if Rlt_dec b 0 then NInf else PInf
  | NInf, Fin b => if Rlt_dec b 0 then PInf else NInf
  | _, _ => NaN
  end.

(** [np.log]: minus infinity at zero, nan on a negative number. *)
Definition flog (x : npfloat) : npfloat :=
  match x with
  | Fin r =>
      if Rlt_dec 0 r then Fin (ln r)
      else if Req_dec_T r 0 then NInf else NaN
  | PInf => PInf
  | NInf | NaN => NaN
  end.

Definition fexp (x : npfloat) : npfloat :=
  match x with
  | Fin r => Fin (exp r)
  | PInf => PInf
  | NInf => Fin 0
  | NaN => NaN
  end.

(** [np.sum] of a one-dimensional array. *)
Definition fsum (v : list npfloat) : npfloat := fold_left fadd v (Fin 0).

(** [sum] of finite numbers. *)
Definition Rsum (v : list R) : R := fold_left Rplus v 0.

(** A numpy array of one or two dimensions. *)
Inductive ndarray : Type :=
| Arr1 (v : list npfloat)
| Arr2 (rows : list (list npfloat)).

Definition transpose (rows : list (list npfloat)) : list (list npfloat) :=
  map (fun i => map (fun row => nth i row NaN) rows)
      (seq 0 (length (hd [] rows))).

Definition nd_exp (a : ndarray) : ndarray :=
  match a with
  | Arr1 v => Arr1 (map fexp v)
  | Arr2 rows => Arr2 (map (map fexp) rows)
  end.

(* ------------------------------------------------------------------ *)
(** * Exceptions *)

Inductive exn : Type :=
| KeyError
| IndexError
| ValueError
| TypeError
| PreventUpdate
| Exception (message : string).

Definition result (A : Type) : Type := (exn + A)%type.

Definition ok {A} (a : A) : result A := inr a.
Definition throw {A} (e : exn) : result A := inl e.

Definition rbind {A B} (c : result A) (k : A -> result B) : result B :=
  match c with
  | inl e => inl e
  | inr a => k a
  end.

Declare Scope result_scope.
Delimit Scope result_scope with res.
Notation "x <- c ;; k" := (rbind c (fun x => k))
  (at level 61, c at next level, right associativity) : result_scope.

Fixpoint rmap {A B} (f : A -> result B) (l : list A) : result (list B) :=
  match l with
  | [] => ok []
  | a :: l' =>
      (b <- f a ;; bs <- rmap f l' ;; ok (b :: bs))%res
  end.

(* ------------------------------------------------------------------ *)
(** * Python values, strings and dictionaries *)

(** A Python number: an [int] or a [float]. *)
Inductive number : Type :=
| Int (z : Z)
| Float (r : R).

Definition to_R (n : number) : R :=
  match n with
  | Int z => IZR z
  | Float r => r
  end.

Definition is_int (n : number) : bool :=
  match n with
  | Int _ => true
  | Float _ => false
  end.

(** A JSON value of a table cell: [None], a string or a number. *)
Inductive pyval : Type :=
| PyNone
| PyStr (s : string)
| PyInt (z : Z)
| PyFloat (r : R).

(** Use of a cell in arithmetic. *)
Definition as_number (v : pyval) : result number :=
  match v with
  | PyInt z => ok (Int z)
  | PyFloat r => ok (Float r)
  | PyNone | PyStr _ => throw TypeError
  end.

Definition of_number (n : number) : pyval :=
  match n with
  | Int z => PyInt z
  | Float r => PyFloat r
  end.

(** [isinstance(v, (float, int)) and v > 0]. *)
Definition is_positive_number (v : pyval) : bool :=
  match v with
  | PyInt z => (0 <? z)%Z
  | PyFloat r => if Rlt_dec 0 r then true else false
  | PyNone | PyStr _ => false
  end.

(** [isinstance(v, (float, int)) and 0 < v <= 1]. *)
Definition is_fraction (v : pyval) : bool :=
  match v with
  | PyInt z => (0 <? z)%Z && (z <=? 1)%Z
  | PyFloat r =>
      if Rlt_dec 0 r then (if Rle_dec r 1 then true else false) else false
  | PyNone | PyStr _ => false
  end.

(** [isinstance(v, int) and v >= 0]. *)
Definition is_count (v : pyval) : bool :=
  match v with
  | PyInt z => (0 <=? z)%Z
  | PyNone | PyStr _ | PyFloat _ => false
  end.

Definition lower_ascii (c : ascii) : ascii :=
  let n := nat_of_ascii c in
  if ((65 <=? n) && (n <=? 90))%nat then ascii_of_nat (n + 32) else c.

(** [str.lower] on ASCII text. *)
Fixpoint lower (s : string) : string :=
  match s with
  | EmptyString => EmptyString
  | String c s' => String (lower_ascii c) (lower s')
  end.

Definition is_space (c : ascii) : bool :=
  let n := nat_of_ascii c in
  (((9 <=? n) && (n <=? 13)) || ((28 <=? n) && (n <=? 32)))%nat.

Fixpoint lstrip (s : string) : string :=
  match s with
  | EmptyString => EmptyString
  | String c s' => if is_space c then lstrip s' else s
  end.

Fixpoint string_rev (s : string) : string :=
  match s with
  | EmptyString => EmptyString
  | String c s' => (string_rev s' ++ String c EmptyString)%string
  end.

(** [str.strip]. *)
Definition strip (s : string) : string :=
  string_rev (lstrip (string_rev (lstrip s))).

(** [s.replace("-", " ")]. *)
Fixpoint replace_dash (s : string) : string :=
  match s with
  | EmptyString => EmptyString
  | String c s' =>
      String (if Ascii.eqb c "-"%char then " "%char else c) (replace_dash s')
  end.

(** [s.startswith("2")]. *)
Definition startswith_2 (s : string) : bool :=
  match s with
  | String c _ => Ascii.eqb c "2"%char
  | EmptyString => false
  end.

(** Python truthiness of an optional string: [None] and [""] are false. *)
Definition truthy (o : option string) : bool :=
  match o with
  | Some s => negb (String.eqb s "")
  | None => false
  end.

Definition opt_eqb (o : option string) (s : string) : bool :=
  match o with
  | Some t => String.eqb t s
  | None => false
  end.

Definition dict (V : Type) : Type := list (string * V).

Fixpoint dict_get {V} (d : dict V) (k : string) : option V :=
  match d with
  | [] => None
  | (k', v) :: d' => if String.eqb k' k then Some v else dict_get d' k
  end.

Definition dict_in {V} (d : dict V) (k : string) : bool :=
  match dict_get d k with Some _ => true | None => false end.

(** [d[k]]. *)
Definition getitem {V} (d : dict V) (k : string) : result V :=
  match dict_get d k with
  | Some v => ok v
  | None => throw KeyError
  end.

(** [d[k] = v]: a present key keeps its place, a new key goes last. *)
Fixpoint dict_set {V} (d : dict V) (k : string) (v : V) : dict V :=
  match d with
  | [] => [(k, v)]
  | (k', v') :: d' =>
      if String.eqb k' k then (k, v) :: d' else (k', v') :: dict_set d' k v
  end.

Fixpoint dict_remove {V} (d : dict V) (k : string) : dict V :=
  match d with
  | [] => []
  | (k', v') :: d' =>
      if String.eqb k' k then d' else (k', v') :: dict_remove d' k
  end.

(** [del d[k]]. *)
Definition delitem {V} (d : dict V) (k : string) : result (dict V) :=
  if dict_in d k then ok (dict_remove d k) else throw KeyError.

Definition values {V} (d : dict V) : list V := map snd d.
Definition keys {V} (d : dict V) : list string := map fst d.

Definition str_in (s : string) (l : list string) : bool :=
  existsb (String.eqb s) l.

(* ------------------------------------------------------------------ *)
(** * Data model *)

(** An entry of [hardware-json]. *)
Record hardware : Type := {
  hw_id : string;
  hw_parent_id : option string;
  hw_level : nat;
  hw_group : option string;
  hw_is_component : bool;
  hw_valid : bool;
  hw_dim : string;
  hw_area : pyval;
  hw_volume : pyval;
  hw_type : option string;
  hw_analogy : option string;
  hw_implied_id : option string;
  hw_spec : option string;
  hw_metadata : dict pyval
}.

(** A row of [datatable-samples]. *)
Record sample : Type := {
  s_sample_id : string;
  s_hardware_id : string;
  s_pp_accountable : string;
  s_sampled_area : pyval;
  s_sampled_volume : pyval;
  s_sampling_device : option string;
  s_sampling_device_type : option string;
  s_processing_technique : option string;
  s_pour_fraction : pyval;
  s_cfu : pyval;
  s_metadata : dict pyval
}.

(** Draws of a simulation record: a scalar (spec) or a vector. *)
Inductive draws : Type :=
| Scalar (x : R)
| Vector (v : list R).

Inductive sim_mode : Type :=
| mode_spec
| mode_implied
| mode_prior
| mode_posterior.

(** The dictionary returned by [sim_component]. *)
Record sim : Type := {
  sim_mode_of : sim_mode;
  sim_link : option string;
  sim_lambda : draws;
  sim_cfu_of : draws
}.

(** [sims-components-json]. *)
Record sims_store : Type := {
  noop : bool;
  sims : dict sim
}.

Definition set_noop (b : bool) (s : sims_store) : sims_store :=
  {| noop := b; sims := sims s |}.

Definition set_sim (k : string) (v : sim) (s : sims_store) : sims_store :=
  {| noop := noop s; sims := dict_set (sims s) k v |}.

Definition del_sim (k : string) (s : sims_store) : result sims_store :=
  (d <- delitem (sims s) k ;; ok {| noop := noop s; sims := d |})%res.

(* ------------------------------------------------------------------ *)
(** * Catalogs of [biostar/modules/data.py] *)

Definition GENERIC : string := "-- Generic --".
Definition PROJECT : string := "-- Project --".

Definition HARDWARE_METADATA_COLUMNS : list string :=
  [ "handling"; "ventilation"; "composition"; "cleaning_fab"; "cleaning_pre";
    "cleaning_sit"; "reduction_fab"; "reduction_pre"; "reduction_sit";
    "notes" ]%string.

Definition SAMPLE_TABLE_METADATA_COLUMNS : list string :=
  [ "Assay Name"; "Assay Date"; "PP Cert #"; "Control Type";
    "Sampling Notes" ]%string.

Definition SPEC_DENSITY_MAP : dict (dict R) :=
  [ ("2D (Area)",
      [ ("Surface, ISO<=7, Bio Control", 50);
        ("Surface, ISO<=7, Particle Control", 500);
        ("Surface, ISO=8, Bio Control", 1000);
        ("Surface, ISO=8, Particle Control", 10000);
        ("Surface, Uncontrolled", 100000);
        ("Enclosed Surface, Cleanroom, Particle & Bio Control", 5000);
        ("Enclosed Surface, Cleanroom, Only Particle Control", 100000);
        ("Enclosed Surface, Uncontrolled Manufacturing", 1000000) ]);
    ("3D (Volume)",
      [ ("Encapsulated, Electronics Piece Parts", 150);
        ("Encapsulated, Non-metal Avg", 130);
        ("Encapsulated, Non-metal Other", 30) ]) ]%string.

(** The ["params"] of an efficiency entry: Beta parameters, or the tag
    of the entry whose parameters stand in for a non-validated pairing. *)
Inductive eff_params : Type :=
| Beta_params (alpha beta : R)
| Alias_of (tag : string).

Record eff_entry : Type := {
  params : eff_params;
  default_fraction : R
}.

Definition eff (p : eff_params) (f : R) : eff_entry :=
  {| params := p; default_fraction := f |}.

Definition EFFICIENCY_CONFIG : dict eff_entry :=
  [ ("Swab;Puritan Cotton;NASA Standard",
      eff (Beta_params 45.56431672969219 100.24149680532281) 0.8);
    ("Swab;Puritan Cotton;NASA Standard (w/ Membrane Filtration)",
      eff (Beta_params 97.55218540553831 191.9575261205754) 0.92);
    ("Swab;Puritan Cotton;ESA Standard",
      eff (Alias_of "Swab;Puritan Cotton;NASA Standard") 0.8);
    ("Swab;Puritan Cotton;ESA Standard (w/ Membrane Filtration)",
      eff (Alias_of
             "Swab;Puritan Cotton;NASA Standard (w/ Membrane Filtration)")
          0.92);
    ("Swab;Nylon-flocked;NASA Standard",
      eff (Beta_params 9.579630660559655 23.74082381095219) 0.8);
    ("Swab;Nylon-flocked;NASA Standard (w/ Membrane Filtration)",
      eff (Alias_of "Swab;Nylon-flocked;NASA Standard") 0.92);
    ("Swab;Nylon-flocked;ESA Standard",
      eff (Beta_params 68.16498856079723 75.34025051456537) 0.8);
    ("Swab;Nylon-flocked;ESA Standard (w/ Membrane Filtration)",
      eff (Alias_of "Swab;Nylon-flocked;ESA Standard") 0.92);
    ("Swab;Copan Polyester;NASA Standard",
      eff (Alias_of "Swab;Copan Polyester;ESA Standard") 0.8);
    ("Swab;Copan Polyester;NASA Standard (w/ Membrane Filtration)",
      eff (Alias_of "Swab;Copan Polyester;ESA Standard") 0.92);
    ("Swab;Copan Polyester;ESA Standard",
      eff (Beta_params 6.052080310455172 42.3645621731862) 0.8);
    ("Swab;Copan Polyester;ESA Standard (w/ Membrane Filtration)",
      eff (Alias_of "Swab;Copan Polyester;ESA Standard") 0.92);
    ("Swab;Copan Cotton;NASA Standard",
      eff (Beta_params 51.836071542660086 362.8525007986206) 0.8);
    ("Swab;Copan Cotton;NASA Standard (w/ Membrane Filtration)",
      eff (Alias_of "Swab;Copan Cotton;NASA Standard") 0.92);
    ("Swab;Copan Cotton;ESA Standard",
      eff (Alias_of "Swab;Copan Cotton;NASA Standard") 0.8);
    ("Swab;Copan Cotton;ESA Standard (w/ Membrane Filtration)",
      eff (Alias_of "Swab;Copan Cotton;NASA Standard") 0.92);
    ("Wipe;TX3211;NASA Standard",
      eff (Alias_of "Wipe;TX3211;NASA Standard (w/ Membrane Filtration)")
          0.25);
    ("Wipe;TX3211;NASA Standard (w/ Membrane Filtration)",
      eff (Beta_params 2.755428498737132 7.13349822450835) 0.92);
    ("Wipe;TX3211;ESA Standard",
      eff (Alias_of "Wipe;TX3211;NASA Standard (w/ Membrane Filtration)")
          0.25);
    ("Wipe;TX3211;ESA Standard (w/ Membrane Filtration)",
      eff (Alias_of "Wipe;TX3211;NASA Standard (w/ Membrane Filtration)")
          0.92);
    ("Wipe;TX3224;NASA Standard",
      eff (Alias_of "Wipe;TX3224;NASA Standard (w/ Membrane Filtration)")
          0.25);
    ("Wipe;TX3224;NASA Standard (w/ Membrane Filtration)",
      eff (Beta_params 38.27721767664384 259.32814975926203) 0.92);
    ("Wipe;TX3224;ESA Standard",
      eff (Alias_of "Wipe;TX3224;NASA Standard (w/ Membrane Filtration)")
          0.25);
    ("Wipe;TX3224;ESA Standard (w/ Membrane Filtration)",
      eff (Alias_of "Wipe;TX3224;NASA Standard (w/ Membrane Filtration)")
          0.92) ]%string.

(** [get_efficiency_params]: the Beta parameters of a tag, through one
    alias at most. *)
Definition get_efficiency_params (tag : string) : result (R * R) :=
  (e <- getitem EFFICIENCY_CONFIG tag ;;
   match params e with
   | Beta_params a b => ok (a, b)
   | Alias_of tag' =>
       e' <- getitem EFFICIENCY_CONFIG tag' ;;
       match params e' with
       | Beta_params a b => ok (a, b)
       | Alias_of _ => throw TypeError
       end
   end)%res.

Definition categorical_map : dict string :=
  [ ("swab", "Swab");
    ("wipe", "Wipe");
    ("puritan cotton", "Puritan Cotton");
    ("nylon flocked", "Nylon-flocked");
    ("copan cotton", "Copan Cotton");
    ("copan polyester", "Copan Polyester");
    ("tx3211", "TX3211");
    ("tx3224", "TX3224");
    ("nasa standard (w/ membrane filtration)",
     "NASA Standard (w/ Membrane Filtration)");
    ("nasa standard", "NASA Standard");
    ("esa standard (w/ membrane filtration)",
     "ESA Standard (w/ Membrane Filtration)");
    ("esa standard", "ESA Standard") ]%string.

Definition resolve_sample_categorical (val : option string) : string :=
  let val := match val with Some s => s | None => ""%string end in
  let val_std := strip (lower (replace_dash val)) in
  match dict_get categorical_map val_std with
  | Some v => v
  | None => ""%string
  end.

(* ------------------------------------------------------------------ *)
(** * Eligibility and validity rules ([biostar/modules/parsing.py]) *)

Definition sample_eff_tag (s : sample) : string :=
  (resolve_sample_categorical (s_sampling_device s) ++ ";"
   ++ resolve_sample_categorical (s_sampling_device_type s) ++ ";"
   ++ resolve_sample_categorical (s_processing_technique s))%string.

(** [detect_sample_alerts].  The check of the keys of the row is the type
    [sample] itself. *)
Definition detect_sample_alerts (s : sample) (hardware_dict : dict hardware)
  : result string :=
  (hw <- getitem hardware_dict (s_hardware_id s) ;;
   let dim := hw_dim hw in
   let area_vol :=
     if startswith_2 dim then s_sampled_area s else s_sampled_volume s in
   if negb (is_positive_number area_vol) then ok "area_vol"%string
   else
     let eff_tag := sample_eff_tag s in
     match dict_get EFFICIENCY_CONFIG eff_tag with
     | None => ok "categorical"%string
     | Some entry =>
         match params entry with
         | Alias_of _ => ok "efficiency"%string
         | Beta_params _ _ =>
             if negb (is_fraction (s_pour_fraction s)) then ok "fraction"%string
             else if negb (is_count (s_cfu s)) then ok "cfu"%string
             else ok ""%string
         end
     end)%res.

Definition allowed_errors : list string := [ ""; "efficiency" ]%string.

Fixpoint identify_valid_samples (samples_list : list sample)
    (hardware_dict : dict hardware) : result (list string) :=
  match samples_list with
  | [] => ok []
  | s :: rest =>
      (alert <- detect_sample_alerts s hardware_dict ;;
       ids <- identify_valid_samples rest hardware_dict ;;
       ok (if str_in alert allowed_errors then s_sample_id s :: ids else ids))%res
  end.

(** [hw["area"] if hw["dim"].startswith("2") else hw["volume"]], and the
    column of the samples that goes with it. *)
Definition exposure_of (hw : hardware) : pyval :=
  if startswith_2 (hw_dim hw) then hw_area hw else hw_volume hw.

Definition area_vol_attr_of (hw : hardware) : sample -> pyval :=
  if startswith_2 (hw_dim hw) then s_sampled_area else s_sampled_volume.

(** [row["PP Accountable"].lower() == "yes"]. *)
Definition accountable (s : sample) : bool :=
  String.eqb (lower (s_pp_accountable s)) "yes".

Definition find_implied_hardware (hw_tgt : hardware)
    (hardware_dict : dict hardware) : list hardware :=
  if negb (hw_valid hw_tgt) || negb (opt_eqb (hw_type hw_tgt) "Sampled")
  then []
  else
    filter (fun hw =>
              hw_valid hw
              && opt_eqb (hw_type hw) "Unsampled - Implied"
              && opt_eqb (hw_implied_id hw) (hw_id hw_tgt))
           (values hardware_dict).

(** The usable accountable samples of a component, as [store_sims_rollups]
    and [find_eligible_hardware_ids] select them. *)
Definition accountable_valid_samples (hw : hardware)
    (samples_list : list sample) (samples_valid : list string) : list sample :=
  filter (fun s =>
            String.eqb (s_hardware_id s) (hw_id hw)
            && accountable s
            && str_in (s_sample_id s) samples_valid)
         samples_list.

(** The test of [handle_child] and of [find_eligible_hardware_ids]:
    an invalid element, or a generic-prior one with no usable accountable
    sample. *)
Definition ineligible (hw : hardware) (samples_list : list sample)
    (samples_valid : list string) : bool :=
  negb (hw_valid hw)
  || (opt_eqb (hw_analogy hw) GENERIC
      && match accountable_valid_samples hw samples_list samples_valid with
         | [] => true
         | _ :: _ => false
         end).

(* ------------------------------------------------------------------ *)
(** * Rollup aggregation ([store_sims_rollups]) *)

(** Half-even rounding to an integer, and Python's [round(x, 6)]. *)
Definition round_half_even (x : R) : Z :=
  let f := Zfloor x in
  let d := x - IZR f in
  if Rlt_dec d (1 / 2) then f
  else if Rlt_dec (1 / 2) d then (f + 1)%Z
  else if Z.even f then f else (f + 1)%Z.

Definition round6 (x : R) : R :=
  IZR (round_half_even (x * 1000000)) / 1000000.

Definition py_round6 (n : number) : number :=
  match n with
  | Int z => Int z
  | Float r => Float (round6 r)
  end.

Definition num_add (a b : number) : number :=
  match a, b with
  | Int x, Int y => Int (x + y)
  | _, _ => Float (to_R a + to_R b)
  end.

Definition num_mul (a b : number) : number :=
  match a, b with
  | Int x, Int y => Int (x * y)
  | _, _ => Float (to_R a * to_R b)
  end.

(** [acc += v] on a Python number. *)
Definition py_iadd (acc : number) (v : pyval) : result number :=
  (n <- as_number v ;; ok (num_add acc n))%res.

(** Python's [sum] of a list of cells. *)
Definition py_sum (l : list pyval) : result number :=
  fold_left (fun acc v => (a <- acc ;; py_iadd a v)%res) l (ok (Int 0)).

(** A number read back from the browser's JSON is an [int] when its
    value is integral. *)
Definition int_valued (x : R) : bool :=
  if Req_dec_T x (IZR (Zfloor x)) then true else false.

Definition json_number (x : R) : number :=
  if int_valued x then Int (Zfloor x) else Float x.

(** A value of the aggregation: a Python number, or a numpy array with
    its dtype ([int64] or [float64]). *)
Inductive num : Type :=
| Py (n : number)
| Nd (int64 : bool) (v : list R).

(** [np.array(x) if isinstance(x, list) else x] on a stored value. *)
Definition load_draws (d : draws) : num :=
  match d with
  | Scalar x => Py (json_number x)
  | Vector v =>
      Nd (match v with [] => false | _ :: _ => forallb int_valued v end) v
  end.

(** [t * x] for a Python number [t]. *)
Definition scale (t : number) (x : num) : num :=
  match x with
  | Py n => Py (num_mul t n)
  | Nd i v => Nd (i && is_int t) (map (fun e => to_R t * e) v)
  end.

Fixpoint zip_add (u v : list R) : list R :=
  match u, v with
  | a :: u', b :: v' => (a + b) :: zip_add u' v'
  | _, _ => []
  end.

(** [acc += x].  An array accumulator is updated in place: numpy refuses
    to store a [float64] result in an [int64] array, and broadcasts only
    the operand. *)
Definition iadd (acc x : num) : result num :=
  match acc, x with
  | Py a, Py b => ok (Py (num_add a b))
  | Py a, Nd j v => ok (Nd (j && is_int a) (map (fun e => to_R a + e) v))
  | Nd i u, Py b =>
      if i && negb (is_int b) then throw TypeError
      else ok (Nd i (map (fun e => e + to_R b) u))
  | Nd i u, Nd j v =>
      if i && negb j then throw TypeError
      else if (length u =? length v)%nat then ok (Nd i (zip_add u v))
      else match v with
           | [b] => ok (Nd i (map (fun e => e + b) u))
           | _ => throw ValueError
           end
  end.

(** [acc /= t] for a nonzero Python number [t]. *)
Definition idiv (acc : num) (t : number) : result num :=
  match acc with
  | Py a => ok (Py (Float (to_R a / to_R t)))
  | Nd i u =>
      if i then throw TypeError
      else ok (Nd false (map (fun e => e / to_R t) u))
  end.

(** Truthiness of a Python number. *)
Definition nonzero (n : number) : bool :=
  match n with
  | Int z => negb (z =? 0)%Z
  | Float r => if Req_dec_T r 0 then false else true
  end.

(** One dimension of a child's contribution or of an aggregate. *)
Record rollup_res : Type := {
  r_lambda : num;
  r_cfu : num;
  r_total : pyval;
  r_sampled : pyval
}.

Definition empty_res : rollup_res :=
  {| r_lambda := Py (Int 0); r_cfu := Py (Int 0);
     r_total := PyInt 0; r_sampled := PyInt 0 |}.

(** The accumulators of one dimension in [reduce_child_results]. *)
Record accum : Type := {
  a_total : number;
  a_sampled : number;
  a_lambda : num;
  a_cfu : num
}.

Definition accum0 : accum :=
  {| a_total := Int 0; a_sampled := Int 0;
     a_lambda := Py (Int 0); a_cfu := Py (Int 0) |}.

(** The four updates of one dimension in the loop body. *)
Definition accumulate (acc : accum) (res : rollup_res) : result accum :=
  (total <- py_iadd (a_total acc) (r_total res) ;;
   sampled <- py_iadd (a_sampled acc) (r_sampled res) ;;
   t <- as_number (r_total res) ;;
   lam <- iadd (a_lambda acc) (scale t (r_lambda res)) ;;
   cfu <- iadd (a_cfu acc) (r_cfu res) ;;
   ok {| a_total := total; a_sampled := sampled;
         a_lambda := lam; a_cfu := cfu |})%res.

(** The division by the total, then the rounding of the extents. *)
Definition finish (acc : accum) : result rollup_res :=
  (lam <- (if nonzero (a_total acc) then idiv (a_lambda acc) (a_total acc)
           else ok (a_lambda acc)) ;;
   ok {| r_lambda := lam; r_cfu := a_cfu acc;
         r_total := of_number (py_round6 (a_total acc));
         r_sampled := of_number (py_round6 (a_sampled acc)) |})%res.

Fixpoint reduce_loop (area volume : accum)
    (child_results : list (rollup_res * rollup_res))
  : result (accum * accum) :=
  match child_results with
  | [] => ok (area, volume)
  | res :: rest =>
      (area' <- accumulate area (fst res) ;;
       volume' <- accumulate volume (snd res) ;;
       reduce_loop area' volume' rest)%res
  end.

Definition reduce_child_results
    (child_results : list (rollup_res * rollup_res))
  : result (rollup_res * rollup_res) :=
  (av <- reduce_loop accum0 accum0 child_results ;;
   area <- finish (fst av) ;;
   volume <- finish (snd av) ;;
   ok (area, volume))%res.

Section Rollups.

Variable sims_in : sims_store.
Variable hardware_dict : dict hardware.
Variable samples_list : list sample.
Variable samples_valid : list string.

Definition component_res (hw : hardware) (child_id : string)
    (total : pyval) (extent_of : sample -> pyval) : result rollup_res :=
  (s <- getitem (sims sims_in) child_id ;;
   sampled <- py_sum (map extent_of
                (filter (fun s =>
                           String.eqb (s_hardware_id s) (hw_id hw)
                           && str_in (s_sample_id s) samples_valid
                           && accountable s)
                        samples_list)) ;;
   ok {| r_lambda := load_draws (sim_lambda s);
         r_cfu := load_draws (sim_cfu_of s);
         r_total := total;
         r_sampled := of_number sampled |})%res.

Definition handle_child (sims_rollups : dict (rollup_res * rollup_res))
    (child : hardware) : result (rollup_res * rollup_res) :=
  if hw_is_component child then
    (hw <- getitem hardware_dict (hw_id child) ;;
     if ineligible hw samples_list samples_valid then
       ok (empty_res, empty_res)
     else if startswith_2 (hw_dim hw) then
       r <- component_res hw (hw_id child) (hw_area hw) s_sampled_area ;;
       ok (r, empty_res)
     else
       r <- component_res hw (hw_id child) (hw_volume hw) s_sampled_volume ;;
       ok (empty_res, r))%res
  else getitem sims_rollups (hw_id child).

(** The aggregate of the children selected by [is_child]. *)
Definition rollup_of (sims_rollups : dict (rollup_res * rollup_res))
    (is_child : hardware -> bool) : result (rollup_res * rollup_res) :=
  (child_results <- rmap (handle_child sims_rollups)
                      (filter is_child (values hardware_dict)) ;;
   reduce_child_results child_results)%res.

Fixpoint rollup_elems_loop (rollup_elems : list hardware)
    (sims_rollups : dict (rollup_res * rollup_res))
  : result (dict (rollup_res * rollup_res)) :=
  match rollup_elems with
  | [] => ok sims_rollups
  | elem :: rest =>
      (r <- rollup_of sims_rollups
              (fun child => opt_eqb (hw_parent_id child) (hw_id elem)) ;;
       rollup_elems_loop rest (dict_set sims_rollups (hw_id elem) r))%res
  end.

Fixpoint levels_loop (levels : list nat)
    (sims_rollups : dict (rollup_res * rollup_res))
  : result (dict (rollup_res * rollup_res)) :=
  match levels with
  | [] => ok sims_rollups
  | level :: rest =>
      (sims_rollups' <-
         rollup_elems_loop
           (filter (fun elem => (hw_level elem =? level)%nat
                                && negb (hw_is_component elem))
                   (values hardware_dict))
           sims_rollups ;;
       levels_loop rest sims_rollups')%res
  end.

End Rollups.

(** [store_sims_rollups]: levels 5 down to 2, then the project. *)
Definition store_sims_rollups (sims_in : sims_store)
    (hardware_dict : dict hardware) (samples_list : list sample)
  : result (dict (rollup_res * rollup_res)) :=
  (samples_valid <- identify_valid_samples samples_list hardware_dict ;;
   if noop sims_in then throw PreventUpdate
   else
     sims_rollups <-
       levels_loop sims_in hardware_dict samples_list samples_valid
         [5; 4; 3; 2]%nat [] ;;
     project <-
       rollup_of sims_in hardware_dict samples_list samples_valid sims_rollups
         (fun elem => negb (truthy (hw_parent_id elem))) ;;
     ok (dict_set sims_rollups PROJECT project))%res.

(* ------------------------------------------------------------------ *)
(** * Deletion of a hardware element ([hardware_delete_confirm]) *)

Definition with_validity (valid : bool) (implied_id : option string)
    (hw : hardware) : hardware :=
  {| hw_id := hw_id hw; hw_parent_id := hw_parent_id hw;
     hw_level := hw_level hw; hw_group := hw_group hw;
     hw_is_component := hw_is_component hw; hw_valid := valid;
     hw_dim := hw_dim hw; hw_area := hw_area hw; hw_volume := hw_volume hw;
     hw_type := hw_type hw; hw_analogy := hw_analogy hw;
     hw_implied_id := implied_id; hw_spec := hw_spec hw;
     hw_metadata := hw_metadata hw |}.

(** A rollup that lost its last child becomes a blank component. *)
Definition coerce_to_component (hw : hardware) : hardware :=
  {| hw_id := hw_id hw; hw_parent_id := hw_parent_id hw;
     hw_level := hw_level hw; hw_group := None;
     hw_is_component := true; hw_valid := false;
     hw_dim := "2D (Area)"; hw_area := PyStr ""; hw_volume := PyStr "";
     hw_type := None; hw_analogy := None;
     hw_implied_id := None; hw_spec := None;
     hw_metadata := hw_metadata hw |}.

Definition coerced_message (parent_id deleted_id : string) : string :=
  ("[" ++ parent_id
   ++ "] Element coerced from Rollup to Component following removal of '"
   ++ deleted_id ++ "'.")%string.

(** [hardware_dict[k].update({"valid": False, "implied_id": None})] for
    each element of [hw_implied]. *)
Fixpoint invalidate_implied (hw_implied : list hardware)
    (hardware_dict : dict hardware) : result (dict hardware) :=
  match hw_implied with
  | [] => ok hardware_dict
  | hw_imp :: rest =>
      (cur <- getitem hardware_dict (hw_id hw_imp) ;;
       invalidate_implied rest
         (dict_set hardware_dict (hw_id hw_imp)
            (with_validity false None cur)))%res
  end.

Definition hardware_delete_confirm (hw_id_del : string)
    (hardware_dict : dict hardware) (samples_list : list sample)
  : result (dict hardware * list sample * list string) :=
  (hw_del <- getitem hardware_dict hw_id_del ;;
   let hardware_dict := dict_remove hardware_dict hw_id_del in
   let samples_list :=
     filter (fun s => negb (String.eqb (s_hardware_id s) hw_id_del))
            samples_list in
   coerced <-
     match hw_parent_id hw_del with
     | Some parent_id =>
         if negb (String.eqb parent_id "") then
           match filter (fun hw => opt_eqb (hw_parent_id hw) parent_id)
                        (values hardware_dict) with
           | [] =>
               parent <- getitem hardware_dict parent_id ;;
               ok (dict_set hardware_dict parent_id
                     (coerce_to_component parent),
                   [coerced_message parent_id (hw_id hw_del)])
           | _ :: _ => ok (hardware_dict, [])
           end
         else ok (hardware_dict, [])
     | None => ok (hardware_dict, [])
     end ;;
   let hardware_dict := fst coerced in
   let notifications := snd coerced in
   let hw_implied :=
     filter (fun hw => opt_eqb (hw_implied_id hw) hw_id_del)
            (values hardware_dict) in
   hardware_dict <- invalidate_implied hw_implied hardware_dict ;;
   ok (hardware_dict,
       filter (fun s => negb (String.eqb (s_hardware_id s) hw_id_del))
              samples_list,
       notifications))%res.

(* ------------------------------------------------------------------ *)
(** * Randomness: a state monad over the entropy, with exceptions *)

Definition M (S A : Type) : Type := S -> result (A * S).

Definition ret {S A} (a : A) : M S A := fun w => ok (a, w).

Definition raise {S A} (e : exn) : M S A := fun _ => throw e.

Definition bind {S A B} (c : M S A) (k : A -> M S B) : M S B :=
  fun w =>
    match c w with
    | inl e => inl e
    | inr (a, w') => k a w'
    end.

Definition lift {S A} (r : result A) : M S A :=
  fun w =>
    match r with
    | inl e => inl e
    | inr a => ok (a, w)
    end.

Declare Scope monad_scope.
Delimit Scope monad_scope with M.
Notation "x <- c ;; k" := (bind c (fun x => k))
  (at level 61, c at next level, right associativity) : monad_scope.

Fixpoint mapM {S A B} (f : A -> M S B) (l : list A) : M S (list B) :=
  match l with
  | [] => ret []
  | a :: l' => (b <- f a ;; bs <- mapM f l' ;; ret (b :: bs))%M
  end.

(** A loop that threads a value through the elements of a list. *)
Fixpoint foldM {S A B} (f : B -> A -> M S B) (l : list A) (b : B) : M S B :=
  match l with
  | [] => ret b
  | a :: l' => (b' <- f b a ;; foldM f l' b')%M
  end.

(** A row of the [samples_data] array of [sim_component]. *)
Record data_row : Type := {
  d_cfu : R;
  d_extent : R;
  d_fraction : R;
  d_alpha : R;
  d_beta : R
}.

(** [arr[idx]] with an array of indices. *)
Definition take (arr : list R) (idx : list nat) : result (list R) :=
  rmap (fun i => match nth_error arr i with
                 | Some x => ok x
                 | None => throw IndexError
                 end) idx.

(** An unpacked deepdiff path: ["root['a'][3]"] is [[KStr "a"; KInt 3]],
    and ["root"] is the empty path. *)
Inductive loc_key : Type :=
| KStr (s : string)
| KInt (n : nat).

Definition loc : Type := list loc_key.

Definition loc_key_eqb (a b : loc_key) : bool :=
  match a, b with
  | KStr s, KStr t => String.eqb s t
  | KInt n, KInt m => Nat.eqb n m
  | _, _ => false
  end.

(** The JSON of a [DeepDiff]: every key may be absent. *)
Record deepdiff : Type := {
  values_changed : option (list loc);
  dictionary_item_added : option (list loc);
  dictionary_item_removed : option (list loc);
  iterable_item_added : option (list sample);
  iterable_item_removed : option (list sample);
  other_changes : bool
}.

(** [not update]: the empty dictionary. *)
Definition diff_is_empty (u : deepdiff) : bool :=
  match values_changed u, dictionary_item_added u, dictionary_item_removed u,
        iterable_item_added u, iterable_item_removed u with
  | None, None, None, None, None => negb (other_changes u)
  | _, _, _, _, _ => false
  end.

(** [reduce_deefdiff_edits]: the attributes edited, grouped by index. *)
Fixpoint edits_add (acc : list (loc_key * list loc_key)) (idx attr : loc_key)
  : list (loc_key * list loc_key) :=
  match acc with
  | [] => [(idx, [attr])]
  | (i, attrs) :: acc' =>
      if loc_key_eqb i idx then (i, attrs ++ [attr]) :: acc'
      else (i, attrs) :: edits_add acc' idx attr
  end.

Definition reduce_deefdiff_edits (acc : list (loc_key * list loc_key))
    (val : loc) : result (list (loc_key * list loc_key)) :=
  match val with
  | idx :: attr :: _ => ok (edits_add acc idx attr)
  | _ => throw IndexError
  end.

Definition unpack_edits (update_locs : list loc)
  : result (list (loc_key * list loc_key)) :=
  fold_left (fun acc val => (a <- acc ;; reduce_deefdiff_edits a val)%res)
            update_locs (ok []).

Definition is_metadata (columns : list string) (x : loc_key) : bool :=
  match x with
  | KStr s => str_in s columns
  | KInt _ => false
  end.

(** [hardware_dict[key]] for a key taken from a path. *)
Definition getitem_key {V} (d : dict V) (key : loc_key) : result V :=
  match key with
  | KStr s => getitem d s
  | KInt _ => throw KeyError
  end.

(** [find_by_key(arr, "Sample ID", value)]. *)
Definition find_by_sample_id (arr : list sample) (value : string)
  : option sample :=
  match filter (fun x => String.eqb (s_sample_id x) value) arr with
  | [] => None
  | x :: _ => Some x
  end.

(** [set(...)] of hardware ids, in order of first occurrence. *)
Fixpoint unique (l : list string) : list string :=
  match l with
  | [] => []
  | x :: l' => x :: filter (fun y => negb (String.eqb y x)) (unique l')
  end.


(** The two stores that an edit event updates: [sims-components-json]
    and [sims-rollups-json]. *)
Record app_state : Type := {
  st_sims : sims_store;
  st_rollups : dict (rollup_res * rollup_res)
}.
(* ------------------------------------------------------------------ *)
(** * Notions of the specification *)

(** The Poisson log-pmf, [count*log(rate) - log(count!) - rate]. *)
Definition poisson_log_pmf (count : nat) (rate : R) : R :=
  INR count * ln rate - ln (INR (fact count)) - rate.

(* ------------------------------------------------------------------ *)
(** * A deterministic generator

    An instance of the samplers, used to run the engine on concrete
    inputs: the entropy is a counter of the draws made so far. *)

Definition const_beta (a b : R) (size : nat) : M nat (list R) :=
  fun w => ok (repeat (1 / 2) size, S w).

Definition const_gamma (shape : R) (scale : list npfloat) : M nat (list R) :=
  fun w => ok (map (fun _ => 1) scale, S w).

(** Index [0] every time with replacement, the first [size] indices
    without; numpy refuses an empty or too small population. *)
Definition first_choice (n size : nat) (replace : bool)
    (p : option (list npfloat)) : M nat (list nat) :=
  fun w =>
    if replace then
      if (n =? 0)%nat then throw ValueError else ok (repeat 0%nat size, S w)
    else if (size <=? n)%nat then ok (seq 0 size, S w)
    else throw ValueError.

Definition const_counts (lam : list R) : list Z := map (fun _ => 0%Z) lam.

Definition const_poisson (lam : list R) : M nat (list Z) :=
  fun w => ok (const_counts lam, S w).

Definition const_special_gamma (x : R) : R := 1.

(* ------------------------------------------------------------------ *)
(** * More notions of the specification *)

(** A usable sample: accountable, with a triple that resolves to a known
    efficiency entry, with extent, fraction and CFU that pass validation,
    and with a hardware id that is a valid Sampled component. *)
Definition usable_spec (s : sample) (hardware_dict : dict hardware) : bool :=
  accountable s
  && dict_in EFFICIENCY_CONFIG (sample_eff_tag s)
  && match dict_get hardware_dict (s_hardware_id s) with
     | Some hw =>
         hw_valid hw && opt_eqb (hw_type hw) "Sampled"
         && is_positive_number (area_vol_attr_of hw s)
     | None => false
     end
  && is_fraction (s_pour_fraction s)
  && is_count (s_cfu s).

(** The value of a cell, of draws at an index. *)
Definition pyval_R (v : pyval) : R :=
  match v with
  | PyInt z => IZR z
  | PyFloat r => r
  | PyNone | PyStr _ => 0
  end.

Definition num_at (x : num) (k : nat) : R :=
  match x with
  | Py n => to_R n
  | Nd _ v => nth k v 0
  end.

(** Draws that are a number or an array of [n] entries. *)
Definition num_shaped (n : nat) (x : num) : Prop :=
  match x with
  | Py _ => True
  | Nd _ v => length v = n
  end.

(** A contribution with draws of [n] entries. *)
Definition shaped (n : nat) (r : rollup_res) : Prop :=
  num_shaped n (r_lambda r) /\ num_shaped n (r_cfu r).

(** A contribution whose extents are numbers. *)
Definition numeric_extents (r : rollup_res) : Prop :=
  (exists t, r_total r = of_number t) /\ (exists s, r_sampled r = of_number s).

(** The dtypes that the simulations of components give: density draws
    that are a number or a [float64] array, CFU draws that are an [int]
    or an [int64] array. *)
Definition component_dtypes (r : rollup_res) : Prop :=
  match r_lambda r with
  | Py _ => True
  | Nd int64 _ => int64 = false
  end
  /\ match r_cfu r with
     | Py c => is_int c = true
     | Nd int64 _ => int64 = true
     end.

(** The aggregate [r] of one dimension of the contributions [children],
    for draws of [n] entries: rounded sums of the extents, the sum of the
    CFU draws, and the sum of the densities weighted by the totals,
    divided by the sum of the totals when that sum is not zero. *)
Definition combined (n : nat) (children : list rollup_res) (r : rollup_res)
  : Prop :=
  let total := Rsum (map (fun c => pyval_R (r_total c)) children) in
  let weighted k :=
    Rsum (map (fun c => pyval_R (r_total c) * num_at (r_lambda c) k)
              children) in
  pyval_R (r_total r) = round6 total
  /\ pyval_R (r_sampled r)
     = round6 (Rsum (map (fun c => pyval_R (r_sampled c)) children))
  /\ forall k, (k < n)%nat ->
       num_at (r_cfu r) k = Rsum (map (fun c => num_at (r_cfu c) k) children)
       /\ (total <> 0 -> num_at (r_lambda r) k = weighted k / total)
       /\ (total = 0 -> num_at (r_lambda r) k = weighted k).

(** The accumulators [acc'] reached from [acc] over the contributions
    [rs] of one dimension. *)
Definition acc_shaped (n : nat) (acc : accum) : Prop :=
  num_shaped n (a_lambda acc) /\ num_shaped n (a_cfu acc).

Definition accumulated (n : nat) (acc : accum) (rs : list rollup_res)
    (acc' : accum) : Prop :=
  acc_shaped n acc'
  /\ to_R (a_total acc')
     = to_R (a_total acc) + Rsum (map (fun c => pyval_R (r_total c)) rs)
  /\ to_R (a_sampled acc')
     = to_R (a_sampled acc) + Rsum (map (fun c => pyval_R (r_sampled c)) rs)
  /\ forall k, (k < n)%nat ->
       num_at (a_cfu acc') k
       = num_at (a_cfu acc) k + Rsum (map (fun c => num_at (r_cfu c) k) rs)
       /\ num_at (a_lambda acc') k
          = num_at (a_lambda acc) k
            + Rsum (map (fun c => pyval_R (r_total c) * num_at (r_lambda c) k)
                        rs).

(** Decisions on real numbers in a goal, settled by linear arithmetic. *)
Ltac R_decide :=
  repeat match goal with
         | |- context [Rlt_dec ?a ?b] => destruct (Rlt_dec a b); try lra
         | |- context [Rle_dec ?a ?b] => destruct (Rle_dec a b); try lra
         | |- context [Req_dec_T ?a ?b] => destruct (Req_dec_T a b); try lra
         end.

(** The children of an element, and the children of the project. *)
Definition children_of (elem : hardware) (child : hardware) : bool :=
  opt_eqb (hw_parent_id child) (hw_id elem).

Definition is_root (elem : hardware) : bool :=
  negb (truthy (hw_parent_id elem)).

(** The hierarchy that the application maintains: unique ids, a rollup
    one level above its rollup children, rollups on levels 2 to 5, and no
    element under the name of the project. *)
Record well_formed_tree (hardware_dict : dict hardware) : Prop := {
  wf_ids : NoDup (map hw_id (values hardware_dict));
  wf_levels :
    forall child elem,
      In child (values hardware_dict) -> In elem (values hardware_dict) ->
      children_of elem child = true -> hw_is_component child = false ->
      hw_level child = S (hw_level elem);
  wf_rollups :
    forall elem,
      In elem (values hardware_dict) -> hw_is_component elem = false ->
      (2 <= hw_level elem <= 5)%nat;
  wf_project :
    forall elem, In elem (values hardware_dict) -> hw_id elem <> PROJECT
}.

(** A rollup of the hierarchy with its children, or the project with the
    roots. *)
Definition node (hardware_dict : dict hardware) (node_id : string)
    (is_child : hardware -> bool) : Prop :=
  (exists e,
      In e (values hardware_dict) /\ hw_is_component e = false
      /\ node_id = hw_id e /\ is_child = children_of e)
  \/ (node_id = PROJECT /\ is_child = is_root).

(** One dimension of a pair of results: area ([true]) or volume. *)
Definition dimension (area : bool) (r : rollup_res * rollup_res) : rollup_res :=
  if area then fst r else snd r.

(** The extent and the sampled extent that a child contributes to a
    dimension of its parent: nothing for an ineligible component or a
    component of the other dimension, its extent and the sampled extents
    of its usable accountable samples for an eligible component, its own
    aggregate for a rollup. *)
Definition contribution_total (hardware_dict : dict hardware)
    (samples_list : list sample) (samples_valid : list string)
    (aggregates : dict (rollup_res * rollup_res)) (area : bool)
    (child : hardware) : R :=
  if hw_is_component child then
    match dict_get hardware_dict (hw_id child) with
    | Some hw =>
        if ineligible hw samples_list samples_valid then 0
        else if Bool.eqb (startswith_2 (hw_dim hw)) area
             then pyval_R (exposure_of hw) else 0
    | None => 0
    end
  else
    match dict_get aggregates (hw_id child) with
    | Some r => pyval_R (r_total (dimension area r))
    | None => 0
    end.

Definition contribution_sampled (hardware_dict : dict hardware)
    (samples_list : list sample) (samples_valid : list string)
    (aggregates : dict (rollup_res * rollup_res)) (area : bool)
    (child : hardware) : R :=
  if hw_is_component child then
    match dict_get hardware_dict (hw_id child) with
    | Some hw =>
        if ineligible hw samples_list samples_valid then 0
        else if Bool.eqb (startswith_2 (hw_dim hw)) area
             then Rsum (map (fun s => pyval_R (area_vol_attr_of hw s))
                            (filter (fun s =>
                                       String.eqb (s_hardware_id s) (hw_id hw)
                                       && str_in (s_sample_id s) samples_valid
                                       && accountable s)
                                    samples_list))
             else 0
    | None => 0
    end
  else
    match dict_get aggregates (hw_id child) with
    | Some r => pyval_R (r_sampled (dimension area r))
    | None => 0
    end.

(** Accumulators with the dtypes of [component_dtypes]. *)
Definition acc_dtypes (acc : accum) : Prop :=
  match a_lambda acc with
  | Py _ => True
  | Nd int64 _ => int64 = false
  end
  /\ match a_cfu acc with
     | Py c => is_int c = true
     | Nd int64 _ => int64 = true
     end.

(* ------------------------------------------------------------------ *)
(** * Concrete hardware, samples and simulation records *)

Open Scope string_scope.
Open Scope list_scope.

(** An element as [hardware_add] creates it. *)
Definition new_hardware (id : string) (parent : option string) (level : nat)
  : hardware :=
  {| hw_id := id; hw_parent_id := parent; hw_level := level;
     hw_group := None; hw_is_component := true; hw_valid := false;
     hw_dim := "2D (Area)"; hw_area := PyStr ""; hw_volume := PyStr "";
     hw_type := None; hw_analogy := None; hw_implied_id := None;
     hw_spec := None; hw_metadata := [] |}.

Definition rollup_hardware (id : string) (parent : option string)
    (level : nat) : hardware :=
  {| hw_id := id; hw_parent_id := parent; hw_level := level;
     hw_group := None; hw_is_component := false; hw_valid := false;
     hw_dim := "2D (Area)"; hw_area := PyStr ""; hw_volume := PyStr "";
     hw_type := None; hw_analogy := None; hw_implied_id := None;
     hw_spec := None; hw_metadata := [] |}.

(** A valid Sampled component of dimension 2 with an analogy. *)
Definition sampled_hardware (id : string) (parent : option string)
    (level : nat) (analogy : string) (area : pyval) : hardware :=
  {| hw_id := id; hw_parent_id := parent; hw_level := level;
     hw_group := None; hw_is_component := true; hw_valid := true;
     hw_dim := "2D (Area)"; hw_area := area; hw_volume := PyStr "";
     hw_type := Some "Sampled"; hw_analogy := Some analogy;
     hw_implied_id := None; hw_spec := None; hw_metadata := [] |}.

(** A valid component of dimension 2 implied from a Sampled one. *)
Definition implied_hardware (id : string) (parent : option string)
    (level : nat) (implied_id : string) (area : pyval) : hardware :=
  {| hw_id := id; hw_parent_id := parent; hw_level := level;
     hw_group := None; hw_is_component := true; hw_valid := true;
     hw_dim := "2D (Area)"; hw_area := area; hw_volume := PyStr "";
     hw_type := Some "Unsampled - Implied"; hw_analogy := None;
     hw_implied_id := Some implied_id; hw_spec := None; hw_metadata := [] |}.

(** A valid Spec component of dimension 3. *)
Definition spec_hardware (id : string) (parent : option string)
    (level : nat) (spec : string) (volume : pyval) : hardware :=
  {| hw_id := id; hw_parent_id := parent; hw_level := level;
     hw_group := None; hw_is_component := true; hw_valid := true;
     hw_dim := "3D (Volume)"; hw_area := PyStr ""; hw_volume := volume;
     hw_type := Some "Unsampled - Spec"; hw_analogy := None;
     hw_implied_id := None; hw_spec := Some spec; hw_metadata := [] |}.

(** An accountable cotton swab sample of an area. *)
Definition swab_sample (id hardware_id technique : string)
    (area fraction cfu : pyval) : sample :=
  {| s_sample_id := id; s_hardware_id := hardware_id;
     s_pp_accountable := "Yes";
     s_sampled_area := area; s_sampled_volume := PyStr "";
     s_sampling_device := Some "Swab";
     s_sampling_device_type := Some "Puritan Cotton";
     s_processing_technique := Some technique;
     s_pour_fraction := fraction; s_cfu := cfu; s_metadata := [] |}.

Definition no_diff : deepdiff :=
  {| values_changed := None; dictionary_item_added := None;
     dictionary_item_removed := None; iterable_item_added := None;
     iterable_item_removed := None; other_changes := false |}.

(** ** Deletion of a Sampled component that another one is implied from *)

Definition hardware_before_delete : dict hardware :=
  [ ("A", sampled_hardware "A" None 2 "Analog A" (PyInt 1));
    ("B", implied_hardware "B" None 2 "A" (PyInt 2)) ]%string.

Definition hardware_after_delete : dict hardware :=
  [ ("B", with_validity false None
            (implied_hardware "B" None 2 "A" (PyInt 2))) ]%string.

Definition sim_of_A : sim :=
  {| sim_mode_of := mode_prior; sim_link := Some "Analog A"%string;
     sim_lambda := Vector [1; 2]; sim_cfu_of := Vector [0; 1] |}.

Definition sim_of_B : sim :=
  {| sim_mode_of := mode_implied; sim_link := Some "A"%string;
     sim_lambda := Vector [1; 2]; sim_cfu_of := Vector [2; 3] |}.

Definition sims_before_delete : sims_store :=
  {| noop := false; sims := [ ("A", sim_of_A); ("B", sim_of_B) ]%string |}.

(** The diff of the hardware across the deletion: "A" is removed, and
    the fields [valid] and [implied_id] of "B" change. *)
Definition diff_of_delete : deepdiff :=
  {| values_changed :=
       Some [ [KStr "B"; KStr "valid"]; [KStr "B"; KStr "implied_id"] ]%string;
     dictionary_item_added := None;
     dictionary_item_removed := Some [ [KStr "A"] ]%string;
     iterable_item_added := None; iterable_item_removed := None;
     other_changes := false |}.

(** ** A sample of a pairing that is not validated, with a pour fraction
    of 5 *)

Definition hardware_A : dict hardware :=
  [ ("A", sampled_hardware "A" None 2 "Analog A" (PyInt 1)) ]%string.

Definition sample_alias_bad_fraction : sample :=
  swab_sample "S1" "A" "ESA Standard" (PyInt 1) (PyInt 5) (PyInt 3).

Definition row_alias_bad_fraction : data_row :=
  {| d_cfu := 3; d_extent := 1; d_fraction := 5;
     d_alpha := 45.56431672969219; d_beta := 100.24149680532281 |}.

(** ** A rollup with three components *)

Definition hardware_rover : dict hardware :=
  [ ("Rover", rollup_hardware "Rover" None 2);
    ("Arm", sampled_hardware "Arm" (Some "Rover") 3 "Analog A" (PyInt 2));
    ("Tank", spec_hardware "Tank" (Some "Rover") 3
               "Encapsulated, Non-metal Avg" (PyInt 4));
    ("Mast", sampled_hardware "Mast" (Some "Rover") 3 GENERIC (PyInt 1)) ].

Definition samples_rover : list sample :=
  [ swab_sample "S1" "Arm" "NASA Standard" (PyInt 1) (PyInt 1) (PyInt 3) ].

Definition sims_rover : sims_store :=
  {| noop := false;
     sims :=
       [ ("Arm", {| sim_mode_of := mode_posterior;
                    sim_link := Some "Analog A";
                    sim_lambda := Vector [1 / 2; 3 / 2];
                    sim_cfu_of := Vector [1; 3] |});
         ("Tank", {| sim_mode_of := mode_spec; sim_link := None;
                     sim_lambda := Scalar 130;
                     sim_cfu_of := Scalar 520 |}) ] |}.

(** A multiple of [10^-6]: a number that [round(x, 6)] leaves as it is. *)
Definition micro (x : R) : Prop := exists k : Z, x = IZR k / 1000000.

(** The sum of the extents of the eligible components of a dimension
    among the direct and transitive descendants selected by [is_child],
    down to [fuel] levels. *)
Fixpoint eligible_extent (fuel : nat) (hardware_dict : dict hardware)
    (samples_list : list sample) (samples_valid : list string)
    (area : bool) (is_child : hardware -> bool) : R :=
  match fuel with
  | O => 0
  | S fuel' =>
      Rsum (map (fun c =>
                   if hw_is_component c then
                     contribution_total hardware_dict samples_list
                       samples_valid [] area c
                   else
                     eligible_extent fuel' hardware_dict samples_list
                       samples_valid area (children_of c))
                (filter is_child (values hardware_dict)))
  end.

(** The level of a node: the level of a rollup, 1 for the project. *)
Definition node_at (hardware_dict : dict hardware) (node_id : string)
    (is_child : hardware -> bool) (level : nat) : Prop :=
  (exists e,
      In e (values hardware_dict) /\ hw_is_component e = false
      /\ node_id = hw_id e /\ is_child = children_of e
      /\ level = hw_level e)
  \/ (node_id = PROJECT /\ is_child = is_root /\ level = 1%nat).

(** ** Components with one good sample, and catalogs of analog draws *)

Definition component_A : hardware :=
  sampled_hardware "A" None 2 "Analog A" (PyInt 1).

Definition component_G : hardware :=
  sampled_hardware "G" None 2 GENERIC (PyInt 1).

Definition sample_of_A : sample :=
  swab_sample "S1" "A" "NASA Standard" (PyInt 1) (PyInt 1) (PyInt 3).


Definition catalog_small : dict (list R) := [ ("Analog A", [1; 2]) ].







Definition empty_sims : sims_store := {| noop := true; sims := [] |}.

(** One sample with no colony, at a unit exposure. *)
Definition row_no_colony : data_row :=
  {| d_cfu := 0; d_extent := 1; d_fraction := 1;
     d_alpha := 45.56431672969219; d_beta := 100.24149680532281 |}.

(** ** An edit of the notes of a component *)

Definition diff_of_notes : deepdiff :=
  {| values_changed := Some [ [KStr "A"; KStr "notes"] ];
     dictionary_item_added := None; dictionary_item_removed := None;
     iterable_item_added := None; iterable_item_removed := None;
     other_changes := false |}.

Definition sims_of_A : sims_store :=
  {| noop := false; sims := [ ("A", sim_of_A) ] |}.

Definition state_of_A : app_state :=
  {| st_sims := sims_of_A; st_rollups := [] |}.

(** The aggregates that [store_sims_rollups] computes for
    [hardware_rover]. *)
Definition aggregates_rover : dict (rollup_res * rollup_res) :=
  [ ("Rover",
     ({| r_lambda :=
           Nd false
              [(0 + 2 * (1 / 2) + 0 + 0) / 2; (0 + 2 * (3 / 2) + 0 + 0) / 2];
         r_cfu := Nd true [0 + 1 + 0 + 0; 0 + 3 + 0 + 0];
         r_total := PyInt 2;
         r_sampled := PyInt 1 |},
      {| r_lambda := Py (Float (520 / 4));
         r_cfu := Py (Int 520);
         r_total := PyInt 4;
         r_sampled := PyInt 0 |}));
    ("-- Project --",
     ({| r_lambda :=
           Nd false
              [(0 + 2 * ((0 + 2 * (1 / 2) + 0 + 0) / 2)) / 2;
               (0 + 2 * ((0 + 2 * (3 / 2) + 0 + 0) / 2)) / 2];
         r_cfu := Nd true [0 + (0 + 1 + 0 + 0); 0 + (0 + 3 + 0 + 0)];
         r_total := PyInt 2;
         r_sampled := PyInt 1 |},
      {| r_lambda := Py (Float ((0 + 4 * (520 / 4)) / 4));
         r_cfu := Py (Int 520);
         r_total := PyInt 4;
         r_sampled := PyInt 0 |})) ].

(** ** A Spec component of 0.4 mm3, alone in the project *)

Definition hardware_chip : dict hardware :=
  [ ("Chip", spec_hardware "Chip" None 2 "Encapsulated, Non-metal Avg"
               (PyFloat (4 / 10000000))) ].

Definition sims_chip : sims_store :=
  {| noop := false;
     sims :=
       [ ("Chip", {| sim_mode_of := mode_spec; sim_link := None;
                     sim_lambda := Scalar 130;
                     sim_cfu_of := Scalar (130 * (4 / 10000000)) |}) ] |}.

(** ** A component of 1 m2 with a sample of 2 m2 *)

Definition samples_oversampled : list sample :=
  [ swab_sample "S1" "A" "NASA Standard" (PyInt 2) (PyInt 1) (PyInt 3) ].

Definition sims_oversampled : sims_store :=
  {| noop := false;
     sims :=
       [ ("A", {| sim_mode_of := mode_posterior;
                  sim_link := Some "Analog A";
                  sim_lambda := Vector [1 / 2; 3 / 2];
                  sim_cfu_of := Vector [1; 3] |}) ] |}.

Definition aggregates_chip : dict (rollup_res * rollup_res) :=
  [ (PROJECT,
     (empty_res,
      {| r_lambda :=
           Py (Float ((0 + 4 / 10000000 * 130) / (0 + 4 / 10000000)));
         r_cfu := Py (Float (0 + 130 * (4 / 10000000)));
         r_total := PyFloat (round6 (0 + 4 / 10000000));
         r_sampled := PyInt 0 |})) ].

Definition aggregates_oversampled : dict (rollup_res * rollup_res) :=
  [ (PROJECT,
     ({| r_lambda :=
           Nd false [(0 + 1 * (1 / 2)) / 1; (0 + 1 * (3 / 2)) / 1];
         r_cfu := Nd true [0 + 1; 0 + 3];
         r_total := PyInt 1;
         r_sampled := PyInt 2 |},
      empty_res)) ].


(* ------------------------------------------------------------------ *)
(** * More scenarios *)

(** The hardware after a blank element "N" is recorded next to "A", and
    the diff of that event. *)
Definition hardware_A_and_N : dict hardware :=
  [ ("A", sampled_hardware "A" None 2 "Analog A" (PyInt 1));
    ("N", new_hardware "N" None 2) ].

Definition diff_of_added_N : deepdiff :=
  {| values_changed := None;
     dictionary_item_added := Some [ [KStr "N"] ];
     dictionary_item_removed := None;
     iterable_item_added := None; iterable_item_removed := None;
     other_changes := false |}.

(* ------------------------------------------------------------------ *)
(** * More notions used in the statements *)

(** A sample that [identify_valid_samples] keeps: its alert is one of
    [allowed_errors]. *)
Definition accepted (hardware_dict : dict hardware) (s : sample) : bool :=
  match detect_sample_alerts s hardware_dict with
  | inr alert => str_in alert allowed_errors
  | inl _ => false
  end.

(* ------------------------------------------------------------------ *)
(** * Recording of a hardware element ([biostar/callbacks/record.py]) *)

(** [next(...)] on an iterator that is exhausted. *)
Inductive stop_iteration : Type :=
| StopIteration.

(** [hardware_options_parent]: the elements offered as parent are those
    of level 5 at most that have no sample. *)
Definition hardware_options_parent (hardware_dict : dict hardware)
    (samples_list : list sample) : list string :=
  let sampled_hardware := map s_hardware_id samples_list in
  map hw_id
      (filter (fun hw => (hw_level hw <=? 5)%nat
                         && negb (str_in (hw_id hw) sampled_hardware))
              (values hardware_dict)).

(** The row that [hardware_record] constructs. *)
Definition recorded_hardware (id : string) (parent : option string)
    (level : nat) : hardware :=
  {| hw_id := id; hw_parent_id := parent; hw_level := level;
     hw_group := None; hw_is_component := true; hw_valid := false;
     hw_dim := "2D (Area)"; hw_area := PyStr ""; hw_volume := PyStr "";
     hw_type := None; hw_analogy := None; hw_implied_id := None;
     hw_spec := None;
     hw_metadata := map (fun c => (c, PyStr "")) HARDWARE_METADATA_COLUMNS |}.

(** [hw["is_component"] = b]. *)
Definition with_is_component (b : bool) (hw : hardware) : hardware :=
  {| hw_id := hw_id hw; hw_parent_id := hw_parent_id hw;
     hw_level := hw_level hw; hw_group := hw_group hw;
     hw_is_component := b; hw_valid := hw_valid hw;
     hw_dim := hw_dim hw; hw_area := hw_area hw; hw_volume := hw_volume hw;
     hw_type := hw_type hw; hw_analogy := hw_analogy hw;
     hw_implied_id := hw_implied_id hw; hw_spec := hw_spec hw;
     hw_metadata := hw_metadata hw |}.

(** The inputs of a component cleared when it becomes a rollup; the
    group is kept. *)
Definition clear_component_inputs (hw : hardware) : hardware :=
  {| hw_id := hw_id hw; hw_parent_id := hw_parent_id hw;
     hw_level := hw_level hw; hw_group := hw_group hw;
     hw_is_component := hw_is_component hw; hw_valid := false;
     hw_dim := "2D (Area)"; hw_area := PyStr ""; hw_volume := PyStr "";
     hw_type := None; hw_analogy := None;
     hw_implied_id := None; hw_spec := None;
     hw_metadata := hw_metadata hw |}.

Definition exists_message (id : string) : string :=
  ("[" ++ id ++ "] A hardware element with this ID already exists!")%string.

Definition to_rollup_message (other_id added_id : string) : string :=
  ("[" ++ other_id
   ++ "] Element coerced from Component to Rollup following addition of '"
   ++ added_id ++ "'.")%string.

(** The [parent_id] values that are not [None]. *)
Definition parent_ids (hardware_dict : dict hardware) : list string :=
  flat_map (fun hw => match hw_parent_id hw with
                      | Some p => [p]
                      | None => []
                      end)
           (values hardware_dict).

(** One turn of the loop that marks the leaves as components. *)
Definition mark_component (leaves : string -> bool)
    (entry : string * hardware) : string * hardware :=
  let was_component := hw_is_component (snd entry) in
  let is_component := leaves (fst entry) in
  let hw := with_is_component is_component (snd entry) in
  (fst entry,
   if was_component && negb is_component then clear_component_inputs hw
   else hw).

(** [hardware_record]: the new dictionary and the messages of the
    notifications.  Every turn of the last loop reads and writes the
    entry of its own key only. *)
Definition hardware_record (hardware_dict : dict hardware)
    (hw_id_new : string) (hw_parent_id_new : option string)
  : stop_iteration + (dict hardware * list string) :=
  if dict_in hardware_dict hw_id_new then
    inr (hardware_dict, [exists_message hw_id_new])
  else
    let level :=
      if negb (truthy hw_parent_id_new) then inr 2%nat
      else match find (fun hw => opt_eqb hw_parent_id_new (hw_id hw))
                      (values hardware_dict) with
           | Some parent => inr (hw_level parent + 1)%nat
           | None => inl StopIteration
           end in
    match level with
    | inl e => inl e
    | inr level =>
        let hardware_dict :=
          dict_set hardware_dict hw_id_new
            (recorded_hardware hw_id_new hw_parent_id_new level) in
        let parents := parent_ids hardware_dict in
        let leaves := fun k => negb (str_in k parents) in
        inr (map (mark_component leaves) hardware_dict,
             flat_map (fun entry =>
                         if hw_is_component (snd entry)
                            && negb (leaves (fst entry))
                         then [to_rollup_message (fst entry) hw_id_new]
                         else [])
                      hardware_dict)
    end.

(* ------------------------------------------------------------------ *)
(** * Configuration of a hardware element ([hardware_config_apply]) *)

(** Python truthiness of a cell. *)
Definition pyval_truthy (v : pyval) : bool :=
  match v with
  | PyNone => false
  | PyStr s => negb (String.eqb s "")
  | PyInt z => negb (z =? 0)%Z
  | PyFloat r => if Req_dec_T r 0 then false else true
  end.

(** [s.startswith("3")]. *)
Definition startswith_3 (s : string) : bool :=
  match s with
  | String c _ => Ascii.eqb c "3"%char
  | EmptyString => false
  end.

(** [d.update(...)] on the metadata fields. *)
Definition update_fields (m : dict pyval) (fields : list (string * pyval))
  : dict pyval :=
  fold_left (fun acc kv => dict_set acc (fst kv) (snd kv)) fields m.

Definition hardware_config_apply (hardware_dict : dict hardware)
    (hw_id_tgt : string) (hw_group : option string) (hw_dim : string)
    (hw_area_vol : pyval)
    (hw_type hw_analogy hw_implied_id hw_spec : option string)
    (hw_handling hw_ventilation hw_composition hw_cleaning_fab
     hw_cleaning_pre hw_cleaning_sit hw_reduction_fab hw_reduction_pre
     hw_reduction_sit hw_notes : pyval)
  : result (dict hardware) :=
  (hw <- getitem hardware_dict hw_id_tgt ;;
   let valid :=
     negb (String.eqb hw_dim "") && pyval_truthy hw_area_vol
     && truthy hw_type in
   let valid :=
     if valid && hw_is_component hw then
       if opt_eqb hw_type "Sampled" then truthy hw_analogy
       else if opt_eqb hw_type "Unsampled - Implied" then truthy hw_implied_id
       else if opt_eqb hw_type "Unsampled - Spec" then truthy hw_spec
       else valid
     else valid in
   ok (dict_set hardware_dict hw_id_tgt
         {| hw_id := hw_id hw; hw_parent_id := hw_parent_id hw;
            hw_level := hw_level hw; hw_group := hw_group;
            hw_is_component := hw_is_component hw; hw_valid := valid;
            hw_dim := hw_dim;
            hw_area := if startswith_2 hw_dim then hw_area_vol else PyStr "";
            hw_volume := if startswith_3 hw_dim then hw_area_vol
                         else PyStr "";
            hw_type := hw_type; hw_analogy := hw_analogy;
            hw_implied_id := hw_implied_id; hw_spec := hw_spec;
            hw_metadata :=
              update_fields (hw_metadata hw)
                [ ("handling", hw_handling);
                  ("ventilation", hw_ventilation);
                  ("composition", hw_composition);
                  ("cleaning_fab", hw_cleaning_fab);
                  ("cleaning_pre", hw_cleaning_pre);
                  ("cleaning_sit", hw_cleaning_sit);
                  ("reduction_fab", hw_reduction_fab);
                  ("reduction_pre", hw_reduction_pre);
                  ("reduction_sit", hw_reduction_sit);
                  ("notes", hw_notes) ] |}))%res.

(* ------------------------------------------------------------------ *)
(** * Groups that no longer exist ([groups_delete_cascade]) *)

(** Equality of two sets of strings given as lists. *)
Definition set_eqb (a b : list string) : bool :=
  forallb (fun x => str_in x b) a && forallb (fun x => str_in x a) b.

Definition with_group (group : option string) (hw : hardware) : hardware :=
  {| hw_id := hw_id hw; hw_parent_id := hw_parent_id hw;
     hw_level := hw_level hw; hw_group := group;
     hw_is_component := hw_is_component hw; hw_valid := hw_valid hw;
     hw_dim := hw_dim hw; hw_area := hw_area hw; hw_volume := hw_volume hw;
     hw_type := hw_type hw; hw_analogy := hw_analogy hw;
     hw_implied_id := hw_implied_id hw; hw_spec := hw_spec hw;
     hw_metadata := hw_metadata hw |}.

(** [groups_delete_cascade]; [group_tags] holds the ["Group Tag"] of the
    rows of the table of groups. *)
Definition groups_delete_cascade (group_tags : list string)
    (hardware_dict : dict hardware) : result (dict hardware) :=
  let groups_def := group_tags in
  let groups_ref :=
    flat_map (fun hw => if truthy (hw_group hw) then
                          match hw_group hw with
                          | Some g => [g]
                          | None => []
                          end
                        else [])
             (values hardware_dict) in
  if set_eqb groups_def groups_ref then throw PreventUpdate
  else
    let groups_clear :=
      filter (fun g => negb (str_in g groups_def)) groups_ref in
    ok (map (fun entry =>
               (fst entry,
                match hw_group (snd entry) with
                | Some g =>
                    if str_in g groups_clear then with_group None (snd entry)
                    else snd entry
                | None => snd entry
                end))
            hardware_dict).

(* ------------------------------------------------------------------ *)
(** * The shape of the hierarchy *)

(** What the hierarchy of an element is made of. *)
Record shape : Type := {
  sh_id : string;
  sh_parent : option string;
  sh_level : nat;
  sh_component : bool
}.

Definition shape_of (hw : hardware) : shape :=
  {| sh_id := hw_id hw; sh_parent := hw_parent_id hw;
     sh_level := hw_level hw; sh_component := hw_is_component hw |}.

Definition skeleton (hardware_dict : dict hardware) : dict shape :=
  map (fun entry => (fst entry, shape_of (snd entry))) hardware_dict.

(** An element has a child. *)
Definition has_child (t : dict shape) (k : string) : bool :=
  existsb (fun s => opt_eqb (sh_parent s) k) (values t).

(** The hierarchy that the callbacks of the application build: the key
    of an element is its id, which is neither empty nor the name of the
    project; an element without parent is on level 2 and a child one
    level below its parent, which exists; the components are the
    elements without child; and a rollup is on level 5 at most. *)
Record tree_ok (t : dict shape) : Prop := {
  tk_keys : NoDup (keys t);
  tk_ids :
    forall k s, In (k, s) t -> sh_id s = k /\ k <> ""%string /\ k <> PROJECT;
  tk_roots :
    forall k s, In (k, s) t -> truthy (sh_parent s) = false ->
                sh_level s = 2%nat;
  tk_parents :
    forall k s,
      In (k, s) t -> truthy (sh_parent s) = true ->
      exists p sp,
        sh_parent s = Some p /\ In (p, sp) t
        /\ sh_level s = S (sh_level sp);
  tk_leaves :
    forall k s, In (k, s) t -> sh_component s = negb (has_child t k);
  tk_depth :
    forall k s, In (k, s) t -> sh_component s = false ->
                (sh_level s <= 5)%nat
}.

Definition hierarchy_ok (hardware_dict : dict hardware) : Prop :=
  tree_ok (skeleton hardware_dict).

Definition set_component (b : bool) (s : shape) : shape :=
  {| sh_id := sh_id s; sh_parent := sh_parent s; sh_level := sh_level s;
     sh_component := b |}.

(** The shapes after the leaves have been marked as components. *)
Definition relabel (t : dict shape) : dict shape :=
  map (fun entry =>
         (fst entry, set_component (negb (has_child t (fst entry)))
                       (snd entry)))
      t.

(** The shapes after the deletion of [id], whose parent is [parent]: a
    parent left without child becomes a component. *)
Definition delete_shape (t : dict shape) (id : string)
    (parent : option string) : dict shape :=
  let t1 := dict_remove t id in
  match parent with
  | Some p =>
      if negb (String.eqb p "") && negb (has_child t1 p) then
        match dict_get t1 p with
        | Some sp => dict_set t1 p (set_component true sp)
        | None => t1
        end
      else t1
  | None => t1
  end.

(** Two shapes that differ at most in being a component. *)
Definition same_core (s s' : shape) : Prop :=
  sh_id s = sh_id s' /\ sh_parent s = sh_parent s'
  /\ sh_level s = sh_level s'.

(* ------------------------------------------------------------------ *)
(** * Recording and configuration of a sample *)

Definition sample_exists_message (id : string) : string :=
  ("[" ++ id ++ "] A sample with this ID already exists!")%string.

(** [sample_record]: the new table and the messages of the
    notifications. *)
Definition sample_record (hardware_dict : dict hardware)
    (samples_list : list sample) (samp_id samp_hw_id : string)
    (samp_accountable : string)
    (samp_device samp_device_type samp_technique : option string)
    (samp_fraction samp_area_vol samp_cfu : pyval)
    (samp_assay_name samp_assay_date samp_pp_cert samp_control
     samp_notes : pyval)
  : result (list sample * list string) :=
  let existing_samples := map s_sample_id samples_list in
  if str_in samp_id existing_samples then
    ok (samples_list, [sample_exists_message samp_id])
  else
    (hw <- getitem hardware_dict samp_hw_id ;;
     let row :=
       {| s_sample_id := samp_id; s_hardware_id := hw_id hw;
          s_pp_accountable := samp_accountable;
          s_sampled_area :=
            if startswith_2 (hw_dim hw) then samp_area_vol else PyNone;
          s_sampled_volume :=
            if startswith_3 (hw_dim hw) then samp_area_vol else PyNone;
          s_sampling_device := samp_device;
          s_sampling_device_type := samp_device_type;
          s_processing_technique := samp_technique;
          s_pour_fraction := samp_fraction; s_cfu := samp_cfu;
          s_metadata :=
            [ ("Assay Name", samp_assay_name);
              ("Assay Date", samp_assay_date);
              ("PP Cert #", samp_pp_cert);
              ("Control Type", samp_control);
              ("Sampling Notes", samp_notes) ] |} in
     ok (samples_list ++ [row], []))%res.

(** [samples_list[sample_idx].update(...)]. *)
Fixpoint update_first_sample (samp_id : string) (f : sample -> sample)
    (samples_list : list sample) : result (list sample) :=
  match samples_list with
  | [] => throw IndexError
  | s :: rest =>
      if String.eqb (s_sample_id s) samp_id then ok (f s :: rest)
      else (rest' <- update_first_sample samp_id f rest ;;
            ok (s :: rest'))%res
  end.

Definition sample_config_apply (samp_id samp_hw_id : string)
    (samp_accountable : string)
    (samp_device samp_device_type samp_technique : option string)
    (samp_fraction samp_area_vol samp_cfu : pyval)
    (samp_assay_name samp_assay_date samp_pp_cert samp_control
     samp_notes : pyval)
    (hardware_dict : dict hardware) (samples_list : list sample)
  : result (list sample) :=
  (hw <- getitem hardware_dict samp_hw_id ;;
   update_first_sample samp_id
     (fun s =>
        {| s_sample_id := s_sample_id s; s_hardware_id := s_hardware_id s;
           s_pp_accountable := samp_accountable;
           s_sampled_area :=
             if startswith_2 (hw_dim hw) then samp_area_vol
             else s_sampled_area s;
           s_sampled_volume :=
             if startswith_2 (hw_dim hw) then s_sampled_volume s
             else samp_area_vol;
           s_sampling_device := samp_device;
           s_sampling_device_type := samp_device_type;
           s_processing_technique := samp_technique;
           s_pour_fraction := samp_fraction; s_cfu := samp_cfu;
           s_metadata :=
             update_fields (s_metadata s)
               [ ("Assay Name", samp_assay_name);
                 ("Assay Date", samp_assay_date);
                 ("PP Cert #", samp_pp_cert);
                 ("Control Type", samp_control);
                 ("Sampling Notes", samp_notes) ] |})
     samples_list)%res.

(* ------------------------------------------------------------------ *)
(** * The elements offered for the results
      ([find_eligible_hardware_ids], [find_rollup_nested_component_ids]) *)

(** A dictionary from levels to sets of ids; a set is kept as the list
    of its elements in the order of their first insertion. *)
Definition level_sets : Type := list (nat * list string).

Fixpoint level_get (m : level_sets) (level : nat) : list string :=
  match m with
  | [] => []
  | (l, ids) :: m' => if (l =? level)%nat then ids else level_get m' level
  end.

Definition set_add (ids : list string) (id : string) : list string :=
  if str_in id ids then ids else ids ++ [id].

(** [m[level] = set([id])] for a new level, [m[level].add(id)]
    otherwise. *)
Fixpoint level_add (m : level_sets) (level : nat) (id : string)
  : level_sets :=
  match m with
  | [] => [(level, [id])]
  | (l, ids) :: m' =>
      if (l =? level)%nat then (l, set_add ids id) :: m'
      else (l, ids) :: level_add m' level id
  end.

(** [m[level] = ids]. *)
Fixpoint level_set (m : level_sets) (level : nat) (ids : list string)
  : level_sets :=
  match m with
  | [] => [(level, ids)]
  | (l, ids') :: m' =>
      if (l =? level)%nat then (l, ids) :: m'
      else (l, ids') :: level_set m' level ids
  end.

(** The loop [while True] that climbs from an element to the top of the
    hierarchy; [None] when it has not reached the top in [turns] turns. *)
Fixpoint climb (turns : nat) (hardware_dict : dict hardware) (hw : hardware)
    (eligible_hardware_ids : level_sets) : option (result level_sets) :=
  match turns with
  | O => None
  | S turns' =>
      let eligible_hardware_ids :=
        level_add eligible_hardware_ids (hw_level hw) (hw_id hw) in
      match hw_parent_id hw with
      | Some parent_id =>
          if negb (String.eqb parent_id "") then
            match dict_get hardware_dict parent_id with
            | Some parent =>
                climb turns' hardware_dict parent eligible_hardware_ids
            | None => Some (throw KeyError)
            end
          else Some (ok (level_set eligible_hardware_ids 1 [PROJECT]))
      | None => Some (ok (level_set eligible_hardware_ids 1 [PROJECT]))
      end
  end.

(** [find_eligible_hardware_ids], with a bound on the turns of each
    climb. *)
Definition find_eligible_hardware_ids (turns : nat)
    (hardware_dict : dict hardware) (samples_list : list sample)
  : option (result level_sets) :=
  match identify_valid_samples samples_list hardware_dict with
  | inl e => Some (inl e)
  | inr samples_valid =>
      fold_left
        (fun acc hw =>
           match acc with
           | Some (inr eligible_hardware_ids) =>
               if ineligible hw samples_list samples_valid
               then Some (ok eligible_hardware_ids)
               else climb turns hardware_dict hw eligible_hardware_ids
           | _ => acc
           end)
        (values hardware_dict) (Some (ok []))
  end.

(** An element and the elements above it. *)
Inductive above (hardware_dict : dict hardware)
  : hardware -> hardware -> Prop :=
| above_self (hw : hardware) : above hardware_dict hw hw
| above_parent (hw parent top : hardware) (parent_id : string) :
    hw_parent_id hw = Some parent_id -> parent_id <> ""%string ->
    dict_get hardware_dict parent_id = Some parent ->
    above hardware_dict parent top ->
    above hardware_dict hw top.

(** The recursive [dfs] of [find_rollup_nested_component_ids]; [None]
    when the recursion is deeper than [depth]. *)
Fixpoint dfs (depth : nat) (hardware_dict : dict hardware)
    (current_id : string) (component_ids : list string)
  : option (result (list string)) :=
  match depth with
  | O => None
  | S depth' =>
      match dict_get hardware_dict current_id with
      | None => Some (throw KeyError)
      | Some current_elem =>
          if hw_is_component current_elem then
            Some (ok (set_add component_ids (hw_id current_elem)))
          else
            fold_left
              (fun acc child_id =>
                 match acc with
                 | Some (inr component_ids) =>
                     dfs depth' hardware_dict child_id component_ids
                 | _ => acc
                 end)
              (map fst
                   (filter (fun entry =>
                              opt_eqb (hw_parent_id (snd entry)) current_id)
                           hardware_dict))
              (Some (ok component_ids))
      end
  end.

(** [find_rollup_nested_component_ids]: a list for the project, a set
    otherwise. *)
Definition find_rollup_nested_component_ids (depth : nat)
    (rollup_id : string) (hardware_dict : dict hardware)
  : option (result (list string)) :=
  if String.eqb rollup_id PROJECT then
    Some (ok (map fst
                  (filter (fun entry => hw_is_component (snd entry))
                          hardware_dict)))
  else dfs depth hardware_dict rollup_id [].

(* ------------------------------------------------------------------ *)
(** * The sessions of the application *)

(** The hardware and the samples that the callbacks of the panels that
    record, configure and delete reach from the empty project.  The
    side conditions are those of the interface: an element is recorded
    under an id that is not empty (the button is disabled otherwise,
    [hardware_toggle_button]) and under no parent or one of the options
    of [hardware_options_parent]; the button that deletes an element is
    disabled on a rollup ([hardware_config_state_id]); the rows of the
    table of samples can be deleted and its cells edited, except the
    columns Sample ID and Hardware ID ([SAMPLE_TABLE_COLUMNS]).  That no
    element is given the name of the project is assumed, and the import
    of a project is not among the steps. *)
Inductive session : dict hardware -> list sample -> Prop :=
| session_empty : session [] []
| session_hardware_record (d d' : dict hardware) (samples : list sample)
    (n : string) (par : option string) (notes : list string) :
    session d samples ->
    dict_in d n = false -> n <> ""%string -> n <> PROJECT ->
    truthy par = false
    \/ (exists p,
           par = Some p /\ In p (hardware_options_parent d samples)) ->
    hardware_record d n par = inr (d', notes) ->
    session d' samples
| session_hardware_delete (d d' : dict hardware)
    (samples samples' : list sample)
    (id : string) (hw : hardware) (notes : list string) :
    session d samples ->
    dict_get d id = Some hw -> hw_is_component hw = true ->
    hardware_delete_confirm id d samples = ok (d', samples', notes) ->
    session d' samples'
| session_hardware_config (d d' : dict hardware) (samples : list sample)
    (id : string) (group : option string) (dim : string) (area_vol : pyval)
    (type analogy implied_id spec : option string)
    (m1 m2 m3 m4 m5 m6 m7 m8 m9 m10 : pyval) :
    session d samples ->
    hardware_config_apply d id group dim area_vol type analogy implied_id
      spec m1 m2 m3 m4 m5 m6 m7 m8 m9 m10 = ok d' ->
    session d' samples
| session_groups (d d' : dict hardware) (samples : list sample)
    (group_tags : list string) :
    session d samples ->
    groups_delete_cascade group_tags d = ok d' ->
    session d' samples
| session_sample_record (d : dict hardware) (samples samples' : list sample)
    (samp_id samp_hw_id accountable : string)
    (device device_type technique : option string)
    (fraction area_vol cfu m1 m2 m3 m4 m5 : pyval) (notes : list string) :
    session d samples ->
    sample_record d samples samp_id samp_hw_id accountable device
      device_type technique fraction area_vol cfu m1 m2 m3 m4 m5
    = ok (samples', notes) ->
    session d samples'
| session_sample_config (d : dict hardware) (samples samples' : list sample)
    (samp_id samp_hw_id accountable : string)
    (device device_type technique : option string)
    (fraction area_vol cfu m1 m2 m3 m4 m5 : pyval) :
    session d samples ->
    sample_config_apply samp_id samp_hw_id accountable device device_type
      technique fraction area_vol cfu m1 m2 m3 m4 m5 d samples
    = ok samples' ->
    session d samples'
| session_rows_deleted (d : dict hardware) (samples : list sample)
    (kept : sample -> bool) :
    session d samples ->
    session d (filter kept samples)
| session_cells_edited (d : dict hardware) (samples samples' : list sample) :
    session d samples ->
    map s_sample_id samples' = map s_sample_id samples ->
    map s_hardware_id samples' = map s_hardware_id samples ->
    session d samples'.

(** ** A project in which "Rover" is recorded, then "Arm" under it *)

Definition hardware_rover_recorded : dict hardware :=
  [ ("Rover", recorded_hardware "Rover" None 2) ].

Definition hardware_arm_recorded : dict hardware :=
  [ ("Rover", clear_component_inputs
                (with_is_component false (recorded_hardware "Rover" None 2)));
    ("Arm", recorded_hardware "Arm" (Some "Rover") 3) ].

(* ------------------------------------------------------------------ *)
(** * Paths of a deepdiff ([unpack_deepdiff_loc]) *)

(** [\d] on ASCII text. *)
Definition is_digit (c : ascii) : bool :=
  let n := nat_of_ascii c in ((48 <=? n) && (n <=? 57))%nat.

Definition is_quote (c : ascii) : bool := Ascii.eqb c "'"%char.

(** The longest prefix of characters that satisfy [p], and the rest. *)
Fixpoint span (p : ascii -> bool) (s : string) : string * string :=
  match s with
  | EmptyString => (EmptyString, EmptyString)
  | String c s' =>
      if p c then let (a, b) := span p s' in (String c a, b)
      else (EmptyString, s)
  end.

(** [int] of a string of digits. *)
Definition int_of_digits (s : string) : nat :=
  let fix go (s : string) (acc : nat) : nat :=
    match s with
    | EmptyString => acc
    | String c s' => go s' (10 * acc + (nat_of_ascii c - 48))%nat
    end in
  go s 0%nat.

(** A match of [\['([^']+)'\]] at the head of [s]: the group and what
    follows the match.  The run of characters other than the quote is
    taken whole: a shorter run would not be followed by the quote. *)
Definition match_key (s : string) : option (string * string) :=
  match s with
  | String c0 s0 =>
      if Ascii.eqb c0 "["%char then
        match s0 with
        | String c1 s1 =>
            if is_quote c1 then
              match span (fun c => negb (is_quote c)) s1 with
              | (String k0 k, String c2 (String c3 rest)) =>
                  if is_quote c2 && Ascii.eqb c3 "]"%char
                  then Some (String k0 k, rest) else None
              | _ => None
              end
            else None
        | EmptyString => None
        end
      else None
  | EmptyString => None
  end.

(** A match of [\[(\d+)\]] at the head of [s]. *)
Definition match_index (s : string) : option (string * string) :=
  match s with
  | String c0 s1 =>
      if Ascii.eqb c0 "["%char then
        match span is_digit s1 with
        | (String d0 d, String c1 rest) =>
            if Ascii.eqb c1 "]"%char then Some (String d0 d, rest) else None
        | _ => None
        end
      else None
  | _ => None
  end.

(** [re.findall]: the matches from left to right, the search resuming
    after a match, or one character further where there is none.  Every
    turn consumes a character, so that the length of the text bounds
    the number of turns. *)
Fixpoint findall (turns : nat) (s : string) : list loc_key :=
  match turns with
  | O => []
  | S turns' =>
      match s with
      | EmptyString => []
      | String _ s' =>
          match match_key s with
          | Some (string_key, rest) => KStr string_key :: findall turns' rest
          | None =>
              match match_index s with
              | Some (numeric_index, rest) =>
                  KInt (int_of_digits numeric_index) :: findall turns' rest
              | None => findall turns' s'
              end
          end
      end
  end.

Definition unpack_deepdiff_loc (path_str : string) : loc :=
  findall (String.length path_str) path_str.

(** The decimal digits of a number, most significant first. *)
Definition digit_of (n : nat) : ascii := ascii_of_nat (48 + n).

Fixpoint digits_upto (fuel n : nat) (acc : string) : string :=
  match fuel with
  | O => acc
  | S fuel' =>
      let acc' := String (digit_of (n mod 10)) acc in
      if (n <? 10)%nat then acc' else digits_upto fuel' (n / 10) acc'
  end.

Definition decimal (n : nat) : string := digits_upto (S n) n EmptyString.

(** The text of a path, as deepdiff writes it: ["root['a'][3]"]. *)
Definition render_key (k : loc_key) : string :=
  match k with
  | KStr s => ("['" ++ s ++ "']")%string
  | KInt n => ("[" ++ decimal n ++ "]")%string
  end.

Fixpoint render_keys (l : loc) : string :=
  match l with
  | [] => EmptyString
  | k :: l' => (render_key k ++ render_keys l')%string
  end.

Definition render_path (l : loc) : string :=
  ("root" ++ render_keys l)%string.

Fixpoint string_forall (p : ascii -> bool) (s : string) : bool :=
  match s with
  | EmptyString => true
  | String c s' => p c && string_forall p s'
  end.

(** A key that a path can hold: a string key is not empty and holds no
    quote. *)
Definition plain_key (k : loc_key) : bool :=
  match k with
  | KStr s =>
      negb (String.eqb s "") && string_forall (fun c => negb (is_quote c)) s
  | KInt _ => true
  end.

(** ** Two elements with groups, one of which is no longer defined *)

Definition hardware_with_groups : dict hardware :=
  [ ("A", with_group (Some "G1") component_A);
    ("G", with_group (Some "G2") component_G) ].

Definition hardware_without_lost_group : dict hardware :=
  [ ("A", with_group (Some "G1") component_A);
    ("G", with_group None (with_group (Some "G2") component_G)) ].

(** An id listed under a level by [find_eligible_hardware_ids]: the
    project on level 1, when some element is eligible, or an element
    that is eligible or above an eligible one, on its own level. *)
Definition offered (hardware_dict : dict hardware)
    (samples_list : list sample) (samples_valid : list string)
    (among : list hardware) (level : nat) (id : string) : Prop :=
  exists hw,
    In hw among
    /\ ineligible hw samples_list samples_valid = false
    /\ ((level = 1%nat /\ id = PROJECT)
        \/ exists top,
             above hardware_dict hw top /\ hw_id top = id
             /\ hw_level top = level).
(* ------------------------------------------------------------------ *)
(** * Statistical update engine ([biostar/modules/update.py]) *)

Section Engine.

(** The entropy consumed by the generators, and numpy's samplers.
    [rng_beta a b size], [rng_gamma shape scale],
    [rng_choice n size replace p] and [rng_poisson lam] stand for the
    methods of [np.random.default_rng()]; they may raise [ValueError]
    on parameters out of their domain. *)
Variable entropy : Type.
Variable rng_beta : R -> R -> nat -> M entropy (list R).
Variable rng_gamma : R -> list npfloat -> M entropy (list R).
Variable rng_choice :
  nat -> nat -> bool -> option (list npfloat) -> M entropy (list nat).
Variable rng_poisson : list R -> M entropy (list Z).

(** [scipy.special.gamma], reached by [special.factorial] on a count
    that is not an integer. *)
Variable special_gamma : R -> R.

(** The catalog of analog draws, loaded from a file of the installation. *)
Variable POSTERIOR_MAP : dict (list R).

(** [scipy.special.factorial] on a float array. *)
Definition special_factorial (x : R) : R :=
  if Rlt_dec x 0 then 0
  else if int_valued x then INR (fact (Z.to_nat (Zfloor x)))
  else special_gamma (x + 1).

(** One Beta draw per particle for every sample: row [i] holds the
    draws of sample [i]. *)
Definition draw_efficiencies (data : list data_row) (size : nat)
  : M entropy (list (list R)) :=
  mapM (fun d => rng_beta (d_alpha d) (d_beta d) size) data.

(** [lambda_samples.reshape(-1, 1) * exposures * efficiencies.T]:
    row [j] is particle [j], column [i] is sample [i]. *)
Definition expected_rates (lambda_samples : list R) (data : list data_row)
    (efficiencies : list (list R)) : list (list R) :=
  map (fun jl =>
         map (fun de =>
                snd jl * (d_extent (fst de) * d_fraction (fst de))
                * nth (fst jl) (snd de) 0)
             (combine data efficiencies))
      (combine (seq 0 (length lambda_samples)) lambda_samples).

(** [counts * np.log(expected_rates) - special.factorial(counts)
    - expected_rates], entry by entry. *)
Definition log_lik_entry (count rate : R) : npfloat :=
  fsub (fsub (fmul (Fin count) (flog (Fin rate)))
             (Fin (special_factorial count)))
       (Fin rate).

Definition log_lik_matrix (data : list data_row) (rates : list (list R))
  : list (list npfloat) :=
  map (fun row =>
         map (fun dr => log_lik_entry (d_cfu (fst dr)) (snd dr))
             (combine data row))
      rates.

Definition likelihoods (lambda_samples : list R) (data : list data_row)
    (log joint : bool) : M entropy ndarray :=
  match data with
  | [] => raise IndexError
  | _ :: _ =>
      (efficiencies <- draw_efficiencies data (length lambda_samples) ;;
       let rates := expected_rates lambda_samples data efficiencies in
       let log_lik := log_lik_matrix data rates in
       let log_lik :=
         if joint then Arr1 (map fsum log_lik)
         else Arr2 (transpose log_lik) in
       ret (if log then log_lik else nd_exp log_lik))%M
  end.

(** [(exposures * efficiencies.T).sum(axis=1)], one rate per particle. *)
Definition exposure_sums (data : list data_row)
    (efficiencies : list (list R)) (resolution : nat) : list R :=
  map (fun j =>
         Rsum (map (fun de =>
                      d_extent (fst de) * d_fraction (fst de)
                      * nth j (snd de) 0)
                   (combine data efficiencies)))
      (seq 0 resolution).

Definition generic_prior_solution (data : list data_row) (resolution : nat)
  : M entropy (list R) :=
  match data with
  | [] => raise IndexError
  | _ :: _ =>
      let cfu_total := Rsum (map d_cfu data) in
      (efficiencies <- draw_efficiencies data resolution ;;
       rng_gamma (0.5 + cfu_total)
         (map (fun s => fdiv (Fin 1) (Fin s))
              (exposure_sums data efficiencies resolution)))%M
  end.

Definition update_analogy_prior (lambda_samples : option (list R))
    (data : list data_row) (resolution : nat) : M entropy (list R) :=
  match lambda_samples with
  | None => generic_prior_solution data resolution
  | Some lambda_samples =>
      (lik <- likelihoods lambda_samples data false true ;;
       match lik with
       | Arr1 lik =>
           let weights := map (fun l => fdiv l (fsum lik)) lik in
           resample_idx <-
             rng_choice (length lambda_samples) resolution true
               (Some weights) ;;
           lift (take lambda_samples resample_idx)
       | Arr2 _ => raise ValueError
       end)%M
  end.

(** [sim_cfu]: Poisson counts at the rates scaled by the exposure. *)
Definition sim_cfu (lambda_samples : draws) (total_exposure : R)
  : M entropy draws :=
  match lambda_samples with
  | Scalar x =>
      (k <- rng_poisson [x * total_exposure] ;;
       ret (Scalar (IZR (hd 0%Z k))))%M
  | Vector v =>
      (k <- rng_poisson (map (fun x => x * total_exposure) v) ;;
       ret (Vector (map IZR k)))%M
  end.

Definition n_sims_default : nat := 1000.
Definition resolution_default : nat := 1000.

(** The rows of [samples_list] that [sim_component] uses. *)
Definition component_samples (hw : hardware) (samples_list : list sample)
  : list sample :=
  filter (fun row =>
            String.eqb (s_hardware_id row) (hw_id hw) && accountable row)
         samples_list.

(** The [samples_data] array: the efficiency tags are resolved while the
    rows are built, the cells are used as numbers afterwards. *)
Definition samples_data (area_vol_attr : sample -> pyval)
    (samples : list sample) : result (list data_row) :=
  (effs <- rmap (fun row => get_efficiency_params (sample_eff_tag row))
             samples ;;
   rmap (fun re =>
           let row := fst re in
           cfu <- as_number (s_cfu row) ;;
           extent <- as_number (area_vol_attr row) ;;
           fraction <- as_number (s_pour_fraction row) ;;
           ok {| d_cfu := to_R cfu; d_extent := to_R extent;
                 d_fraction := to_R fraction;
                 d_alpha := fst (snd re); d_beta := snd (snd re) |})
        (combine samples effs))%res.

(** [sim_component].  A string in the extent of a spec component makes
    Python repeat the string; the model raises [TypeError] there. *)
Definition sim_component (hw : hardware) (samples_list : list sample)
    (current_sims : sims_store) (n_sims : nat) : M entropy sim :=
  let exposure := exposure_of hw in
  let area_vol_attr := area_vol_attr_of hw in
  if opt_eqb (hw_type hw) "Unsampled - Spec" then
    lift (by_dim <- getitem SPEC_DENSITY_MAP (hw_dim hw) ;;
          density <- match hw_spec hw with
                     | Some spec => getitem by_dim spec
                     | None => throw KeyError
                     end ;;
          e <- as_number exposure ;;
          ok {| sim_mode_of := mode_spec; sim_link := None;
                sim_lambda := Scalar density;
                sim_cfu_of := Scalar (density * to_R e) |})%res
  else if opt_eqb (hw_type hw) "Unsampled - Implied" then
    (implied_sim <- lift match hw_implied_id hw with
                         | Some implied_id =>
                             getitem (sims current_sims) implied_id
                         | None => throw KeyError
                         end ;;
     e <- lift (as_number exposure) ;;
     cfu <- sim_cfu (sim_lambda implied_sim) (to_R e) ;;
     ret {| sim_mode_of := mode_implied; sim_link := hw_implied_id hw;
            sim_lambda := sim_lambda implied_sim; sim_cfu_of := cfu |})%M
  else
    (analogy_prior <-
       lift (if opt_eqb (hw_analogy hw) GENERIC then ok None
             else match hw_analogy hw with
                  | Some analogy =>
                      (p <- getitem POSTERIOR_MAP analogy ;; ok (Some p))%res
                  | None => throw KeyError
                  end) ;;
     let samples := component_samples hw samples_list in
     match samples with
     | _ :: _ =>
         data <- lift (samples_data area_vol_attr samples) ;;
         draws_lambda <-
           update_analogy_prior analogy_prior data resolution_default ;;
         e <- lift (as_number exposure) ;;
         cfu <- sim_cfu (Vector draws_lambda) (to_R e) ;;
         ret {| sim_mode_of := mode_posterior; sim_link := hw_analogy hw;
                sim_lambda := Vector draws_lambda; sim_cfu_of := cfu |}
     | [] =>
         prior <- lift match analogy_prior with
                       | Some p => ok p
                       | None => throw TypeError
                       end ;;
         idx <- rng_choice (length prior) n_sims false None ;;
         draws_lambda <- lift (take prior idx) ;;
         e <- lift (as_number exposure) ;;
         cfu <- sim_cfu (Vector draws_lambda) (to_R e) ;;
         ret {| sim_mode_of := mode_prior; sim_link := hw_analogy hw;
                sim_lambda := Vector draws_lambda; sim_cfu_of := cfu |}
     end)%M.

(* ---------------------------------------------------------------- *)
(** * Incremental recomputation ([store_sims_components]) *)

(** [current_sims["sims"][hw["id"]] = sim_component(hw, samples, current_sims)]. *)
Definition resimulate (samples : list sample) (current_sims : sims_store)
    (hw : hardware) : M entropy sims_store :=
  (s <- sim_component hw samples current_sims n_sims_default ;;
   ret (set_sim (hw_id hw) s current_sims))%M.

Definition resimulate_all (samples : list sample) (hws : list hardware)
    (current_sims : sims_store) : M entropy sims_store :=
  foldM (resimulate samples) hws current_sims.

(** [for hw in hws: del current_sims["sims"][hw["id"]]]. *)
Definition delete_all (hws : list hardware) (current_sims : sims_store)
  : result sims_store :=
  fold_left (fun acc hw => (cs <- acc ;; del_sim (hw_id hw) cs)%res)
            hws (ok current_sims).

Definition head_key (l : loc) : result loc_key :=
  match l with
  | k :: _ => ok k
  | [] => throw IndexError
  end.

Section Controller.

Variable hardware_dict hardware_prev : dict hardware.
Variable samples_list samples_prev : list sample.
Variable samples_valid : list string.

Definition samples_list_valid : list sample :=
  filter (fun s => str_in (s_sample_id s) samples_valid) samples_list.

(** [is_eligible]; the elements passed are never [None]. *)
Definition is_eligible (hw : hardware) : bool :=
  if negb (opt_eqb (hw_analogy hw) GENERIC) then hw_valid hw
  else hw_valid hw
       && match component_samples hw samples_list_valid with
          | [] => false
          | _ :: _ => true
          end.

(** Re-simulate a component, then the components implied from it. *)
Definition resimulate_with_implied (samples : list sample)
    (hw : hardware) (implied : list hardware)
    (current_sims : sims_store) : M entropy sims_store :=
  (cs <- resimulate samples current_sims hw ;;
   resimulate_all samples implied cs)%M.

(** Case 2.1: batch import. *)
Definition batch_import : M entropy sims_store :=
  (cs <- resimulate_all samples_list_valid
           (filter (fun hw => is_eligible hw
                      && negb (opt_eqb (hw_type hw) "Unsampled - Implied"))
                   (values hardware_dict))
           {| noop := false; sims := [] |} ;;
   resimulate_all samples_list_valid
     (filter (fun hw => is_eligible hw
                && opt_eqb (hw_type hw) "Unsampled - Implied")
             (values hardware_dict))
     cs)%M.

(** Case 2.2: a single hardware element added. *)
Definition hardware_added (added_loc : loc)
    (changed : option (list loc)) (current_sims : sims_store)
  : M entropy sims_store :=
  (added_key <- lift (head_key added_loc) ;;
   added_res <- lift (getitem_key hardware_dict added_key) ;;
   let implied_added := find_implied_hardware added_res hardware_dict in
   match changed with
   | Some locs =>
       coerced_loc <- lift match locs with
                           | l :: _ => ok l
                           | [] => throw IndexError
                           end ;;
       coerced_idx <- lift match coerced_loc with
                           | [idx; _] => ok idx
                           | _ => throw ValueError
                           end ;;
       coerced <- lift (getitem_key hardware_prev coerced_idx) ;;
       let implied_coerced := find_implied_hardware coerced hardware_dict in
       cs <- lift (if is_eligible coerced then
                     (cs <- del_sim (hw_id coerced) current_sims ;;
                      cs <- delete_all implied_coerced cs ;;
                      ok (set_noop false cs))%res
                   else ok current_sims) ;;
       if is_eligible added_res then
         cs <- resimulate_with_implied samples_list_valid added_res
                 implied_added cs ;;
         ret (set_noop false cs)
       else ret cs
   | None =>
       if negb (is_eligible added_res) then
         ret (set_noop true current_sims)
       else
         cs <- resimulate_with_implied samples_list_valid added_res
                 implied_added current_sims ;;
         ret (set_noop false cs)
   end)%M.

(** Case 2.3: hardware elements removed. *)
Definition removed_step (acc : bool * sims_store) (removed_res : hardware)
  : result (bool * sims_store) :=
  let current_sims := snd acc in
  if is_eligible removed_res
     || (dict_in (sims current_sims) (hw_id removed_res)
         && negb (is_eligible removed_res))
  then
    let implied_removed := find_implied_hardware removed_res hardware_dict in
    (cs <- del_sim (hw_id removed_res) current_sims ;;
     cs <- delete_all implied_removed cs ;;
     ok (false, cs))%res
  else ok acc.

Definition hardware_removed (removed : list loc)
    (current_sims : sims_store) : result sims_store :=
  (removed_res_arr <-
     rmap (fun removed_loc =>
             k <- head_key removed_loc ;; getitem_key hardware_prev k)
          removed ;;
   acc <- fold_left (fun acc r => (a <- acc ;; removed_step a r)%res)
            removed_res_arr (ok (true, current_sims)) ;;
   ok (set_noop (fst acc) (snd acc)))%res.

(** Case 2.4: fields of existing hardware edited. *)
Definition hardware_edit_step (acc : list bool * sims_store)
    (edit : loc_key * list loc_key) : M entropy (list bool * sims_store) :=
  let noops := fst acc in
  let current_sims := snd acc in
  if forallb (is_metadata HARDWARE_METADATA_COLUMNS) (snd edit) then
    ret (noops ++ [true], current_sims)
  else
    (old <- lift (getitem_key hardware_prev (fst edit)) ;;
     new <- lift (getitem_key hardware_dict (fst edit)) ;;
     if is_eligible old || is_eligible new then
       let implied := find_implied_hardware new hardware_dict in
       if negb (is_eligible new) then
         cs <- lift (cs <- del_sim (hw_id old) current_sims ;;
                     delete_all implied cs)%res ;;
         ret (noops ++ [false], cs)
       else
         cs <- resimulate_with_implied samples_list_valid new implied
                 current_sims ;;
         ret (noops ++ [false], cs)
     else ret (noops ++ [true], current_sims))%M.

Definition hardware_edited (update_locs : list loc)
    (current_sims : sims_store) : M entropy sims_store :=
  (update_locs_unpacked <- lift (unpack_edits update_locs) ;;
   if forallb (is_metadata HARDWARE_METADATA_COLUMNS)
              (concat (map snd update_locs_unpacked))
   then raise PreventUpdate
   else
     acc <- foldM hardware_edit_step update_locs_unpacked
              ([], current_sims) ;;
     ret (set_noop (forallb (fun b => b) (fst acc)) (snd acc)))%M.

(** Case 1: the hardware changed. *)
Definition hardware_changed (update : deepdiff)
    (current_sims : sims_store) : M entropy sims_store :=
  if diff_is_empty update then raise PreventUpdate
  else
    match values_changed update with
    | Some [ [] ] => batch_import
    | _ =>
        match dictionary_item_added update with
        | Some [added_loc] =>
            hardware_added added_loc (values_changed update) current_sims
        | _ =>
            match dictionary_item_removed update with
            | Some removed => lift (hardware_removed removed current_sims)
            | None =>
                match values_changed update with
                | Some update_locs =>
                    hardware_edited update_locs current_sims
                | None =>
                    raise (Exception
                             "Unsupported update situation encountered")
                end
            end
        end
    end.

(** Case 1.1: samples added or removed. *)
Definition samples_step (update_res : list sample)
    (acc : bool * sims_store) (hw_id_upd : string)
  : M entropy (bool * sims_store) :=
  let current_sims := snd acc in
  (hw <- lift (getitem hardware_dict hw_id_upd) ;;
   let implied := find_implied_hardware hw hardware_dict in
   if is_eligible hw
      && existsb accountable
           (filter (fun s => String.eqb (s_hardware_id s) hw_id_upd)
                   update_res)
   then
     cs <- resimulate_with_implied samples_list_valid hw implied
             current_sims ;;
     ret (false, cs)
   else if dict_in (sims current_sims) (hw_id hw)
           && negb (is_eligible hw)
   then
     cs <- lift (del_sim (hw_id hw) current_sims) ;;
     ret (false, cs)
   else ret acc)%M.

Definition samples_added_or_removed (added removed : option (list sample))
    (current_sims : sims_store) : M entropy sims_store :=
  let update_res :=
    match added with
    | Some a => a
    | None => match removed with Some r => r | None => [] end
    end in
  let updated_hw_ids := unique (map s_hardware_id update_res) in
  if (match added with Some _ => true | None => false end)
     && negb (existsb (fun s => str_in (s_sample_id s) samples_valid)
                      update_res)
  then ret (set_noop true current_sims)
  else
    (acc <- foldM (samples_step update_res) updated_hw_ids
              (true, current_sims) ;;
     ret (set_noop (fst acc) (snd acc)))%M.

(** [samples_list[update_idx]]. *)
Definition sample_at (update_idx : loc_key) : result sample :=
  match update_idx with
  | KInt n => match nth_error samples_list n with
              | Some s => ok s
              | None => throw IndexError
              end
  | KStr _ => throw TypeError
  end.

(** Case 1.2: fields of samples edited. *)
Definition sample_edit_step (acc : list bool * sims_store)
    (edit : loc_key * list loc_key) : M entropy (list bool * sims_store) :=
  let noops := fst acc in
  let current_sims := snd acc in
  if forallb (is_metadata SAMPLE_TABLE_METADATA_COLUMNS) (snd edit) then
    ret (noops ++ [true], current_sims)
  else
    (new <- lift (sample_at (fst edit)) ;;
     let old := find_by_sample_id samples_prev (s_sample_id new) in
     hw <- lift (getitem hardware_dict (s_hardware_id new)) ;;
     let implied := find_implied_hardware hw hardware_dict in
     let ineligible_hw := negb (is_eligible hw) in
     still_invalid <-
       lift (if negb (str_in (s_sample_id new) samples_valid) then
               match old with
               | Some o => ok (negb (str_in (s_sample_id o) samples_valid))
               | None => throw TypeError
               end
             else ok false) ;;
     still_unaccountable <-
       lift (if negb (accountable new) then
               match old with
               | Some o => ok (negb (accountable o))
               | None => throw TypeError
               end
             else ok false) ;;
     if ineligible_hw || still_invalid || still_unaccountable then
       ret (noops ++ [true], current_sims)
     else
       cs <- resimulate_with_implied samples_list hw implied current_sims ;;
       ret (noops ++ [false], cs))%M.

Definition samples_edited (changed : option (list loc))
    (current_sims : sims_store) : M entropy sims_store :=
  (update_locs <- lift match changed with
                       | Some l => ok l
                       | None => throw KeyError
                       end ;;
   update_locs_unpacked <- lift (unpack_edits update_locs) ;;
   if forallb (is_metadata SAMPLE_TABLE_METADATA_COLUMNS)
              (concat (map snd update_locs_unpacked))
   then raise PreventUpdate
   else
     acc <- foldM sample_edit_step update_locs_unpacked
              ([], current_sims) ;;
     ret (set_noop (forallb (fun b => b) (fst acc)) (snd acc)))%M.

(** Case 2: the samples changed. *)
Definition samples_changed (update : deepdiff)
    (current_sims : sims_store) : M entropy sims_store :=
  if diff_is_empty update then raise PreventUpdate
  else
    match iterable_item_added update, iterable_item_removed update with
    | None, None => samples_edited (values_changed update) current_sims
    | added, removed => samples_added_or_removed added removed current_sims
    end.

End Controller.

(** [store_sims_components]; [hardware_triggered] is the test
    ["hardware-diff.data" in ctx.triggered_prop_ids]. *)
Definition store_sims_components (hardware_triggered : bool)
    (hardware_diff samples_diff : deepdiff)
    (hardware_dict : dict hardware) (samples_list : list sample)
    (hardware_prev : dict hardware) (samples_prev : list sample)
    (current_sims : sims_store) : M entropy sims_store :=
  (samples_valid <- lift (identify_valid_samples samples_list hardware_dict) ;;
   if hardware_triggered then
     hardware_changed hardware_dict hardware_prev samples_list samples_valid
       hardware_diff current_sims
   else
     samples_changed hardware_dict samples_list samples_prev samples_valid
       samples_diff current_sims)%M.

(* ---------------------------------------------------------------- *)
(** * One edit event through both callbacks

    Dash keeps the value of an output whose callback raises
    [PreventUpdate] and does not fire the callbacks that listen to it;
    an output that is written fires them. *)

Definition process_event (hardware_triggered : bool)
    (hardware_diff samples_diff : deepdiff)
    (hardware_dict : dict hardware) (samples_list : list sample)
    (hardware_prev : dict hardware) (samples_prev : list sample)
    (st : app_state) : M entropy app_state :=
  fun w =>
    match store_sims_components hardware_triggered hardware_diff
            samples_diff hardware_dict samples_list hardware_prev
            samples_prev (st_sims st) w with
    | inl PreventUpdate => ok (st, w)
    | inl e => inl e
    | inr (current_sims, w') =>
        match store_sims_rollups current_sims hardware_dict samples_list with
        | inl PreventUpdate =>
            ok ({| st_sims := current_sims; st_rollups := st_rollups st |}, w')
        | inl e => inl e
        | inr sims_rollups =>
            ok ({| st_sims := current_sims; st_rollups := sims_rollups |}, w')
        end
    end.

(* ---------------------------------------------------------------- *)
(** * Notions used in the statements *)




(** A changed location that is a metadata field of an element. *)
Definition metadata_edit (columns : list string) (l : loc) : Prop :=
  exists idx attr, l = [idx; KStr attr] /\ str_in attr columns = true.

(** An edit event in which every changed field is a metadata field. *)
Definition metadata_only_event (hardware_triggered : bool)
    (hardware_diff samples_diff : deepdiff) : Prop :=
  if hardware_triggered then
    exists locs,
      values_changed hardware_diff = Some locs
      /\ Forall (metadata_edit HARDWARE_METADATA_COLUMNS) locs
      /\ dictionary_item_added hardware_diff = None
      /\ dictionary_item_removed hardware_diff = None
  else
    exists locs,
      values_changed samples_diff = Some locs
      /\ Forall (metadata_edit SAMPLE_TABLE_METADATA_COLUMNS) locs
      /\ iterable_item_added samples_diff = None
      /\ iterable_item_removed samples_diff = None.

(* ---------------------------------------------------------------- *)
(** * Properties of the statistical update engine *)

Lemma int_valued_IZR (z : Z) : int_valued (IZR z) = true.
Proof.
  unfold int_valued. rewrite ZfloorZ.
  destruct (Req_dec_T (IZR z) (IZR z)); congruence.
Qed.

Lemma special_factorial_count (k : nat) :
  special_factorial (INR k) = INR (fact k).
Proof.
  unfold special_factorial.
  destruct (Rlt_dec (INR k) 0) as [Hneg | _].
  - pose proof (pos_INR k). lra.
  - rewrite INR_IZR_INZ, int_valued_IZR, ZfloorZ, Nat2Z.id. reflexivity.
Qed.

Lemma log_lik_entry_finite (count rate : R) :
  0 < rate ->
  log_lik_entry count rate
  = Fin (count * ln rate - special_factorial count - rate).
Proof.
  intros Hrate. unfold log_lik_entry, flog; simpl.
  destruct (Rlt_dec 0 rate); [ | contradiction ].
  simpl. f_equal.
Qed.

Lemma ln_lt_id (x : R) : 0 < x -> ln x < x.
Proof.
  intros Hx.
  assert (Hexp : x < exp x).
  { pose proof (exp_ineq1 x ltac:(lra)). lra. }
  rewrite <- (ln_exp x) at 2.
  apply ln_increasing; assumption.
Qed.

(** The entry the code computes is never the Poisson log-pmf: it
    subtracts [count!] where the log-pmf subtracts [log(count!)]. *)
Lemma log_lik_entry_not_log_pmf (k : nat) (rate : R) :
  0 < rate ->
  log_lik_entry (INR k) rate
  = Fin (poisson_log_pmf k rate + (ln (INR (fact k)) - INR (fact k)))
  /\ log_lik_entry (INR k) rate <> Fin (poisson_log_pmf k rate).
Proof.
  intros Hrate. rewrite (log_lik_entry_finite _ _ Hrate).
  rewrite special_factorial_count. unfold poisson_log_pmf.
  pose proof (ln_lt_id _ (INR_fact_lt_0 k)) as Hlt.
  split.
  - f_equal. lra.
  - intros Heq. injection Heq as Heq. lra.
Qed.

(** C1.  On one particle and one sample of count [k], with a positive
    rate [lam * exposure * efficiency], [likelihoods] in log mode
    returns [k * log(rate) - k! - rate], which is not the Poisson
    log-pmf [k * log(rate) - log(k!) - rate]. *)
Theorem likelihoods_subtracts_factorial_not_its_log
    (k : nat) (lam e : R) (d : data_row) (w w' : entropy) :
  d_cfu d = INR k ->
  0 < lam * (d_extent d * d_fraction d) * e ->
  rng_beta (d_alpha d) (d_beta d) 1 w = ok ([e], w') ->
  let rate := lam * (d_extent d * d_fraction d) * e in
  likelihoods [lam] [d] true true w
  = ok (Arr1 [Fin (0 + (INR k * ln rate - INR (fact k) - rate))], w')
  /\ 0 + (INR k * ln rate - INR (fact k) - rate) <> poisson_log_pmf k rate.
Proof.
  intros Hk Hrate Hbeta rate.
  split.
  - unfold likelihoods, draw_efficiencies, bind, ret; simpl.
    unfold bind, ret. rewrite Hbeta. simpl.
    rewrite Hk. fold rate.
    rewrite (log_lik_entry_finite _ _ Hrate), special_factorial_count.
    reflexivity.
  - unfold poisson_log_pmf.
    pose proof (ln_lt_id _ (INR_fact_lt_0 k)). lra.
Qed.

(** The rate under the logarithm is the plain product of the particle,
    the exposure of the sample and the efficiency draw. *)
Lemma expected_rates_entries (lambda_samples : list R)
    (data : list data_row) (efficiencies : list (list R))
    (row : list R) (rate : R) :
  In row (expected_rates lambda_samples data efficiencies) ->
  In rate row ->
  exists lam d e,
    In lam lambda_samples /\ In d data
    /\ rate = lam * (d_extent d * d_fraction d) * e.
Proof.
  unfold expected_rates. intros Hrow Hrate.
  apply in_map_iff in Hrow as [[j lam] [<- Hj]].
  apply in_map_iff in Hrate as [[d eff_i] [<- Hd]].
  exists lam, d, (nth j eff_i 0). simpl.
  split; [ eapply in_combine_r; eassumption | ].
  split; [ eapply in_combine_l; eassumption | reflexivity ].
Qed.

Lemma log_lik_matrix_entries (data : list data_row)
    (rates : list (list R)) (row : list npfloat) (x : npfloat) :
  In row (log_lik_matrix data rates) ->
  In x row ->
  exists rates_row d rate,
    In rates_row rates /\ In d data /\ In rate rates_row
    /\ x = log_lik_entry (d_cfu d) rate.
Proof.
  unfold log_lik_matrix. intros Hrow Hx.
  apply in_map_iff in Hrow as [rates_row [<- Hrates]].
  apply in_map_iff in Hx as [[d rate] [<- Hd]].
  exists rates_row, d, rate. simpl.
  repeat split; try assumption.
  - eapply in_combine_l; eassumption.
  - eapply in_combine_r; eassumption.
Qed.

Lemma flog_of_product (lam extent fraction e : R) :
  let rate := lam * (extent * fraction) * e in
  (0 < lam -> 0 < extent -> 0 < fraction -> 0 < e ->
   flog (Fin rate) = Fin (ln rate))
  /\ (lam = 0 \/ extent = 0 \/ fraction = 0 \/ e = 0 ->
      rate = 0 /\ flog (Fin rate) = NInf).
Proof.
  intros rate. split.
  - intros Hl Hx Hf He.
    assert (0 < rate).
    { unfold rate. repeat apply Rmult_lt_0_compat; assumption. }
    simpl. destruct (Rlt_dec 0 rate); [ reflexivity | contradiction ].
  - intros Hzero.
    assert (Hrate : rate = 0).
    { unfold rate. destruct Hzero as [-> | [-> | [-> | ->]]]; ring. }
    split; [ assumption | ].
    simpl. rewrite Hrate.
    destruct (Rlt_dec 0 0); [ lra | ].
    destruct (Req_dec_T 0 0); congruence.
Qed.

Lemma combine_map_combine {A B C} (f : A * B -> C) (l : list A)
    (l' : list B) :
  combine l (map f (combine l l'))
  = map (fun p => (fst p, f p)) (combine l l').
Proof.
  revert l'. induction l as [ | a l IH]; intros [ | b l']; simpl;
    try reflexivity.
  rewrite IH. reflexivity.
Qed.

(** The log-likelihood matrix in closed form: row [j] is particle [j],
    column [i] is sample [i]. *)
Lemma log_lik_matrix_closed_form (lambda_samples : list R)
    (data : list data_row) (efficiencies : list (list R)) :
  log_lik_matrix data (expected_rates lambda_samples data efficiencies)
  = map (fun jl =>
           map (fun de =>
                  log_lik_entry (d_cfu (fst de))
                    (snd jl * (d_extent (fst de) * d_fraction (fst de))
                     * nth (fst jl) (snd de) 0))
               (combine data efficiencies))
        (combine (seq 0 (length lambda_samples)) lambda_samples).
Proof.
  unfold log_lik_matrix, expected_rates.
  rewrite map_map. apply map_ext. intros [j lam]. simpl.
  rewrite combine_map_combine, map_map. reflexivity.
Qed.

(** C10 (amended).  Every entry of the log-likelihood matrix is
    [count * log(rate) - count! - rate] with the logarithm applied to
    the product [lam * exposure * efficiency] as it is: there is no
    guard.  The logarithm is finite when the four factors are
    positive, and is minus infinity as soon as one of them is zero. *)
Theorem likelihoods_log_is_unguarded (lambda_samples : list R)
    (data : list data_row) (efficiencies : list (list R))
    (row : list npfloat) (x : npfloat) :
  In row (log_lik_matrix data
            (expected_rates lambda_samples data efficiencies)) ->
  In x row ->
  exists lam d e,
    In lam lambda_samples /\ In d data
    /\ let rate := lam * (d_extent d * d_fraction d) * e in
       x = fsub (fsub (fmul (Fin (d_cfu d)) (flog (Fin rate)))
                      (Fin (special_factorial (d_cfu d))))
                (Fin rate)
       /\ (0 < lam -> 0 < d_extent d -> 0 < d_fraction d -> 0 < e ->
           flog (Fin rate) = Fin (ln rate))
       /\ (lam = 0 \/ d_extent d = 0 \/ d_fraction d = 0 \/ e = 0 ->
           rate = 0 /\ flog (Fin rate) = NInf).
Proof.
  rewrite log_lik_matrix_closed_form. intros Hrow Hx.
  apply in_map_iff in Hrow as [[j lam] [<- Hj]].
  apply in_map_iff in Hx as [[d eff_i] [<- Hd]].
  exists lam, d, (nth j eff_i 0). simpl.
  split; [ eapply in_combine_r; eassumption | ].
  split; [ eapply in_combine_l; eassumption | ].
  split; [ reflexivity | ].
  apply flog_of_product.
Qed.


Lemma rmap_Forall2 {A B} (f : A -> result B) (l : list A) (l' : list B) :
  rmap f l = ok l' -> Forall2 (fun a b => f a = ok b) l l'.
Proof.
  revert l'. induction l as [ | a l IH]; simpl; intros l' H.
  - injection H as <-. constructor.
  - destruct (f a) as [e | b] eqn:Hfa; simpl in H; [ discriminate | ].
    destruct (rmap f l) as [e | bs]; simpl in H; [ discriminate | ].
    injection H as <-. constructor; [ assumption | apply IH; reflexivity ].
Qed.



Lemma bind_ok {A B} (c : M entropy A) (k : A -> M entropy B)
    (w w' : entropy) (a : A) :
  c w = ok (a, w') -> bind c k w = k a w'.
Proof. unfold bind. intros ->. reflexivity. Qed.

Lemma lift_ok {A} (r : result A) (a : A) (w : entropy) :
  r = ok a -> lift r w = ok (a, w).
Proof. intros ->. reflexivity. Qed.

Ltac step H := erewrite bind_ok; [ | exact H ].
Ltac step_lift H := erewrite bind_ok; [ | apply lift_ok; exact H ].

Lemma sim_cfu_vector (v : list R) (exposure : R) (counts : list Z)
    (w w' : entropy) :
  rng_poisson (map (fun x => x * exposure) v) w = ok (counts, w') ->
  sim_cfu (Vector v) exposure w = ok (Vector (map IZR counts), w').
Proof. intros H. unfold sim_cfu. step H. reflexivity. Qed.



(** The scale handed to the Gamma sampler is the inverse of a positive
    rate. *)
Lemma gamma_scale_of_positive_rate (rate : R) :
  0 < rate -> fdiv (Fin 1) (Fin rate) = Fin (1 / rate).
Proof.
  intros Hrate. simpl.
  destruct (Req_dec_T rate 0); [ lra | reflexivity ].
Qed.







(* ---------------------------------------------------------------- *)
(** * Properties of the incremental recomputation *)

Section MetadataEdits.

Variable columns : list string.

Let all_metadata (edit : loc_key * list loc_key) : Prop :=
  forallb (is_metadata columns) (snd edit) = true.

Lemma edits_add_metadata (acc : list (loc_key * list loc_key))
    (idx attr : loc_key) :
  Forall all_metadata acc ->
  is_metadata columns attr = true ->
  Forall all_metadata (edits_add acc idx attr).
Proof.
  intros Hacc Hattr.
  induction Hacc as [ | [i attrs] acc Hi Htail IH]; simpl.
  - constructor; [ | constructor ].
    unfold all_metadata. simpl. rewrite Hattr. reflexivity.
  - destruct (loc_key_eqb i idx).
    + constructor; [ | assumption ].
      unfold all_metadata in *. simpl in *.
      rewrite forallb_app, Hi. simpl. rewrite Hattr. reflexivity.
    + constructor; assumption.
Qed.

Lemma unpack_edits_from (locs : list loc)
    (acc : list (loc_key * list loc_key)) :
  Forall (metadata_edit columns) locs ->
  Forall all_metadata acc ->
  exists edits,
    fold_left (fun a val => (a' <- a ;; reduce_deefdiff_edits a' val)%res)
              locs (ok acc) = ok edits
    /\ Forall all_metadata edits.
Proof.
  intros Hlocs. revert acc.
  induction Hlocs as [ | l locs (idx & attr & -> & Hattr) _ IH];
    intros acc Hacc; simpl.
  - exists acc. split; [ reflexivity | assumption ].
  - apply IH. apply edits_add_metadata; assumption.
Qed.

Lemma all_metadata_concat (edits : list (loc_key * list loc_key)) :
  Forall all_metadata edits ->
  forallb (is_metadata columns) (concat (map snd edits)) = true.
Proof.
  induction 1 as [ | edit edits Hedit _ IH]; simpl; [ reflexivity | ].
  rewrite forallb_app, Hedit, IH. reflexivity.
Qed.

Lemma unpack_edits_metadata (locs : list loc) :
  Forall (metadata_edit columns) locs ->
  exists edits,
    unpack_edits locs = ok edits
    /\ forallb (is_metadata columns) (concat (map snd edits)) = true.
Proof.
  intros Hlocs.
  destruct (unpack_edits_from locs [] Hlocs (Forall_nil _))
    as (edits & Hfold & Hall).
  exists edits. split; [ exact Hfold | ].
  apply all_metadata_concat; assumption.
Qed.

End MetadataEdits.

Lemma hardware_edited_metadata (hardware_dict hardware_prev : dict hardware)
    (samples_list : list sample) (samples_valid : list string)
    (locs : list loc) (current_sims : sims_store) (w : entropy) :
  Forall (metadata_edit HARDWARE_METADATA_COLUMNS) locs ->
  hardware_edited hardware_dict hardware_prev samples_list samples_valid
    locs current_sims w = inl PreventUpdate.
Proof.
  intros Hlocs. unfold hardware_edited.
  destruct (unpack_edits_metadata _ _ Hlocs) as (edits & Hedits & Hall).
  step_lift Hedits. rewrite Hall. reflexivity.
Qed.

Lemma samples_edited_metadata (hardware_dict : dict hardware)
    (samples_list samples_prev : list sample) (samples_valid : list string)
    (locs : list loc) (current_sims : sims_store) (w : entropy) :
  Forall (metadata_edit SAMPLE_TABLE_METADATA_COLUMNS) locs ->
  samples_edited hardware_dict samples_list samples_prev samples_valid
    (Some locs) current_sims w = inl PreventUpdate.
Proof.
  intros Hlocs. unfold samples_edited.
  destruct (unpack_edits_metadata _ _ Hlocs) as (edits & Hedits & Hall).
  erewrite bind_ok; [ | apply lift_ok; reflexivity ].
  step_lift Hedits. rewrite Hall. reflexivity.
Qed.

Lemma metadata_only_event_prevented (hardware_triggered : bool)
    (hardware_diff samples_diff : deepdiff)
    (hardware_dict : dict hardware) (samples_list : list sample)
    (hardware_prev : dict hardware) (samples_prev : list sample)
    (current_sims : sims_store) (samples_valid : list string)
    (w : entropy) :
  identify_valid_samples samples_list hardware_dict = ok samples_valid ->
  metadata_only_event hardware_triggered hardware_diff samples_diff ->
  store_sims_components hardware_triggered hardware_diff samples_diff
    hardware_dict samples_list hardware_prev samples_prev current_sims w
  = inl PreventUpdate.
Proof.
  intros Hvalid Hevent. unfold store_sims_components.
  step_lift Hvalid.
  destruct hardware_triggered; simpl in Hevent;
    destruct Hevent as (locs & Hchanged & Hlocs & Hadded & Hremoved).
  - unfold hardware_changed, diff_is_empty.
    rewrite Hchanged, Hadded, Hremoved.
    destruct locs as [ | l locs'].
    + apply hardware_edited_metadata; assumption.
    + assert (Hl : exists idx attr, l = [idx; attr]).
      { inversion Hlocs as [ | ? ? (idx & attr & -> & _) _ ]; subst.
        eauto. }
      destruct Hl as (idx & attr & ->).
      apply hardware_edited_metadata; assumption.
  - unfold samples_changed, diff_is_empty.
    rewrite Hchanged, Hadded, Hremoved.
    destruct (dictionary_item_added samples_diff),
             (dictionary_item_removed samples_diff);
      apply samples_edited_metadata; assumption.
Qed.

(** C6 (amended).  An edit event, of the hardware or of the samples, in
    which every changed field is a metadata field makes
    [store_sims_components] raise [PreventUpdate]: the simulation store
    and the rollup aggregate keep their values, the no-op flag keeps the
    value it had, and the rollup callback is not run. *)
Theorem metadata_only_event_changes_nothing (hardware_triggered : bool)
    (hardware_diff samples_diff : deepdiff)
    (hardware_dict : dict hardware) (samples_list : list sample)
    (hardware_prev : dict hardware) (samples_prev : list sample)
    (samples_valid : list string) (st : app_state) (w : entropy) :
  identify_valid_samples samples_list hardware_dict = ok samples_valid ->
  metadata_only_event hardware_triggered hardware_diff samples_diff ->
  store_sims_components hardware_triggered hardware_diff samples_diff
    hardware_dict samples_list hardware_prev samples_prev (st_sims st) w
  = inl PreventUpdate
  /\ process_event hardware_triggered hardware_diff samples_diff
       hardware_dict samples_list hardware_prev samples_prev st w
     = ok (st, w).
Proof.
  intros Hvalid Hevent.
  assert (Hprevented :
            store_sims_components hardware_triggered hardware_diff
              samples_diff hardware_dict samples_list hardware_prev
              samples_prev (st_sims st) w = inl PreventUpdate)
    by (eapply metadata_only_event_prevented; eassumption).
  split; [ exact Hprevented | ].
  unfold process_event. rewrite Hprevented. reflexivity.
Qed.

End Engine.

(* ------------------------------------------------------------------ *)
(** * Properties of the rollup aggregation *)

Lemma fold_left_Rplus (l : list R) (a : R) :
  fold_left Rplus l a = a + Rsum l.
Proof.
  unfold Rsum. revert a. induction l as [ | x l IH]; intros a; simpl.
  - lra.
  - rewrite IH, (IH (0 + x)). lra.
Qed.

Lemma Rsum_cons (x : R) (l : list R) : Rsum (x :: l) = x + Rsum l.
Proof. unfold Rsum at 1. simpl. rewrite fold_left_Rplus. lra. Qed.

Lemma Rsum_nil : Rsum [] = 0.
Proof. reflexivity. Qed.

Lemma round_half_even_IZR (z : Z) : round_half_even (IZR z) = z.
Proof.
  unfold round_half_even. rewrite ZfloorZ.
  destruct (Rlt_dec (IZR z - IZR z) (1 / 2)); [ reflexivity | lra ].
Qed.

(** Rounding to six decimals leaves an integer as it is. *)
Lemma round6_IZR (z : Z) : round6 (IZR z) = IZR z.
Proof.
  unfold round6.
  replace (IZR z * 1000000) with (IZR (z * 1000000)) by (rewrite mult_IZR; reflexivity).
  rewrite round_half_even_IZR, mult_IZR. field.
Qed.

Lemma to_R_num_add (a b : number) : to_R (num_add a b) = to_R a + to_R b.
Proof. destruct a, b; simpl; try reflexivity. apply plus_IZR. Qed.

Lemma to_R_num_mul (a b : number) : to_R (num_mul a b) = to_R a * to_R b.
Proof. destruct a, b; simpl; try reflexivity. apply mult_IZR. Qed.

Lemma pyval_R_of_number (n : number) : pyval_R (of_number n) = to_R n.
Proof. destruct n; reflexivity. Qed.

Lemma pyval_R_round6 (n : number) :
  pyval_R (of_number (py_round6 n)) = round6 (to_R n).
Proof. destruct n; simpl; [ symmetry; apply round6_IZR | reflexivity ]. Qed.

Lemma as_number_of_number (n : number) : as_number (of_number n) = ok n.
Proof. destruct n; reflexivity. Qed.

Lemma as_number_ok (v : pyval) (n : number) :
  as_number v = ok n -> v = of_number n.
Proof. destruct v; simpl; intros H; inversion H; reflexivity. Qed.

Lemma nonzero_to_R (n : number) :
  (nonzero n = true -> to_R n <> 0) /\ (nonzero n = false -> to_R n = 0).
Proof.
  destruct n as [z | r]; simpl.
  - destruct (Z.eqb_spec z 0) as [-> | Hz]; simpl; split; intros H;
      try discriminate; try reflexivity.
    intros Heq. apply Hz. apply eq_IZR. exact Heq.
  - destruct (Req_dec_T r 0); split; intros H; try discriminate; assumption.
Qed.

Lemma nth_map_in_range {A} (f : A -> R) (v : list A) (d : A) (k : nat) :
  (k < length v)%nat -> nth k (map f v) 0 = f (nth k v d).
Proof.
  intros Hk. rewrite (nth_indep _ 0 (f d)) by (rewrite length_map; exact Hk).
  apply map_nth.
Qed.

Lemma zip_add_length (u v : list R) :
  length u = length v -> length (zip_add u v) = length u.
Proof.
  revert v. induction u as [ | a u IH]; intros [ | b v]; simpl; intros H;
    try reflexivity; try discriminate.
  f_equal. apply IH. lia.
Qed.

Lemma zip_add_nth (u v : list R) (k : nat) :
  length u = length v ->
  nth k (zip_add u v) 0 = nth k u 0 + nth k v 0.
Proof.
  revert v k. induction u as [ | a u IH]; intros [ | b v] k; simpl; intros H;
    try discriminate.
  - destruct k; lra.
  - destruct k; [ reflexivity | ]. apply IH. lia.
Qed.

Lemma scale_spec (n : nat) (t : number) (x : num) :
  num_shaped n x ->
  num_shaped n (scale t x)
  /\ forall k, (k < n)%nat -> num_at (scale t x) k = to_R t * num_at x k.
Proof.
  destruct x as [m | i v]; simpl; intros Hx.
  - split; [ exact I | ]. intros k _. apply to_R_num_mul.
  - split; [ rewrite length_map; exact Hx | ].
    intros k Hk. apply (nth_map_in_range (fun e => to_R t * e) v 0). lia.
Qed.

Lemma iadd_spec (n : nat) (acc x y : num) :
  iadd acc x = ok y ->
  num_shaped n acc -> num_shaped n x ->
  num_shaped n y
  /\ forall k, (k < n)%nat -> num_at y k = num_at acc k + num_at x k.
Proof.
  destruct acc as [a | i u], x as [b | j v]; simpl; intros H Hacc Hx.
  - injection H as <-. split; [ exact I | ]. intros k _. apply to_R_num_add.
  - injection H as <-. simpl. split; [ rewrite length_map; exact Hx | ].
    intros k Hk. apply (nth_map_in_range (fun e => to_R a + e) v 0). lia.
  - destruct (i && negb (is_int b)); [ discriminate | ].
    injection H as <-. simpl. split; [ rewrite length_map; exact Hacc | ].
    intros k Hk. apply (nth_map_in_range (fun e => e + to_R b) u 0). lia.
  - destruct (i && negb j); [ discriminate | ].
    assert (Hlen : length u = length v) by lia.
    apply Nat.eqb_eq in Hlen as Heqb. rewrite Heqb in H.
    injection H as <-. simpl.
    split; [ rewrite zip_add_length; assumption | ].
    intros k _. apply zip_add_nth. exact Hlen.
Qed.

Lemma idiv_spec (n : nat) (acc y : num) (t : number) :
  idiv acc t = ok y ->
  num_shaped n acc ->
  num_shaped n y
  /\ forall k, (k < n)%nat -> num_at y k = num_at acc k / to_R t.
Proof.
  destruct acc as [a | i u]; simpl; intros H Hacc.
  - injection H as <-. split; [ exact I | ]. intros k _. reflexivity.
  - destruct i; [ discriminate | ]. injection H as <-. simpl.
    split; [ rewrite length_map; exact Hacc | ].
    intros k Hk. apply (nth_map_in_range (fun e => e / to_R t) u 0). lia.
Qed.

Lemma accumulate_spec (n : nat) (acc acc' : accum) (res : rollup_res) :
  accumulate acc res = ok acc' ->
  shaped n res -> acc_shaped n acc ->
  accumulated n acc [res] acc'.
Proof.
  unfold accumulate, py_iadd.
  intros H (Hlam & Hcfu) (Hal & Hac).
  destruct (as_number (r_total res)) as [ | t] eqn:Ht; simpl in H;
    [ discriminate | ].
  destruct (as_number (r_sampled res)) as [ | s] eqn:Hs; simpl in H;
    [ discriminate | ].
  apply as_number_ok in Ht, Hs.
  destruct (iadd (a_lambda acc) (scale t (r_lambda res))) as [ | lam] eqn:Hl;
    simpl in H; [ discriminate | ].
  destruct (iadd (a_cfu acc) (r_cfu res)) as [ | cfu] eqn:Hc;
    simpl in H; [ discriminate | ].
  injection H as <-.
  destruct (scale_spec n t _ Hlam) as (Hsl & Hsv).
  destruct (iadd_spec n _ _ _ Hl Hal Hsl) as (Hl1 & Hl2).
  destruct (iadd_spec n _ _ _ Hc Hac Hcfu) as (Hc1 & Hc2).
  unfold accumulated, acc_shaped. simpl.
  rewrite Ht, Hs, !pyval_R_of_number, !to_R_num_add.
  repeat split; try assumption.
  - rewrite Rsum_cons, Rsum_nil. lra.
  - rewrite Rsum_cons, Rsum_nil. lra.
  - rewrite Hc2 by assumption. rewrite Rsum_cons, Rsum_nil. lra.
  - rewrite Hl2, Hsv by assumption. rewrite Rsum_cons, Rsum_nil. lra.
Qed.

Lemma accumulated_refl (n : nat) (acc : accum) :
  acc_shaped n acc -> accumulated n acc [] acc.
Proof.
  intros Hacc. unfold accumulated. simpl. rewrite Rsum_nil.
  repeat split; try apply Hacc; lra.
Qed.

Lemma accumulated_cons (n : nat) (acc acc1 acc2 : accum) (r : rollup_res)
    (rs : list rollup_res) :
  accumulated n acc [r] acc1 -> accumulated n acc1 rs acc2 ->
  accumulated n acc (r :: rs) acc2.
Proof.
  unfold accumulated. simpl.
  intros (_ & Ht1 & Hs1 & Hk1) (Hshape & Ht2 & Hs2 & Hk2).
  rewrite !Rsum_cons, !Rsum_nil in *.
  repeat split; try apply Hshape; try lra.
  - destruct (Hk1 k H) as (Hc1 & _). destruct (Hk2 k H) as (Hc2 & _).
    rewrite Rsum_cons, Rsum_nil in Hc1. rewrite Rsum_cons. lra.
  - destruct (Hk1 k H) as (_ & Hl1). destruct (Hk2 k H) as (_ & Hl2).
    rewrite Rsum_cons, Rsum_nil in Hl1. rewrite Rsum_cons. lra.
Qed.

Lemma reduce_loop_spec (n : nat) (cs : list (rollup_res * rollup_res)) :
  forall area volume area' volume',
    reduce_loop area volume cs = ok (area', volume') ->
    Forall (fun c => shaped n (fst c) /\ shaped n (snd c)) cs ->
    acc_shaped n area -> acc_shaped n volume ->
    accumulated n area (map fst cs) area'
    /\ accumulated n volume (map snd cs) volume'.
Proof.
  induction cs as [ | c cs IH]; simpl; intros area volume area' volume' H Hcs Ha Hv.
  - injection H as <- <-. split; apply accumulated_refl; assumption.
  - inversion Hcs as [ | ? ? (Hc1 & Hc2) Hrest ]; subst.
    destruct (accumulate area (fst c)) as [ | area1] eqn:Harea; simpl in H;
      [ discriminate | ].
    destruct (accumulate volume (snd c)) as [ | volume1] eqn:Hvolume;
      simpl in H; [ discriminate | ].
    pose proof (accumulate_spec n _ _ _ Harea Hc1 Ha) as Ha1.
    pose proof (accumulate_spec n _ _ _ Hvolume Hc2 Hv) as Hv1.
    destruct (IH _ _ _ _ H Hrest (proj1 Ha1) (proj1 Hv1)) as (Ha2 & Hv2).
    split; eapply accumulated_cons; eassumption.
Qed.

Lemma finish_spec (n : nat) (rs : list rollup_res) (acc : accum)
    (r : rollup_res) :
  finish acc = ok r ->
  accumulated n accum0 rs acc ->
  combined n rs r.
Proof.
  unfold finish. intros H (Hshape & Ht & Hs & Hk).
  simpl in Ht, Hs. rewrite Rplus_0_l in Ht, Hs.
  destruct Hshape as (Hlam & Hcfu).
  destruct (nonzero_to_R (a_total acc)) as (Hnz & Hz).
  destruct (nonzero (a_total acc)) eqn:Hnonzero.
  - destruct (idiv (a_lambda acc) (a_total acc)) as [ | lam] eqn:Hdiv;
      simpl in H; [ discriminate | ].
    injection H as <-. destruct (idiv_spec n _ _ _ Hdiv Hlam) as (_ & Hdivk).
    unfold combined. simpl. rewrite !pyval_R_round6, Ht, Hs.
    repeat split.
    + destruct (Hk k H) as (Hc & _). simpl in Hc. lra.
    + intros _. rewrite Hdivk by assumption.
      destruct (Hk k H) as (_ & Hl). simpl in Hl. rewrite Hl, Ht. f_equal. lra.
    + intros Hzero. rewrite <- Ht in Hzero. exfalso. apply Hnz; auto.
  - simpl in H. injection H as <-.
    unfold combined. simpl. rewrite !pyval_R_round6, Ht, Hs.
    repeat split.
    + destruct (Hk k H) as (Hc & _). simpl in Hc. lra.
    + intros Hne. rewrite <- Ht in Hne. exfalso. apply Hne. auto.
    + intros _. destruct (Hk k H) as (_ & Hl). simpl in Hl. lra.
Qed.

Lemma accum0_shaped (n : nat) : acc_shaped n accum0.
Proof. split; exact I. Qed.

(** What [reduce_child_results] returns, when it returns. *)
Lemma reduce_child_results_spec (n : nat)
    (cs : list (rollup_res * rollup_res)) (area volume : rollup_res) :
  reduce_child_results cs = ok (area, volume) ->
  Forall (fun c => shaped n (fst c) /\ shaped n (snd c)) cs ->
  combined n (map fst cs) area /\ combined n (map snd cs) volume.
Proof.
  unfold reduce_child_results. intros H Hcs.
  destruct (reduce_loop accum0 accum0 cs) as [ | [a v]] eqn:Hloop;
    simpl in H; [ discriminate | ].
  destruct (finish a) as [ | ra] eqn:Hfa; simpl in H; [ discriminate | ].
  destruct (finish v) as [ | rv] eqn:Hfv; simpl in H; [ discriminate | ].
  injection H as <- <-.
  destruct (reduce_loop_spec n _ _ _ _ _ Hloop Hcs (accum0_shaped n) (accum0_shaped n))
    as (Ha & Hv).
  split; eapply finish_spec; eassumption.
Qed.

Lemma py_sum_from (l : list pyval) (a n : number) :
  fold_left (fun acc v => (a' <- acc ;; py_iadd a' v)%res) l (ok a) = ok n ->
  to_R n = to_R a + Rsum (map pyval_R l).
Proof.
  revert a. induction l as [ | v l IH]; simpl; intros a H.
  - injection H as <-. rewrite Rsum_nil. lra.
  - unfold py_iadd at 2 in H.
    destruct (as_number v) as [ e | m ] eqn:Hv; simpl in H.
    + exfalso. clear -H. induction l as [ | v' l IH]; simpl in H;
        [ discriminate | auto ].
    + apply IH in H. rewrite H, to_R_num_add, Rsum_cons.
      apply as_number_ok in Hv. rewrite Hv, pyval_R_of_number. lra.
Qed.

Lemma py_sum_spec (l : list pyval) (n : number) :
  py_sum l = ok n -> to_R n = Rsum (map pyval_R l).
Proof. intros H. apply py_sum_from in H. simpl in H. lra. Qed.

(** The extents of the accumulators, whatever the draws. *)
Lemma accumulate_totals (acc acc' : accum) (res : rollup_res) :
  accumulate acc res = ok acc' ->
  to_R (a_total acc') = to_R (a_total acc) + pyval_R (r_total res)
  /\ to_R (a_sampled acc') = to_R (a_sampled acc) + pyval_R (r_sampled res).
Proof.
  unfold accumulate, py_iadd. intros H.
  destruct (as_number (r_total res)) as [ | t] eqn:Ht; simpl in H;
    [ discriminate | ].
  destruct (as_number (r_sampled res)) as [ | s] eqn:Hs; simpl in H;
    [ discriminate | ].
  destruct (iadd (a_lambda acc) (scale t (r_lambda res))); simpl in H;
    [ discriminate | ].
  destruct (iadd (a_cfu acc) (r_cfu res)); simpl in H; [ discriminate | ].
  injection H as <-. simpl.
  apply as_number_ok in Ht, Hs.
  rewrite Ht, Hs, !pyval_R_of_number, !to_R_num_add. split; reflexivity.
Qed.

Lemma reduce_loop_totals (cs : list (rollup_res * rollup_res)) :
  forall area volume area' volume',
    reduce_loop area volume cs = ok (area', volume') ->
    (to_R (a_total area')
     = to_R (a_total area) + Rsum (map (fun c => pyval_R (r_total (fst c))) cs)
     /\ to_R (a_sampled area')
        = to_R (a_sampled area)
          + Rsum (map (fun c => pyval_R (r_sampled (fst c))) cs))
    /\ (to_R (a_total volume')
        = to_R (a_total volume)
          + Rsum (map (fun c => pyval_R (r_total (snd c))) cs)
        /\ to_R (a_sampled volume')
           = to_R (a_sampled volume)
             + Rsum (map (fun c => pyval_R (r_sampled (snd c))) cs)).
Proof.
  induction cs as [ | c cs IH]; simpl; intros area volume area' volume' H.
  - injection H as <- <-. rewrite Rsum_nil. repeat split; lra.
  - destruct (accumulate area (fst c)) as [ | area1] eqn:Harea; simpl in H;
      [ discriminate | ].
    destruct (accumulate volume (snd c)) as [ | volume1] eqn:Hvolume;
      simpl in H; [ discriminate | ].
    destruct (accumulate_totals _ _ _ Harea) as (Ha1 & Ha2).
    destruct (accumulate_totals _ _ _ Hvolume) as (Hv1 & Hv2).
    destruct (IH _ _ _ _ H) as ((Ha3 & Ha4) & (Hv3 & Hv4)).
    rewrite !Rsum_cons. repeat split; lra.
Qed.

Lemma finish_totals (acc : accum) (r : rollup_res) :
  finish acc = ok r ->
  pyval_R (r_total r) = round6 (to_R (a_total acc))
  /\ pyval_R (r_sampled r) = round6 (to_R (a_sampled acc)).
Proof.
  unfold finish. intros H.
  destruct (if nonzero (a_total acc) then idiv (a_lambda acc) (a_total acc)
            else ok (a_lambda acc)); simpl in H; [ discriminate | ].
  injection H as <-. simpl. rewrite !pyval_R_round6. split; reflexivity.
Qed.

(** The extents of an aggregate are the rounded sums of the extents of
    the contributions. *)
Lemma reduce_child_results_totals (cs : list (rollup_res * rollup_res))
    (r : rollup_res * rollup_res) (area : bool) :
  reduce_child_results cs = ok r ->
  pyval_R (r_total (dimension area r))
  = round6 (Rsum (map (fun c => pyval_R (r_total (dimension area c))) cs))
  /\ pyval_R (r_sampled (dimension area r))
     = round6 (Rsum (map (fun c => pyval_R (r_sampled (dimension area c))) cs)).
Proof.
  unfold reduce_child_results. intros H.
  destruct (reduce_loop accum0 accum0 cs) as [ | [a v]] eqn:Hloop;
    simpl in H; [ discriminate | ].
  destruct (finish a) as [ | ra] eqn:Hfa; simpl in H; [ discriminate | ].
  destruct (finish v) as [ | rv] eqn:Hfv; simpl in H; [ discriminate | ].
  injection H as <-.
  destruct (reduce_loop_totals _ _ _ _ _ Hloop) as ((Ha1 & Ha2) & (Hv1 & Hv2)).
  simpl in Ha1, Ha2, Hv1, Hv2. rewrite Rplus_0_l in Ha1, Ha2, Hv1, Hv2.
  destruct (finish_totals _ _ Hfa) as (Hfa1 & Hfa2).
  destruct (finish_totals _ _ Hfv) as (Hfv1 & Hfv2).
  destruct area; simpl.
  - rewrite Hfa1, Hfa2, Ha1, Ha2. split; reflexivity.
  - rewrite Hfv1, Hfv2, Hv1, Hv2. split; reflexivity.
Qed.

Lemma finish_shaped (n : nat) (acc : accum) (r : rollup_res) :
  finish acc = ok r -> acc_shaped n acc -> shaped n r.
Proof.
  unfold finish. intros H (Hlam & Hcfu).
  destruct (nonzero (a_total acc)).
  - destruct (idiv (a_lambda acc) (a_total acc)) as [ | lam] eqn:Hdiv;
      simpl in H; [ discriminate | ].
    injection H as <-. split; simpl; [ | exact Hcfu ].
    apply (idiv_spec n _ _ _ Hdiv Hlam).
  - simpl in H. injection H as <-. split; assumption.
Qed.

Lemma reduce_child_results_shaped (n : nat)
    (cs : list (rollup_res * rollup_res)) (r : rollup_res * rollup_res) :
  reduce_child_results cs = ok r ->
  Forall (fun c => shaped n (fst c) /\ shaped n (snd c)) cs ->
  shaped n (fst r) /\ shaped n (snd r).
Proof.
  unfold reduce_child_results. intros H Hcs.
  destruct (reduce_loop accum0 accum0 cs) as [ | [a v]] eqn:Hloop;
    simpl in H; [ discriminate | ].
  destruct (finish a) as [ | ra] eqn:Hfa; simpl in H; [ discriminate | ].
  destruct (finish v) as [ | rv] eqn:Hfv; simpl in H; [ discriminate | ].
  injection H as <-.
  destruct (reduce_loop_spec n _ _ _ _ _ Hloop Hcs (accum0_shaped n)
              (accum0_shaped n)) as ((Ha & _) & (Hv & _)).
  split; eapply finish_shaped; eassumption.
Qed.

Lemma Forall2_map_eq {A B C} (rel : A -> B -> Prop) (f : B -> C)
    (g : A -> C) (l : list A) (l' : list B) :
  Forall2 rel l l' ->
  (forall a b, In a l -> rel a b -> f b = g a) ->
  map f l' = map g l.
Proof.
  induction 1 as [ | a b l l' Hab _ IH]; simpl; intros H; [ reflexivity | ].
  rewrite (H a b) by (auto; left; reflexivity).
  rewrite IH by (intros; apply H; auto; right; assumption).
  reflexivity.
Qed.

(* ------------------------------------------------------------------ *)
(** * The aggregates of the hierarchy *)

Lemma dict_get_set_same {V} (d : dict V) (k : string) (v : V) :
  dict_get (dict_set d k v) k = Some v.
Proof.
  induction d as [ | [k' v'] d IH]; simpl.
  - rewrite String.eqb_refl. reflexivity.
  - destruct (String.eqb k' k) eqn:Hk; simpl.
    + rewrite String.eqb_refl. reflexivity.
    + rewrite Hk. exact IH.
Qed.

Lemma dict_get_set_other {V} (d : dict V) (k k' : string) (v : V) :
  k <> k' -> dict_get (dict_set d k v) k' = dict_get d k'.
Proof.
  intros Hne. induction d as [ | [k0 v0] d IH]; simpl.
  - destruct (String.eqb_spec k k'); [ contradiction | reflexivity ].
  - destruct (String.eqb_spec k0 k) as [-> | Hk0]; simpl.
    + destruct (String.eqb_spec k k'); [ contradiction | reflexivity ].
    + destruct (String.eqb_spec k0 k'); [ reflexivity | exact IH ].
Qed.

Lemma NoDup_map_filter {A B} (f : A -> B) (p : A -> bool) (l : list A) :
  NoDup (map f l) -> NoDup (map f (filter p l)).
Proof.
  induction l as [ | a l IH]; simpl; intros H; [ constructor | ].
  inversion H as [ | ? ? Hnotin Hrest ]; subst.
  destruct (p a); simpl; [ | apply IH; assumption ].
  constructor; [ | apply IH; assumption ].
  intros Hin. apply Hnotin.
  apply in_map_iff in Hin as (x & Hx & Hxin).
  apply filter_In in Hxin as (Hxin & _).
  apply in_map_iff. exists x. split; assumption.
Qed.

Lemma NoDup_map_eq {A B} (f : A -> B) (l : list A) (x y : A) :
  NoDup (map f l) -> In x l -> In y l -> f x = f y -> x = y.
Proof.
  induction l as [ | a l IH]; simpl; intros H Hx Hy Hf; [ contradiction | ].
  inversion H as [ | ? ? Hnotin Hrest ]; subst.
  destruct Hx as [-> | Hx], Hy as [-> | Hy]; try reflexivity.
  - exfalso. apply Hnotin. rewrite Hf. apply in_map. assumption.
  - exfalso. apply Hnotin. rewrite <- Hf. apply in_map. assumption.
  - apply IH; assumption.
Qed.

Section Hierarchy.

Variable sims_in : sims_store.
Variable hardware_dict : dict hardware.
Variable samples_list : list sample.
Variable samples_valid : list string.

Let aggregates := dict (rollup_res * rollup_res).
Let handle := handle_child sims_in hardware_dict samples_list samples_valid.
Let rollup := rollup_of sims_in hardware_dict samples_list samples_valid.

(** The contribution of a child depends on the aggregates only through
    the entry of the child, when it is a rollup. *)
Lemma handle_child_ext (agg agg' : aggregates) (child : hardware) :
  (hw_is_component child = false ->
   dict_get agg (hw_id child) = dict_get agg' (hw_id child)) ->
  handle agg child = handle agg' child.
Proof.
  unfold handle, handle_child. intros H.
  destruct (hw_is_component child); [ reflexivity | ].
  unfold getitem. rewrite H; reflexivity.
Qed.

Lemma rmap_ext_in {A B} (f g : A -> result B) (l : list A) :
  (forall a, In a l -> f a = g a) -> rmap f l = rmap g l.
Proof.
  induction l as [ | a l IH]; simpl; intros H; [ reflexivity | ].
  rewrite (H a) by (left; reflexivity).
  rewrite IH by (intros; apply H; right; assumption).
  reflexivity.
Qed.

Lemma rollup_of_ext (agg agg' : aggregates) (is_child : hardware -> bool) :
  (forall child,
      In child (values hardware_dict) -> is_child child = true ->
      hw_is_component child = false ->
      dict_get agg (hw_id child) = dict_get agg' (hw_id child)) ->
  rollup agg is_child = rollup agg' is_child.
Proof.
  intros H. unfold rollup, rollup_of.
  rewrite (rmap_ext_in (handle_child sims_in hardware_dict samples_list
                          samples_valid agg)
                       (handle_child sims_in hardware_dict samples_list
                          samples_valid agg')); [ reflexivity | ].
  intros child Hin. apply filter_In in Hin as (Hin & Hchild).
  apply handle_child_ext. intros Hrollup. apply H; assumption.
Qed.

(** One level: every element of the level gets the aggregate of its
    children, computed on aggregates that differ from the initial ones
    on the elements of the level only. *)
Lemma rollup_elems_loop_spec (elems : list hardware) :
  forall agg agg' : aggregates,
    rollup_elems_loop sims_in hardware_dict samples_list samples_valid
      elems agg = ok agg' ->
    NoDup (map hw_id elems) ->
    (forall k, ~ In k (map hw_id elems) -> dict_get agg' k = dict_get agg k)
    /\ (forall e,
           In e elems ->
           exists r agg_t,
             dict_get agg' (hw_id e) = Some r
             /\ rollup agg_t (children_of e) = ok r
             /\ (forall k, ~ In k (map hw_id elems) ->
                           dict_get agg_t k = dict_get agg k)).
Proof.
  induction elems as [ | e elems IH]; simpl; intros agg agg' H Hnodup.
  - injection H as <-. split; [ reflexivity | contradiction ].
  - inversion Hnodup as [ | ? ? Hnotin Hrest ]; subst.
    fold (children_of e) in H.
    destruct (rollup_of sims_in hardware_dict samples_list samples_valid agg
                (children_of e)) as [ | r] eqn:Hr; simpl in H;
      [ discriminate | ].
    destruct (IH _ _ H Hrest) as (Hother & Hdone).
    split.
    + intros k Hk. rewrite Hother by tauto.
      apply dict_get_set_other. tauto.
    + intros e' [<- | Hin].
      * exists r, agg. split; [ | split ].
        -- rewrite Hother by assumption. apply dict_get_set_same.
        -- exact Hr.
        -- reflexivity.
      * destruct (Hdone e' Hin) as (r' & agg_t & Hget & Hroll & Hagree).
        exists r', agg_t. split; [ exact Hget | split; [ exact Hroll | ] ].
        intros k Hk. rewrite Hagree by tauto.
        apply dict_get_set_other. tauto.
Qed.

Hypothesis Hwf : well_formed_tree hardware_dict.

(** Every rollup on level [m] or deeper has its aggregate, and it is
    the aggregate of its children. *)
Let settled (agg : aggregates) (m : nat) : Prop :=
  forall e,
    In e (values hardware_dict) -> hw_is_component e = false ->
    (m <= hw_level e)%nat ->
    exists r,
      dict_get agg (hw_id e) = Some r /\ rollup agg (children_of e) = ok r.

Let level_elems (level : nat) : list hardware :=
  filter (fun elem => (hw_level elem =? level)%nat
                      && negb (hw_is_component elem))
         (values hardware_dict).

Lemma level_elems_ids (level : nat) (e : hardware) :
  In e (values hardware_dict) ->
  In (hw_id e) (map hw_id (level_elems level)) ->
  hw_level e = level /\ hw_is_component e = false.
Proof.
  intros He Hin. apply in_map_iff in Hin as (e' & Hid & Hin').
  apply filter_In in Hin' as (Hin' & Hlevel).
  assert (e' = e)
    by (apply (NoDup_map_eq hw_id (values hardware_dict));
        auto using wf_ids).
  subst e'. apply andb_true_iff in Hlevel as (Hl & Hc).
  apply Nat.eqb_eq in Hl. apply negb_true_iff in Hc. tauto.
Qed.

Lemma settled_step (agg agg' : aggregates) (level : nat) :
  settled agg (S level) ->
  rollup_elems_loop sims_in hardware_dict samples_list samples_valid
    (level_elems level) agg = ok agg' ->
  settled agg' level.
Proof.
  intros Hsettled Hloop.
  destruct (rollup_elems_loop_spec _ _ _ Hloop
              (NoDup_map_filter _ _ _ (wf_ids _ Hwf))) as (Hother & Hdone).
  assert (Hchildren :
            forall e child,
              In e (values hardware_dict) -> (level <= hw_level e)%nat ->
              In child (values hardware_dict) ->
              children_of e child = true ->
              hw_is_component child = false ->
              ~ In (hw_id child) (map hw_id (level_elems level))).
  { intros e child He Hlevel Hchild Hparent Hrollup Hin.
    destruct (level_elems_ids _ _ Hchild Hin) as (Hl & _).
    pose proof (wf_levels _ Hwf _ _ Hchild He Hparent Hrollup). lia. }
  intros e He Hrollup Hlevel.
  destruct (Nat.eq_dec (hw_level e) level) as [Heq | Hne].
  - assert (Hin : In e (level_elems level)).
    { apply filter_In. split; [ assumption | ].
      rewrite Heq, Nat.eqb_refl, Hrollup. reflexivity. }
    destruct (Hdone e Hin) as (r & agg_t & Hget & Hroll & Hagree).
    exists r. split; [ exact Hget | ].
    rewrite <- Hroll. apply rollup_of_ext.
    intros child Hchild Hparent Hcr.
    rewrite Hother, Hagree; eauto.
  - destruct (Hsettled e He Hrollup ltac:(lia)) as (r & Hget & Hroll).
    exists r. split.
    + rewrite Hother; [ exact Hget | ].
      intros Hin. destruct (level_elems_ids _ _ He Hin). contradiction.
    + rewrite <- Hroll. apply rollup_of_ext.
      intros child Hchild Hparent Hcr. apply Hother. eauto.
Qed.

(** The aggregates of [store_sims_rollups] satisfy the equations of the
    bottom-up computation: the entry of a rollup is the aggregate of
    its children, the entry of the project the aggregate of the roots,
    each taken on the final aggregates. *)
Lemma store_sims_rollups_equations (agg : aggregates) :
  identify_valid_samples samples_list hardware_dict = ok samples_valid ->
  store_sims_rollups sims_in hardware_dict samples_list = ok agg ->
  (forall e,
      In e (values hardware_dict) -> hw_is_component e = false ->
      exists r,
        dict_get agg (hw_id e) = Some r /\ rollup agg (children_of e) = ok r)
  /\ (exists r, dict_get agg PROJECT = Some r /\ rollup agg is_root = ok r).
Proof.
  intros Hvalid H. unfold store_sims_rollups in H.
  rewrite Hvalid in H. simpl in H.
  destruct (noop sims_in); [ discriminate | ].
  fold (level_elems 5) (level_elems 4) (level_elems 3) (level_elems 2) in H.
  destruct (rollup_elems_loop _ _ _ _ (level_elems 5) [])
    as [ | agg5] eqn:H5; simpl in H; [ discriminate | ].
  destruct (rollup_elems_loop _ _ _ _ (level_elems 4) agg5)
    as [ | agg4] eqn:H4; simpl in H; [ discriminate | ].
  destruct (rollup_elems_loop _ _ _ _ (level_elems 3) agg4)
    as [ | agg3] eqn:H3; simpl in H; [ discriminate | ].
  destruct (rollup_elems_loop _ _ _ _ (level_elems 2) agg3)
    as [ | agg2] eqn:H2; simpl in H; [ discriminate | ].
  fold is_root in H.
  destruct (rollup_of sims_in hardware_dict samples_list samples_valid agg2
              is_root) as [ | project] eqn:Hproject; simpl in H;
    [ discriminate | ].
  injection H as <-.
  assert (Hsettled6 : settled [] 6).
  { intros e He Hrollup Hlevel.
    pose proof (wf_rollups _ Hwf _ He Hrollup). lia. }
  pose proof (settled_step _ _ _ Hsettled6 H5) as Hsettled5.
  pose proof (settled_step _ _ _ Hsettled5 H4) as Hsettled4.
  pose proof (settled_step _ _ _ Hsettled4 H3) as Hsettled3.
  pose proof (settled_step _ _ _ Hsettled3 H2) as Hsettled2.
  assert (Hext : forall is_child,
             rollup (dict_set agg2 PROJECT project) is_child
             = rollup agg2 is_child).
  { intros is_child. apply rollup_of_ext. intros child Hchild _ _.
    apply dict_get_set_other. apply not_eq_sym.
    apply (wf_project _ Hwf). assumption. }
  split.
  - intros e He Hrollup.
    destruct (Hsettled2 e He Hrollup) as (r & Hget & Hroll).
    { pose proof (wf_rollups _ Hwf _ He Hrollup). lia. }
    exists r. split.
    + rewrite dict_get_set_other; [ exact Hget | ].
      apply not_eq_sym. apply (wf_project _ Hwf). assumption.
    + rewrite Hext. exact Hroll.
  - exists project. split; [ apply dict_get_set_same | ].
    rewrite Hext. exact Hproject.
Qed.

(** An ineligible component contributes the zero result to both
    dimensions, without an error. *)
Lemma handle_child_ineligible (agg : aggregates) (child hw : hardware) :
  hw_is_component child = true ->
  dict_get hardware_dict (hw_id child) = Some hw ->
  ineligible hw samples_list samples_valid = true ->
  handle agg child = ok (empty_res, empty_res).
Proof.
  intros Hc Hget Hin. unfold handle, handle_child, getitem.
  rewrite Hc, Hget. simpl. rewrite Hin. reflexivity.
Qed.

(** The extents that a child hands to its parent. *)
Lemma handle_child_extents (agg : aggregates) (child : hardware)
    (r : rollup_res * rollup_res) (area : bool) :
  handle agg child = ok r ->
  pyval_R (r_total (dimension area r))
  = contribution_total hardware_dict samples_list samples_valid agg area
      child
  /\ pyval_R (r_sampled (dimension area r))
     = contribution_sampled hardware_dict samples_list samples_valid agg
         area child.
Proof.
  unfold handle, handle_child, contribution_total, contribution_sampled,
    getitem.
  intros H. destruct (hw_is_component child).
  - destruct (dict_get hardware_dict (hw_id child)) as [hw | ];
      simpl in H; [ | discriminate ].
    destruct (ineligible hw samples_list samples_valid).
    { injection H as <-. destruct area; split; reflexivity. }
    unfold exposure_of, area_vol_attr_of.
    destruct (startswith_2 (hw_dim hw)); unfold component_res, getitem in H.
    + destruct (dict_get (sims sims_in) (hw_id child)); simpl in H;
        [ | discriminate ].
      destruct (py_sum _) as [ | sampled] eqn:Hsum; simpl in H;
        [ discriminate | ].
      injection H as <-. apply py_sum_spec in Hsum.
      rewrite map_map in Hsum.
      destruct area; simpl; rewrite ?pyval_R_of_number; split;
        try reflexivity; exact Hsum.
    + destruct (dict_get (sims sims_in) (hw_id child)); simpl in H;
        [ | discriminate ].
      destruct (py_sum _) as [ | sampled] eqn:Hsum; simpl in H;
        [ discriminate | ].
      injection H as <-. apply py_sum_spec in Hsum.
      rewrite map_map in Hsum.
      destruct area; simpl; rewrite ?pyval_R_of_number; split;
        try reflexivity; exact Hsum.
  - destruct (dict_get agg (hw_id child)); simpl in H; [ | discriminate ].
    injection H as <-. split; reflexivity.
Qed.

(** The draws of the simulation store have [n] entries. *)
Variable n : nat.
Hypothesis Hsims :
  forall id s,
    dict_get (sims sims_in) id = Some s ->
    num_shaped n (load_draws (sim_lambda s))
    /\ num_shaped n (load_draws (sim_cfu_of s)).

Lemma empty_res_shaped : shaped n empty_res.
Proof. split; exact I. Qed.

Lemma handle_child_shaped (agg : aggregates) (child : hardware)
    (r : rollup_res * rollup_res) :
  handle agg child = ok r ->
  (hw_is_component child = false ->
   forall r', dict_get agg (hw_id child) = Some r' ->
              shaped n (fst r') /\ shaped n (snd r')) ->
  shaped n (fst r) /\ shaped n (snd r).
Proof.
  unfold handle, handle_child, getitem. intros H Hagg.
  destruct (hw_is_component child).
  - destruct (dict_get hardware_dict (hw_id child)) as [hw | ];
      simpl in H; [ | discriminate ].
    destruct (ineligible hw samples_list samples_valid).
    { injection H as <-. split; apply empty_res_shaped. }
    destruct (startswith_2 (hw_dim hw)); unfold component_res, getitem in H;
      destruct (dict_get (sims sims_in) (hw_id child)) as [s | ] eqn:Hs;
      simpl in H; try discriminate;
      destruct (py_sum _); simpl in H; try discriminate;
      injection H as <-; simpl;
      split; try apply empty_res_shaped;
      split; simpl; apply (Hsims _ _ Hs).
  - destruct (dict_get agg (hw_id child)) as [r' | ] eqn:Hget; simpl in H;
      [ | discriminate ].
    injection H as <-. apply Hagg; reflexivity.
Qed.

Lemma rollup_of_inv (agg : aggregates) (is_child : hardware -> bool)
    (r : rollup_res * rollup_res) :
  rollup agg is_child = ok r ->
  exists cs,
    rmap (handle agg) (filter is_child (values hardware_dict)) = ok cs
    /\ reduce_child_results cs = ok r.
Proof.
  unfold rollup, rollup_of, handle. intros H.
  destruct (rmap _ _) as [ | cs]; simpl in H; [ discriminate | ].
  exists cs. split; [ reflexivity | exact H ].
Qed.

(** The entries of the aggregates have draws of [n] entries: by
    induction on the depth below level 6. *)
Lemma entries_shaped (agg : aggregates) :
  (forall e,
      In e (values hardware_dict) -> hw_is_component e = false ->
      exists r,
        dict_get agg (hw_id e) = Some r
        /\ rollup agg (children_of e) = ok r) ->
  forall depth e r,
    In e (values hardware_dict) -> hw_is_component e = false ->
    (6 <= hw_level e + depth)%nat ->
    dict_get agg (hw_id e) = Some r ->
    shaped n (fst r) /\ shaped n (snd r).
Proof.
  intros Heqs. induction depth as [ | depth IH]; intros e r He Hrollup Hlevel Hget.
  - pose proof (wf_rollups _ Hwf _ He Hrollup). lia.
  - destruct (Heqs e He Hrollup) as (r' & Hget' & Hroll).
    rewrite Hget in Hget'. injection Hget' as <-.
    destruct (rollup_of_inv _ _ _ Hroll) as (cs & Hcs & Hreduce).
    apply (reduce_child_results_shaped n cs r Hreduce).
    apply rmap_Forall2 in Hcs.
    assert (Hall : Forall (fun c => In c (values hardware_dict)
                                    /\ children_of e c = true)
                          (filter (children_of e) (values hardware_dict))).
    { apply Forall_forall. intros c Hc. apply filter_In in Hc. exact Hc. }
    clear Hreduce Hroll Hget. revert Hall.
    induction Hcs as [ | c rc children cs' Hc _ IHcs]; intros Hall;
      constructor.
    + inversion Hall as [ | ? ? (Hin & Hchild) _ ]; subst.
      apply (handle_child_shaped agg c rc Hc).
      intros Hcr rc' Hgetc.
      apply (IH c rc' Hin Hcr); [ | exact Hgetc ].
      pose proof (wf_levels _ Hwf _ _ Hin He Hchild Hcr). lia.
    + apply IHcs. inversion Hall; assumption.
Qed.

End Hierarchy.

(* ------------------------------------------------------------------ *)
(** * When the reduction returns *)

Lemma accumulate_returns (n : nat) (acc : accum) (res : rollup_res) :
  shaped n res -> numeric_extents res -> component_dtypes res ->
  acc_shaped n acc -> acc_dtypes acc ->
  exists acc', accumulate acc res = ok acc' /\ acc_dtypes acc'.
Proof.
  intros (Hlam & Hcfu) ((t & Ht) & (s & Hs)) (Hdl & Hdc) (Hal & Hac)
    (Hadl & Hadc).
  unfold accumulate, py_iadd. rewrite Ht, Hs, !as_number_of_number. simpl.
  assert (Hl : exists lam,
             iadd (a_lambda acc) (scale t (r_lambda res)) = ok lam
             /\ match lam with Py _ => True | Nd i _ => i = false end).
  { destruct (a_lambda acc) as [a | i u], (r_lambda res) as [b | j v];
      simpl in *; subst; simpl.
    - eexists; split; [ reflexivity | exact I ].
    - eexists; split; reflexivity.
    - eexists; split; reflexivity.
    - assert (Hlen : length u = length (map (fun e => to_R t * e) v))
        by (rewrite length_map; lia).
      apply Nat.eqb_eq in Hlen. rewrite Hlen.
      eexists; split; reflexivity. }
  assert (Hc : exists cfu,
             iadd (a_cfu acc) (r_cfu res) = ok cfu
             /\ match cfu with
                | Py c => is_int c = true
                | Nd i _ => i = true
                end).
  { destruct (a_cfu acc) as [a | i u], (r_cfu res) as [b | j v];
      simpl in *; subst; simpl.
    - destruct a, b; try discriminate. simpl.
      eexists; split; reflexivity.
    - rewrite Hadc. simpl. eexists; split; reflexivity.
    - rewrite Hdc. simpl. eexists; split; reflexivity.
    - assert (Hlen : length u = length v) by lia.
      apply Nat.eqb_eq in Hlen. rewrite Hlen.
      eexists; split; reflexivity. }
  destruct Hl as (lam & -> & Hlam'). destruct Hc as (cfu & -> & Hcfu').
  simpl. eexists. split; [ reflexivity | ]. split; assumption.
Qed.

Lemma reduce_loop_returns (n : nat) (cs : list (rollup_res * rollup_res)) :
  forall area volume,
    Forall (fun c =>
              (shaped n (fst c) /\ numeric_extents (fst c)
               /\ component_dtypes (fst c))
              /\ (shaped n (snd c) /\ numeric_extents (snd c)
                  /\ component_dtypes (snd c))) cs ->
    acc_shaped n area -> acc_dtypes area ->
    acc_shaped n volume -> acc_dtypes volume ->
    exists area' volume',
      reduce_loop area volume cs = ok (area', volume')
      /\ acc_dtypes area' /\ acc_dtypes volume'.
Proof.
  induction cs as [ | c cs IH]; simpl; intros area volume Hcs Ha Hda Hv Hdv.
  - eauto.
  - inversion Hcs as [ | ? ? ((Hs1 & Hn1 & Hd1) & (Hs2 & Hn2 & Hd2)) Hrest ];
      subst.
    destruct (accumulate_returns n area (fst c) Hs1 Hn1 Hd1 Ha Hda)
      as (area1 & Harea & Hda1).
    destruct (accumulate_returns n volume (snd c) Hs2 Hn2 Hd2 Hv Hdv)
      as (volume1 & Hvolume & Hdv1).
    rewrite Harea, Hvolume. simpl.
    apply IH; try assumption.
    + apply (accumulate_spec n _ _ _ Harea Hs1 Ha).
    + apply (accumulate_spec n _ _ _ Hvolume Hs2 Hv).
Qed.

Lemma finish_returns (acc : accum) :
  acc_dtypes acc -> exists r, finish acc = ok r.
Proof.
  intros (Hl & _). unfold finish.
  destruct (nonzero (a_total acc)); [ | simpl; eauto ].
  destruct (a_lambda acc) as [a | i u]; simpl in *; subst; simpl; eauto.
Qed.

(** On contributions with numeric extents, draws of a common length and
    the dtypes of component simulations, the reduction returns. *)
Lemma reduce_child_results_returns (n : nat)
    (cs : list (rollup_res * rollup_res)) :
  Forall (fun c =>
            (shaped n (fst c) /\ numeric_extents (fst c)
             /\ component_dtypes (fst c))
            /\ (shaped n (snd c) /\ numeric_extents (snd c)
                /\ component_dtypes (snd c))) cs ->
  exists r, reduce_child_results cs = ok r.
Proof.
  intros Hcs. unfold reduce_child_results.
  destruct (reduce_loop_returns n cs accum0 accum0 Hcs)
    as (a & v & -> & Hda & Hdv);
    try (split; simpl; auto).
  simpl.
  destruct (finish_returns a Hda) as (ra & ->).
  destruct (finish_returns v Hdv) as (rv & ->).
  simpl. eauto.
Qed.

(* ------------------------------------------------------------------ *)
(** * The aggregates of [store_sims_rollups] *)

(** C5 (amended).  For every rollup of a well-formed hierarchy and for
    the project, and for each dimension, the aggregate that
    [store_sims_rollups] stores is the combination of the contributions
    of the children: combined_total and combined_sampled are the sums of
    the children's totals and sampled extents rounded to six decimals,
    the combined CFU draws are the sums of the children's CFU draws, and
    the combined density draws are the sums of total times density
    divided by the unrounded sum of the totals when that sum is not
    zero (the bare sums otherwise); an ineligible component contributes
    the zero result, without an error. *)
Theorem rollup_aggregate_combines_children
    (sims_in : sims_store) (hardware_dict : dict hardware)
    (samples_list : list sample) (samples_valid : list string)
    (aggregates : dict (rollup_res * rollup_res)) (n : nat)
    (node_id : string) (is_child : hardware -> bool) :
  identify_valid_samples samples_list hardware_dict = ok samples_valid ->
  store_sims_rollups sims_in hardware_dict samples_list = ok aggregates ->
  well_formed_tree hardware_dict ->
  (forall id s,
      dict_get (sims sims_in) id = Some s ->
      num_shaped n (load_draws (sim_lambda s))
      /\ num_shaped n (load_draws (sim_cfu_of s))) ->
  node hardware_dict node_id is_child ->
  exists cs r,
    rmap (handle_child sims_in hardware_dict samples_list samples_valid
            aggregates)
         (filter is_child (values hardware_dict)) = ok cs
    /\ dict_get aggregates node_id = Some r
    /\ combined n (map fst cs) (fst r)
    /\ combined n (map snd cs) (snd r)
    /\ (forall child hw,
           hw_is_component child = true ->
           dict_get hardware_dict (hw_id child) = Some hw ->
           ineligible hw samples_list samples_valid = true ->
           handle_child sims_in hardware_dict samples_list samples_valid
             aggregates child = ok (empty_res, empty_res)).
Proof.
  intros Hvalid Hstore Hwf Hsims Hnode.
  destruct (store_sims_rollups_equations sims_in hardware_dict samples_list
              samples_valid Hwf aggregates Hvalid Hstore)
    as (Hrollups & Hproject).
  assert (Hentry : exists r,
             dict_get aggregates node_id = Some r
             /\ rollup_of sims_in hardware_dict samples_list samples_valid
                  aggregates is_child = ok r).
  { destruct Hnode as [(e & He & Hrollup & -> & ->) | (-> & ->)].
    - apply Hrollups; assumption.
    - exact Hproject. }
  destruct Hentry as (r & Hget & Hroll).
  destruct (rollup_of_inv sims_in hardware_dict samples_list samples_valid
              aggregates is_child r Hroll) as (cs & Hcs & Hreduce).
  assert (Hshaped : Forall (fun c => shaped n (fst c) /\ shaped n (snd c)) cs).
  { pose proof (rmap_Forall2 _ _ _ Hcs) as Hall.
    assert (Hin : Forall (fun c => In c (values hardware_dict))
                         (filter is_child (values hardware_dict))).
    { apply Forall_forall. intros c Hc. apply filter_In in Hc. tauto. }
    clear Hcs Hreduce. revert Hin.
    induction Hall as [ | c rc children cs' Hc _ IH]; intros Hin;
      constructor.
    - inversion Hin; subst.
      apply (handle_child_shaped sims_in hardware_dict samples_list
               samples_valid n Hsims aggregates c rc Hc).
      intros Hcr rc' Hgetc.
      apply (entries_shaped sims_in hardware_dict samples_list samples_valid
               Hwf n Hsims aggregates Hrollups 6 c rc'); auto. lia.
    - apply IH. inversion Hin; assumption. }
  destruct r as [area volume].
  destruct (reduce_child_results_spec n cs area volume Hreduce Hshaped)
    as (Harea & Hvolume).
  exists cs, (area, volume).
  split; [ exact Hcs | ]. split; [ exact Hget | ].
  split; [ exact Harea | ]. split; [ exact Hvolume | ].
  intros child hw Hc Hhw Hinel.
  apply (handle_child_ineligible sims_in hardware_dict samples_list
           samples_valid aggregates child hw); assumption.
Qed.

(** The extents of the aggregates: for every rollup and for the project,
    combined_total is the rounded sum of what the direct children
    contribute, a rollup child contributing its own combined_total. *)
Lemma rollup_extents_recurrence
    (sims_in : sims_store) (hardware_dict : dict hardware)
    (samples_list : list sample) (samples_valid : list string)
    (aggregates : dict (rollup_res * rollup_res))
    (node_id : string) (is_child : hardware -> bool) (area : bool) :
  identify_valid_samples samples_list hardware_dict = ok samples_valid ->
  store_sims_rollups sims_in hardware_dict samples_list = ok aggregates ->
  well_formed_tree hardware_dict ->
  node hardware_dict node_id is_child ->
  exists r,
    dict_get aggregates node_id = Some r
    /\ pyval_R (r_total (dimension area r))
       = round6 (Rsum (map (contribution_total hardware_dict samples_list
                              samples_valid aggregates area)
                           (filter is_child (values hardware_dict))))
    /\ pyval_R (r_sampled (dimension area r))
       = round6 (Rsum (map (contribution_sampled hardware_dict samples_list
                              samples_valid aggregates area)
                           (filter is_child (values hardware_dict)))).
Proof.
  intros Hvalid Hstore Hwf Hnode.
  destruct (store_sims_rollups_equations sims_in hardware_dict samples_list
              samples_valid Hwf aggregates Hvalid Hstore)
    as (Hrollups & Hproject).
  assert (Hentry : exists r,
             dict_get aggregates node_id = Some r
             /\ rollup_of sims_in hardware_dict samples_list samples_valid
                  aggregates is_child = ok r).
  { destruct Hnode as [(e & He & Hrollup & -> & ->) | (-> & ->)].
    - apply Hrollups; assumption.
    - exact Hproject. }
  destruct Hentry as (r & Hget & Hroll).
  destruct (rollup_of_inv sims_in hardware_dict samples_list samples_valid
              aggregates is_child r Hroll) as (cs & Hcs & Hreduce).
  exists r. split; [ exact Hget | ].
  destruct (reduce_child_results_totals cs r area Hreduce) as (Ht & Hs).
  apply rmap_Forall2 in Hcs.
  rewrite Ht, Hs. split; f_equal; f_equal.
  - apply (Forall2_map_eq _ _ _ _ _ Hcs). intros c rc _ Hc.
    apply (handle_child_extents sims_in hardware_dict samples_list
             samples_valid aggregates c rc area Hc).
  - apply (Forall2_map_eq _ _ _ _ _ Hcs). intros c rc _ Hc.
    apply (handle_child_extents sims_in hardware_dict samples_list
             samples_valid aggregates c rc area Hc).
Qed.

(* ------------------------------------------------------------------ *)
(** * Extents over the descendants *)

Lemma micro_round6 (x : R) : micro x -> round6 x = x.
Proof.
  intros (k & ->). unfold round6.
  replace (IZR k / 1000000 * 1000000) with (IZR k) by (field; lra).
  rewrite round_half_even_IZR. reflexivity.
Qed.

Lemma micro_0 : micro 0.
Proof. exists 0%Z. lra. Qed.

Lemma micro_plus (x y : R) : micro x -> micro y -> micro (x + y).
Proof.
  intros (k & ->) (l & ->). exists (k + l)%Z. rewrite plus_IZR. lra.
Qed.

Lemma micro_Rsum (l : list R) : Forall micro l -> micro (Rsum l).
Proof.
  induction 1 as [ | x l Hx _ IH].
  - rewrite Rsum_nil. apply micro_0.
  - rewrite Rsum_cons. apply micro_plus; assumption.
Qed.

Section Descendants.

Variable sims_in : sims_store.
Variable hardware_dict : dict hardware.
Variable samples_list : list sample.
Variable samples_valid : list string.
Variable aggregates : dict (rollup_res * rollup_res).
Variable area : bool.

Hypothesis Hwf : well_formed_tree hardware_dict.

Hypothesis Hmicro :
  forall id hw,
    dict_get hardware_dict id = Some hw -> micro (pyval_R (exposure_of hw)).

Hypothesis Hrollups :
  forall e,
    In e (values hardware_dict) -> hw_is_component e = false ->
    exists r,
      dict_get aggregates (hw_id e) = Some r
      /\ rollup_of sims_in hardware_dict samples_list samples_valid
           aggregates (children_of e) = ok r.

Let below (fuel : nat) (is_child : hardware -> bool) : R :=
  eligible_extent fuel hardware_dict samples_list samples_valid area
    is_child.

Let contribution : hardware -> R :=
  contribution_total hardware_dict samples_list samples_valid aggregates
    area.

Lemma contribution_of_component (agg : dict (rollup_res * rollup_res))
    (c : hardware) :
  hw_is_component c = true ->
  contribution_total hardware_dict samples_list samples_valid agg area c
  = contribution_total hardware_dict samples_list samples_valid [] area c
  /\ micro (contribution_total hardware_dict samples_list samples_valid []
              area c).
Proof.
  intros Hc. unfold contribution_total. rewrite Hc.
  split; [ reflexivity | ].
  destruct (dict_get hardware_dict (hw_id c)) as [hw | ] eqn:Hget;
    [ | apply micro_0 ].
  destruct (ineligible hw samples_list samples_valid); [ apply micro_0 | ].
  destruct (Bool.eqb (startswith_2 (hw_dim hw)) area); [ | apply micro_0 ].
  apply (Hmicro _ _ Hget).
Qed.

Lemma micro_below (fuel : nat) (is_child : hardware -> bool) :
  micro (below fuel is_child).
Proof.
  unfold below. revert is_child.
  induction fuel as [ | fuel IH]; intros is_child; simpl.
  - apply micro_0.
  - apply micro_Rsum. apply Forall_forall. intros x Hx.
    apply in_map_iff in Hx as (c & <- & _).
    destruct (hw_is_component c) eqn:Hc.
    + apply (contribution_of_component [] c Hc).
    + apply IH.
Qed.

(** The sum of the contributions of the children of a node whose
    rollup children are settled. *)
Lemma contributions_below (fuel : nat) (is_child : hardware -> bool) :
  (forall c r,
      In c (values hardware_dict) -> is_child c = true ->
      hw_is_component c = false ->
      dict_get aggregates (hw_id c) = Some r ->
      pyval_R (r_total (dimension area r)) = below fuel (children_of c)) ->
  round6 (Rsum (map contribution (filter is_child (values hardware_dict))))
  = below (S fuel) is_child.
Proof.
  intros Hsettled.
  assert (Heq : map contribution (filter is_child (values hardware_dict))
                = map (fun c =>
                         if hw_is_component c then
                           contribution_total hardware_dict samples_list
                             samples_valid [] area c
                         else below fuel (children_of c))
                      (filter is_child (values hardware_dict))).
  { apply map_ext_in. intros c Hc. apply filter_In in Hc as (Hin & Hchild).
    destruct (hw_is_component c) eqn:Hcomp.
    - apply (contribution_of_component aggregates c Hcomp).
    - unfold contribution, contribution_total. rewrite Hcomp.
      destruct (Hrollups c Hin Hcomp) as (r & Hget & _).
      rewrite Hget. apply (Hsettled c r); assumption. }
  rewrite Heq. apply micro_round6. apply (micro_below (S fuel)).
Qed.

Lemma rollup_total_below (fuel : nat) :
  forall e r,
    In e (values hardware_dict) -> hw_is_component e = false ->
    (6 <= hw_level e + fuel)%nat ->
    dict_get aggregates (hw_id e) = Some r ->
    pyval_R (r_total (dimension area r)) = below fuel (children_of e).
Proof.
  induction fuel as [ | fuel IH]; intros e r He Hrollup Hlevel Hget.
  - pose proof (wf_rollups _ Hwf _ He Hrollup). lia.
  - destruct (Hrollups e He Hrollup) as (r' & Hget' & Hroll).
    rewrite Hget in Hget'. injection Hget' as <-.
    destruct (rollup_of_inv sims_in hardware_dict samples_list
                samples_valid aggregates (children_of e) r Hroll)
      as (cs & Hcs & Hreduce).
    destruct (reduce_child_results_totals cs r area Hreduce) as (Ht & _).
    apply rmap_Forall2 in Hcs.
    rewrite Ht.
    rewrite (Forall2_map_eq _ _ contribution _ _ Hcs).
    + apply contributions_below. intros c rc Hin Hchild Hcomp Hgetc.
      apply IH; try assumption.
      pose proof (wf_levels _ Hwf _ _ Hin He Hchild Hcomp). lia.
    + intros c rc _ Hc.
      apply (handle_child_extents sims_in hardware_dict samples_list
               samples_valid aggregates c rc area Hc).
Qed.

End Descendants.

(** C9 (amended).  For every rollup of a well-formed hierarchy and for
    the project, and for each dimension, combined_total is the sum,
    rounded to six decimals, of what the direct children contribute (the
    extent of an eligible component of the dimension, the combined_total
    of a rollup, nothing for an ineligible component), and
    combined_sampled is the rounded sum of the sampled extents
    contributed; when the extents of the components are multiples of
    [10^-6], combined_total is the sum of the extents of the eligible
    components of the dimension among the direct and transitive
    descendants.  No bound of combined_sampled by combined_total is
    stated: the code has none. *)
Theorem rollup_total_is_sum_over_descendants
    (sims_in : sims_store) (hardware_dict : dict hardware)
    (samples_list : list sample) (samples_valid : list string)
    (aggregates : dict (rollup_res * rollup_res))
    (node_id : string) (is_child : hardware -> bool) (level : nat)
    (area : bool) :
  identify_valid_samples samples_list hardware_dict = ok samples_valid ->
  store_sims_rollups sims_in hardware_dict samples_list = ok aggregates ->
  well_formed_tree hardware_dict ->
  node_at hardware_dict node_id is_child level ->
  exists r,
    dict_get aggregates node_id = Some r
    /\ pyval_R (r_total (dimension area r))
       = round6 (Rsum (map (contribution_total hardware_dict samples_list
                              samples_valid aggregates area)
                           (filter is_child (values hardware_dict))))
    /\ pyval_R (r_sampled (dimension area r))
       = round6 (Rsum (map (contribution_sampled hardware_dict samples_list
                              samples_valid aggregates area)
                           (filter is_child (values hardware_dict))))
    /\ ((forall id hw,
            dict_get hardware_dict id = Some hw ->
            micro (pyval_R (exposure_of hw))) ->
        forall fuel,
          (6 <= level + fuel)%nat ->
          pyval_R (r_total (dimension area r))
          = eligible_extent fuel hardware_dict samples_list samples_valid
              area is_child).
Proof.
  intros Hvalid Hstore Hwf Hnode.
  assert (Hnode' : node hardware_dict node_id is_child).
  { destruct Hnode as [(e & He & Hrollup & Hid & Hchild & _) | (Hid & Hchild & _)].
    - left. exists e. auto.
    - right. auto. }
  destruct (rollup_extents_recurrence sims_in hardware_dict samples_list
              samples_valid aggregates node_id is_child area Hvalid Hstore
              Hwf Hnode') as (r & Hget & Htotal & Hsampled).
  exists r. split; [ exact Hget | ]. split; [ exact Htotal | ].
  split; [ exact Hsampled | ].
  intros Hmicro fuel Hfuel.
  destruct (store_sims_rollups_equations sims_in hardware_dict samples_list
              samples_valid Hwf aggregates Hvalid Hstore)
    as (Hrollups & _).
  destruct Hnode as [(e & He & Hrollup & -> & -> & ->) | (-> & -> & ->)].
  - apply (rollup_total_below sims_in hardware_dict samples_list
             samples_valid aggregates area Hwf Hmicro Hrollups fuel e r);
      assumption.
  - destruct fuel as [ | fuel]; [ lia | ].
    rewrite Htotal.
    apply (contributions_below sims_in hardware_dict samples_list
             samples_valid aggregates area Hmicro Hrollups fuel is_root).
    intros c rc Hin _ Hcomp Hgetc.
    apply (rollup_total_below sims_in hardware_dict samples_list
             samples_valid aggregates area Hwf Hmicro Hrollups fuel c rc);
      try assumption.
    pose proof (wf_rollups _ Hwf _ Hin Hcomp). lia.
Qed.

(* ------------------------------------------------------------------ *)
(** * The engine on concrete inputs *)

(** C7.  Deleting the Sampled component "A", from which "B" is implied,
    marks "B" invalid and clears its link; on the diff of this deletion
    [store_sims_components] removes the record of "A" and keeps the
    record of "B": the dependents are looked up in the hardware after
    the deletion, where the link is already cleared. *)
Theorem delete_keeps_dependent_simulation :
  hardware_delete_confirm "A" hardware_before_delete []
  = ok (hardware_after_delete, [], [])
  /\ forall (entropy : Type)
       (rng_beta : R -> R -> nat -> M entropy (list R))
       (rng_gamma : R -> list npfloat -> M entropy (list R))
       (rng_choice :
          nat -> nat -> bool -> option (list npfloat) -> M entropy (list nat))
       (rng_poisson : list R -> M entropy (list Z))
       (special_gamma : R -> R) (POSTERIOR_MAP : dict (list R))
       (samples_diff : deepdiff) (w : entropy),
      store_sims_components entropy rng_beta rng_gamma rng_choice rng_poisson
        special_gamma POSTERIOR_MAP true diff_of_delete samples_diff
        hardware_after_delete [] hardware_before_delete []
        sims_before_delete w
      = ok ({| noop := false; sims := [ ("B", sim_of_B) ]%string |}, w).
Proof.
  split.
  - reflexivity.
  - intros. reflexivity.
Qed.

(** C8.  A sample whose device, type and technique resolve to an entry
    that borrows the parameters of another pairing is reported as
    ["efficiency"] before its pour fraction and its CFU are checked, and
    ["efficiency"] is an allowed alert: the sample "S1", with a pour
    fraction of 5, is not usable and yet is a valid sample for
    [identify_valid_samples], is kept by the filters of the controller and
    of [sim_component], and its row, with fraction 5, is the likelihood
    data of the update of its component. *)
Theorem unusable_sample_enters_likelihood_data :
  usable_spec sample_alias_bad_fraction hardware_A = false
  /\ is_fraction (s_pour_fraction sample_alias_bad_fraction) = false
  /\ detect_sample_alerts sample_alias_bad_fraction hardware_A
     = ok "efficiency"
  /\ identify_valid_samples [sample_alias_bad_fraction] hardware_A
     = ok ["S1"]
  /\ samples_list_valid [sample_alias_bad_fraction] ["S1"]
     = [sample_alias_bad_fraction]
  /\ samples_data s_sampled_area [sample_alias_bad_fraction]
     = ok [row_alias_bad_fraction]
  /\ forall (entropy : Type)
       (rng_beta : R -> R -> nat -> M entropy (list R))
       (rng_gamma : R -> list npfloat -> M entropy (list R))
       (rng_choice :
          nat -> nat -> bool -> option (list npfloat) -> M entropy (list nat))
       (rng_poisson : list R -> M entropy (list Z))
       (special_gamma : R -> R) (prior : list R)
       (current_sims : sims_store) (n_sims : nat) (w : entropy),
      sim_component entropy rng_beta rng_gamma rng_choice rng_poisson
        special_gamma [("Analog A", prior)]
        (sampled_hardware "A" None 2 "Analog A" (PyInt 1))
        (samples_list_valid [sample_alias_bad_fraction] ["S1"])
        current_sims n_sims w
      = (draws_lambda <-
           update_analogy_prior entropy rng_beta rng_gamma rng_choice
             special_gamma (Some prior) [row_alias_bad_fraction]
             resolution_default ;;
         cfu <- sim_cfu entropy rng_poisson (Vector draws_lambda) 1 ;;
         ret {| sim_mode_of := mode_posterior;
                sim_link := Some "Analog A";
                sim_lambda := Vector draws_lambda;
                sim_cfu_of := cfu |})%M w.
Proof.
  repeat split; try reflexivity.
Qed.

(* ------------------------------------------------------------------ *)
(** * The statistical engine with the deterministic generator *)

Lemma likelihoods_subtracts_factorial_witness :
  likelihoods nat const_beta const_special_gamma [1] [row_no_colony]
    true true 0%nat
  = ok (Arr1 [Fin (0 + (INR 0 * ln (1 * (1 * 1) * (1 / 2)) - INR (fact 0)
                        - 1 * (1 * 1) * (1 / 2)))], 1%nat)
  /\ 0 + (INR 0 * ln (1 * (1 * 1) * (1 / 2)) - INR (fact 0)
          - 1 * (1 * 1) * (1 / 2))
     <> poisson_log_pmf 0 (1 * (1 * 1) * (1 / 2)).
Proof.
  apply (likelihoods_subtracts_factorial_not_its_log nat const_beta
           const_special_gamma 0%nat 1 (1 / 2) row_no_colony 0%nat 1%nat).
  - reflexivity.
  - simpl. lra.
  - reflexivity.
Defined.

Lemma likelihoods_log_is_unguarded_witness :
  exists lam d e,
    In lam [1] /\ In d [row_no_colony]
    /\ let rate := lam * (d_extent d * d_fraction d) * e in
       log_lik_entry const_special_gamma 0 (1 * (1 * 1) * (1 / 2))
       = fsub (fsub (fmul (Fin (d_cfu d)) (flog (Fin rate)))
                    (Fin (special_factorial const_special_gamma (d_cfu d))))
              (Fin rate)
       /\ (0 < lam -> 0 < d_extent d -> 0 < d_fraction d -> 0 < e ->
           flog (Fin rate) = Fin (ln rate))
       /\ (lam = 0 \/ d_extent d = 0 \/ d_fraction d = 0 \/ e = 0 ->
           rate = 0 /\ flog (Fin rate) = NInf).
Proof.
  apply (likelihoods_log_is_unguarded const_special_gamma [1]
           [row_no_colony] [[1 / 2]]
           [log_lik_entry const_special_gamma 0 (1 * (1 * 1) * (1 / 2))]).
  - simpl. left. reflexivity.
  - simpl. left. reflexivity.
Defined.

(** C10, refuted as stated.  With a particle equal to zero the rate under
    the logarithm is zero, the logarithm is minus infinity, and the
    log-likelihood of a sample with no colony is not a number. *)
Lemma likelihoods_takes_log_of_zero :
  expected_rates [0] [row_no_colony] [[1 / 2]] = [[0 * (1 * 1) * (1 / 2)]]
  /\ 0 * (1 * 1) * (1 / 2) = 0
  /\ flog (Fin (0 * (1 * 1) * (1 / 2))) = NInf
  /\ likelihoods nat const_beta const_special_gamma [0] [row_no_colony]
       true true 0%nat
     = ok (Arr1 [NaN], 1%nat).
Proof.
  assert (Hlog : flog (Fin (0 * (1 * 1) * (1 / 2))) = NInf).
  { simpl. R_decide. reflexivity. }
  split; [ reflexivity | ]. split; [ lra | ]. split; [ exact Hlog | ].
  unfold likelihoods, draw_efficiencies. simpl.
  unfold bind, const_beta, ret. simpl.
  unfold log_lik_entry. rewrite Hlog. simpl.
  unfold inf_times. R_decide. reflexivity.
Qed.










(* ------------------------------------------------------------------ *)
(** * The controller on concrete events *)

Lemma notes_edit_is_metadata_only :
  metadata_only_event true diff_of_notes no_diff.
Proof.
  exists [ [KStr "A"; KStr "notes"] ].
  split; [ reflexivity | ]. split; [ | split; reflexivity ].
  constructor; [ | constructor ].
  exists (KStr "A"), "notes". split; reflexivity.
Qed.

Lemma metadata_only_event_witness :
  store_sims_components nat const_beta const_gamma first_choice
    const_poisson const_special_gamma catalog_small true diff_of_notes
    no_diff hardware_A [] hardware_A [] (st_sims state_of_A) 0%nat
  = inl PreventUpdate
  /\ process_event nat const_beta const_gamma first_choice const_poisson
       const_special_gamma catalog_small true diff_of_notes no_diff
       hardware_A [] hardware_A [] state_of_A 0%nat
     = ok (state_of_A, 0%nat).
Proof.
  apply (metadata_only_event_changes_nothing nat const_beta const_gamma
           first_choice const_poisson const_special_gamma catalog_small
           true diff_of_notes no_diff hardware_A [] hardware_A [] []
           state_of_A 0%nat eq_refl notes_edit_is_metadata_only).
Defined.

(** C6, refuted as stated.  After an event that touches the notes of a
    component only, the no-op flag of the store is still [false], the
    value that the previous event left: the flag is not set to [true]. *)
Lemma metadata_only_event_leaves_flag_false :
  noop (st_sims state_of_A) = false
  /\ exists st' w',
       process_event nat const_beta const_gamma first_choice const_poisson
         const_special_gamma catalog_small true diff_of_notes no_diff
         hardware_A [] hardware_A [] state_of_A 0%nat
       = ok (st', w')
       /\ noop (st_sims st') <> true.
Proof.
  split; [ reflexivity | ].
  exists state_of_A, 0%nat. split; [ reflexivity | discriminate ].
Qed.

(* ------------------------------------------------------------------ *)
(** * The aggregation on concrete hierarchies *)

Lemma int_valued_between (x : R) (z : Z) :
  IZR z < x < IZR z + 1 -> int_valued x = false.
Proof.
  intros H. unfold int_valued.
  rewrite (Zfloor_eq z x) by lra.
  destruct (Req_dec_T x (IZR z)); [ lra | reflexivity ].
Qed.

Lemma load_scalar_int (z : Z) : load_draws (Scalar (IZR z)) = Py (Int z).
Proof.
  unfold load_draws, json_number.
  rewrite int_valued_IZR, ZfloorZ. reflexivity.
Qed.

Lemma load_scalar_float (x : R) (z : Z) :
  IZR z < x < IZR z + 1 -> load_draws (Scalar x) = Py (Float x).
Proof.
  intros H. unfold load_draws, json_number.
  rewrite (int_valued_between x z H). reflexivity.
Qed.

Lemma load_vector_float (x : R) (v : list R) (z : Z) :
  IZR z < x < IZR z + 1 -> load_draws (Vector (x :: v)) = Nd false (x :: v).
Proof.
  intros H. unfold load_draws. simpl.
  rewrite (int_valued_between x z H). reflexivity.
Qed.

Lemma load_vector_int (zs : list Z) :
  zs <> [] -> load_draws (Vector (map IZR zs)) = Nd true (map IZR zs).
Proof.
  intros Hne. unfold load_draws.
  assert (Hall : forallb int_valued (map IZR zs) = true).
  { clear Hne. induction zs as [ | a l IH]; simpl; [ reflexivity | ].
    rewrite int_valued_IZR, IH. reflexivity. }
  destruct zs as [ | z zs]; [ congruence | ].
  simpl map in *. rewrite Hall. reflexivity.
Qed.

(** Evaluation of the aggregation with the real numbers left alone. *)
Ltac evaluate_rollups :=
  cbv -[load_draws IZR Rdiv Rmult Rplus Rinv Req_dec_T Rlt_dec Zfloor
        round6].

Lemma store_sims_rollups_rover :
  store_sims_rollups sims_rover hardware_rover samples_rover
  = ok aggregates_rover.
Proof.
  evaluate_rollups.
  rewrite (load_vector_float (1 / 2) [3 / 2] 0) by lra.
  change [1; 3] with (map IZR [1; 3]%Z).
  rewrite (load_vector_int [1; 3]%Z) by discriminate.
  rewrite !load_scalar_int.
  evaluate_rollups. reflexivity.
Qed.

Lemma well_formed_rover : well_formed_tree hardware_rover.
Proof.
  split.
  - simpl. repeat constructor; simpl; intuition discriminate.
  - intros child elem Hc He Hp Hr. simpl in Hc, He.
    destruct Hc as [<- | [<- | [<- | [<- | []]]]];
      destruct He as [<- | [<- | [<- | [<- | []]]]];
      simpl in Hr; try discriminate Hr; discriminate Hp.
  - intros elem He Hr. simpl in He.
    destruct He as [<- | [<- | [<- | [<- | []]]]];
      simpl in Hr; try discriminate Hr; simpl; lia.
  - intros elem He. simpl in He.
    destruct He as [<- | [<- | [<- | [<- | []]]]]; discriminate.
Qed.

Lemma sims_rover_shaped (id : string) (s : sim) :
  dict_get (sims sims_rover) id = Some s ->
  num_shaped 2 (load_draws (sim_lambda s))
  /\ num_shaped 2 (load_draws (sim_cfu_of s)).
Proof.
  cbv [sims_rover sims dict_get].
  destruct (String.eqb "Arm" id).
  - intros [= <-]. simpl sim_lambda. simpl sim_cfu_of.
    rewrite (load_vector_float (1 / 2) [3 / 2] 0) by lra.
    change [1; 3] with (map IZR [1; 3]%Z).
    rewrite (load_vector_int [1; 3]%Z) by discriminate.
    split; reflexivity.
  - destruct (String.eqb "Tank" id); [ | discriminate ].
    intros [= <-]. simpl sim_lambda. simpl sim_cfu_of.
    rewrite !load_scalar_int. split; exact I.
Qed.

Lemma rover_is_a_node :
  node_at hardware_rover "Rover" (children_of (rollup_hardware "Rover" None 2))
    2.
Proof.
  left. exists (rollup_hardware "Rover" None 2).
  repeat split. simpl. auto.
Qed.

(** C5, at the rollup of a hierarchy with a Sampled component of 2 m2, a
    Spec component of 4 cm3 and a Generic component without samples. *)
Lemma rollup_aggregate_witness :
  exists cs r,
    rmap (handle_child sims_rover hardware_rover samples_rover ["S1"]
            aggregates_rover)
         (filter (children_of (rollup_hardware "Rover" None 2))
                 (values hardware_rover)) = ok cs
    /\ dict_get aggregates_rover "Rover" = Some r
    /\ combined 2 (map fst cs) (fst r)
    /\ combined 2 (map snd cs) (snd r)
    /\ (forall child hw,
           hw_is_component child = true ->
           dict_get hardware_rover (hw_id child) = Some hw ->
           ineligible hw samples_rover ["S1"] = true ->
           handle_child sims_rover hardware_rover samples_rover ["S1"]
             aggregates_rover child = ok (empty_res, empty_res)).
Proof.
  apply (rollup_aggregate_combines_children sims_rover hardware_rover
           samples_rover ["S1"] aggregates_rover 2 "Rover"
           (children_of (rollup_hardware "Rover" None 2))).
  - reflexivity.
  - exact store_sims_rollups_rover.
  - exact well_formed_rover.
  - exact sims_rover_shaped.
  - left. exists (rollup_hardware "Rover" None 2).
    repeat split. simpl. auto.
Defined.

(** Rounding to six decimals sends a small positive number to zero. *)
Lemma round6_small (x : R) : 0 <= x * 1000000 < 1 / 2 -> round6 x = 0.
Proof.
  intros H. unfold round6, round_half_even.
  rewrite (Zfloor_eq 0 (x * 1000000)) by (simpl; lra).
  destruct (Rlt_dec (x * 1000000 - 0) (1 / 2)); [ | lra ].
  lra.
Qed.

Lemma store_sims_rollups_chip :
  store_sims_rollups sims_chip hardware_chip [] = ok aggregates_chip.
Proof.
  evaluate_rollups.
  rewrite (load_scalar_int 130).
  rewrite (load_scalar_float (130 * (4 / 10000000)) 0) by lra.
  evaluate_rollups.
  destruct (Req_dec_T (0 + 4 / 10000000) 0) as [H | H]; [ lra | ].
  evaluate_rollups. reflexivity.
Qed.

(** C5 as worded fails: for a project made of one Spec component of
    0.4 mm3, the stored combined_total is 0 and not the sum 4e-7 of the
    children's totals, and the combined density is 130: it is the
    weighted sum divided by 4e-7, not by combined_total. *)
Lemma rollup_total_is_rounded :
  exists r,
    store_sims_rollups sims_chip hardware_chip [] = ok aggregates_chip
    /\ dict_get aggregates_chip PROJECT = Some r
    /\ rmap (handle_child sims_chip hardware_chip [] [] aggregates_chip)
            (filter is_root (values hardware_chip))
       = ok [ (empty_res,
               {| r_lambda := Py (Int 130);
                  r_cfu := Py (Float (130 * (4 / 10000000)));
                  r_total := PyFloat (4 / 10000000);
                  r_sampled := PyInt 0 |}) ]
    /\ pyval_R (r_total (snd r)) = 0
    /\ pyval_R (r_total (snd r)) <> 4 / 10000000
    /\ num_at (r_lambda (snd r)) 0 = 130.
Proof.
  eexists. split; [ exact store_sims_rollups_chip | ].
  split; [ reflexivity | ].
  assert (Hround : round6 (0 + 4 / 10000000) = 0)
    by (apply round6_small; lra).
  split; [ | simpl; rewrite Hround; repeat split; [ lra | field ] ].
  evaluate_rollups.
  rewrite (load_scalar_int 130).
  rewrite (load_scalar_float (130 * (4 / 10000000)) 0) by lra.
  reflexivity.
Qed.

Lemma store_sims_rollups_oversampled :
  store_sims_rollups sims_oversampled hardware_A samples_oversampled
  = ok aggregates_oversampled.
Proof.
  evaluate_rollups.
  rewrite (load_vector_float (1 / 2) [3 / 2] 0) by lra.
  change [1; 3] with (map IZR [1; 3]%Z).
  rewrite (load_vector_int [1; 3]%Z) by discriminate.
  evaluate_rollups. reflexivity.
Qed.

(** C9, at the rollup of the same hierarchy, for the area. *)
Lemma rollup_total_witness :
  exists r,
    dict_get aggregates_rover "Rover" = Some r
    /\ pyval_R (r_total (dimension true r))
       = round6 (Rsum (map (contribution_total hardware_rover samples_rover
                              ["S1"] aggregates_rover true)
                           (filter (children_of
                                      (rollup_hardware "Rover" None 2))
                                   (values hardware_rover))))
    /\ pyval_R (r_sampled (dimension true r))
       = round6 (Rsum (map (contribution_sampled hardware_rover
                              samples_rover ["S1"] aggregates_rover true)
                           (filter (children_of
                                      (rollup_hardware "Rover" None 2))
                                   (values hardware_rover))))
    /\ ((forall id hw,
            dict_get hardware_rover id = Some hw ->
            micro (pyval_R (exposure_of hw))) ->
        forall fuel,
          (6 <= 2 + fuel)%nat ->
          pyval_R (r_total (dimension true r))
          = eligible_extent fuel hardware_rover samples_rover ["S1"] true
              (children_of (rollup_hardware "Rover" None 2))).
Proof.
  apply (rollup_total_is_sum_over_descendants sims_rover hardware_rover
           samples_rover ["S1"] aggregates_rover "Rover"
           (children_of (rollup_hardware "Rover" None 2)) 2 true).
  - reflexivity.
  - exact store_sims_rollups_rover.
  - exact well_formed_rover.
  - exact rover_is_a_node.
Defined.

(** C9 as worded fails: for a component of 1 m2 with one usable
    accountable sample of 2 m2, the project has combined_total 1 and
    combined_sampled 2. *)
Lemma sampled_extent_exceeds_total :
  exists r,
    store_sims_rollups sims_oversampled hardware_A samples_oversampled
    = ok aggregates_oversampled
    /\ dict_get aggregates_oversampled PROJECT = Some r
    /\ pyval_R (r_total (fst r)) = 1
    /\ pyval_R (r_sampled (fst r)) = 2
    /\ ~ pyval_R (r_sampled (fst r)) <= pyval_R (r_total (fst r)).
Proof.
  eexists. split; [ exact store_sims_rollups_oversampled | ].
  split; [ reflexivity | ].
  simpl. repeat split; lra.
Qed.

(* ------------------------------------------------------------------ *)
(** * The importance weights *)








(* ------------------------------------------------------------------ *)
(** * The branches of [sim_component] *)

Section Branches.

Variable entropy : Type.
Variable rng_beta : R -> R -> nat -> M entropy (list R).
Variable rng_gamma : R -> list npfloat -> M entropy (list R).
Variable rng_choice :
  nat -> nat -> bool -> option (list npfloat) -> M entropy (list nat).
Variable rng_poisson : list R -> M entropy (list Z).
Variable special_gamma : R -> R.
Variable POSTERIOR_MAP : dict (list R).

Let simulate :=
  sim_component entropy rng_beta rng_gamma rng_choice rng_poisson
    special_gamma POSTERIOR_MAP.

Ltac run H := erewrite bind_ok; [ | exact H ].
Ltac run_lift H := erewrite bind_ok; [ | apply lift_ok; exact H ].

(** X2.  A Spec component is simulated without samples, stored
    simulations or random draws: its density is the entry of
    [SPEC_DENSITY_MAP] for its dimension and class, and its CFU is the
    density times its extent.  A class that the table of its dimension
    does not hold raises [KeyError]. *)
Theorem spec_component_reads_the_density_table (hw : hardware)
    (samples_list : list sample) (current_sims : sims_store) (n_sims : nat)
    (by_dim : dict R) (spec : string) (w : entropy) :
  hw_type hw = Some "Unsampled - Spec"%string ->
  dict_get SPEC_DENSITY_MAP (hw_dim hw) = Some by_dim ->
  hw_spec hw = Some spec ->
  (forall density e,
      dict_get by_dim spec = Some density ->
      as_number (exposure_of hw) = ok e ->
      simulate hw samples_list current_sims n_sims w
      = ok ({| sim_mode_of := mode_spec; sim_link := None;
               sim_lambda := Scalar density;
               sim_cfu_of := Scalar (density * to_R e) |}, w))
  /\ (dict_get by_dim spec = None ->
      simulate hw samples_list current_sims n_sims w = inl KeyError).
Proof.
  intros Htype Hdim Hspec.
  unfold simulate, sim_component. rewrite Htype.
  change (opt_eqb (Some "Unsampled - Spec"%string) "Unsampled - Spec")
    with true.
  cbv iota. unfold getitem. rewrite Hdim, Hspec. simpl rbind.
  split.
  - intros density e Hdensity He. rewrite Hdensity, He. reflexivity.
  - intros Hnone. rewrite Hnone. reflexivity.
Qed.

(** X3.  A component implied from another one takes over the density
    draws of the simulation stored for that component and draws its own
    counts from them; when no simulation is stored under the link the
    call raises [KeyError]. *)
Theorem implied_component_copies_the_density (hw : hardware)
    (samples_list : list sample) (current_sims : sims_store) (n_sims : nat)
    (implied_id : string) (w : entropy) :
  hw_type hw = Some "Unsampled - Implied"%string ->
  hw_implied_id hw = Some implied_id ->
  (dict_get (sims current_sims) implied_id = None ->
   simulate hw samples_list current_sims n_sims w = inl KeyError)
  /\ (forall implied_sim v e counts w',
         dict_get (sims current_sims) implied_id = Some implied_sim ->
         sim_lambda implied_sim = Vector v ->
         as_number (exposure_of hw) = ok e ->
         rng_poisson (map (fun x => x * to_R e) v) w = ok (counts, w') ->
         simulate hw samples_list current_sims n_sims w
         = ok ({| sim_mode_of := mode_implied; sim_link := Some implied_id;
                  sim_lambda := Vector v;
                  sim_cfu_of := Vector (map IZR counts) |}, w')).
Proof.
  intros Htype Hlink.
  unfold simulate, sim_component. rewrite Htype, Hlink.
  change (opt_eqb (Some "Unsampled - Implied"%string) "Unsampled - Spec")
    with false.
  change (opt_eqb (Some "Unsampled - Implied"%string) "Unsampled - Implied")
    with true.
  cbv iota. unfold getitem.
  split.
  - intros Hnone. rewrite Hnone. reflexivity.
  - intros implied_sim v e counts w' Hsim Hv He Hcounts.
    rewrite Hsim.
    run_lift (eq_refl (ok implied_sim)).
    run_lift He.
    rewrite Hv.
    run (sim_cfu_vector entropy rng_poisson v (to_R e) counts w w' Hcounts).
    reflexivity.
Qed.

(** X4.  A Sampled component with the generic prior has no catalog
    behind it: simulated without an accountable sample it raises
    [TypeError].  The controller never does so for a component that
    [is_eligible] accepts, which has an accountable valid sample. *)
Theorem generic_component_needs_a_sample (hw : hardware)
    (hardware_dict : dict hardware) (samples_list : list sample)
    (samples_valid : list string) (current_sims : sims_store)
    (n_sims : nat) (w : entropy) :
  opt_eqb (hw_type hw) "Unsampled - Spec" = false ->
  opt_eqb (hw_type hw) "Unsampled - Implied" = false ->
  hw_analogy hw = Some GENERIC ->
  (component_samples hw samples_list = [] ->
   simulate hw samples_list current_sims n_sims w = inl TypeError)
  /\ (is_eligible samples_list samples_valid hw = true ->
      component_samples hw (samples_list_valid samples_list samples_valid)
      <> []).
Proof.
  intros Hspec Himplied Hgeneric. split.
  - intros Hnone. unfold simulate, sim_component.
    rewrite Hspec, Himplied, Hgeneric.
    change (opt_eqb (Some GENERIC) GENERIC) with true. cbv iota.
    run_lift (eq_refl (ok (@None (list R)))).
    rewrite Hnone. reflexivity.
  - unfold is_eligible. rewrite Hgeneric.
    change (opt_eqb (Some GENERIC) GENERIC) with true. simpl negb.
    cbv iota.
    destruct (component_samples hw
                (samples_list_valid samples_list samples_valid));
      [ rewrite andb_false_r; discriminate | discriminate ].
Qed.

(** X5.  When [store_sims_components] returns a store whose no-op flag
    is set, the event installs that store and keeps the rollup
    aggregates as they were: [store_sims_rollups] raises
    [PreventUpdate]. *)
Theorem noop_flag_skips_the_rollups (hardware_triggered : bool)
    (hardware_diff samples_diff : deepdiff)
    (hardware_dict : dict hardware) (samples_list : list sample)
    (hardware_prev : dict hardware) (samples_prev : list sample)
    (st : app_state) (current_sims : sims_store) (w w' : entropy) :
  store_sims_components entropy rng_beta rng_gamma rng_choice rng_poisson
    special_gamma POSTERIOR_MAP hardware_triggered hardware_diff
    samples_diff hardware_dict samples_list hardware_prev samples_prev
    (st_sims st) w
  = ok (current_sims, w') ->
  noop current_sims = true ->
  store_sims_rollups current_sims hardware_dict samples_list
  = inl PreventUpdate
  /\ process_event entropy rng_beta rng_gamma rng_choice rng_poisson
       special_gamma POSTERIOR_MAP hardware_triggered hardware_diff
       samples_diff hardware_dict samples_list hardware_prev samples_prev
       st w
     = ok ({| st_sims := current_sims; st_rollups := st_rollups st |}, w').
Proof.
  intros Hstore Hnoop.
  assert (Hrollups :
            store_sims_rollups current_sims hardware_dict samples_list
            = inl PreventUpdate).
  { unfold store_sims_components, bind, lift in Hstore.
    unfold store_sims_rollups.
    destruct (identify_valid_samples samples_list hardware_dict)
      as [e | samples_valid]; [ discriminate Hstore | ].
    simpl. rewrite Hnoop. reflexivity. }
  split; [ exact Hrollups | ].
  unfold process_event. rewrite Hstore. unfold ok. cbv beta iota.
  rewrite Hrollups. reflexivity.
Qed.

End Branches.

Lemma spec_component_witness :
  sim_component nat const_beta const_gamma first_choice const_poisson
    const_special_gamma catalog_small
    (spec_hardware "Tank" None 2 "Encapsulated, Non-metal Avg" (PyInt 4))
    [] empty_sims 1000 0%nat
  = ok ({| sim_mode_of := mode_spec; sim_link := None;
           sim_lambda := Scalar 130;
           sim_cfu_of := Scalar (130 * to_R (Int 4)) |}, 0%nat).
Proof.
  apply (proj1 (spec_component_reads_the_density_table nat const_beta
                  const_gamma first_choice const_poisson
                  const_special_gamma catalog_small
                  (spec_hardware "Tank" None 2 "Encapsulated, Non-metal Avg"
                     (PyInt 4))
                  [] empty_sims 1000
                  [ ("Encapsulated, Electronics Piece Parts", 150);
                    ("Encapsulated, Non-metal Avg", 130);
                    ("Encapsulated, Non-metal Other", 30) ]
                  "Encapsulated, Non-metal Avg" 0%nat
                  eq_refl eq_refl eq_refl) 130 (Int 4));
    reflexivity.
Defined.

Lemma implied_component_witness :
  sim_component nat const_beta const_gamma first_choice const_poisson
    const_special_gamma catalog_small
    (implied_hardware "B" None 2 "A" (PyInt 2))
    [] sims_before_delete 1000 0%nat
  = ok ({| sim_mode_of := mode_implied; sim_link := Some "A";
           sim_lambda := Vector [1; 2];
           sim_cfu_of :=
             Vector (map IZR
                       (const_counts
                          (map (fun x => x * to_R (Int 2)) [1; 2]))) |},
        1%nat).
Proof.
  apply (proj2 (implied_component_copies_the_density nat const_beta
                  const_gamma first_choice const_poisson
                  const_special_gamma catalog_small
                  (implied_hardware "B" None 2 "A" (PyInt 2))
                  [] sims_before_delete 1000 "A" 0%nat
                  eq_refl eq_refl)
           sim_of_A [1; 2] (Int 2)
           (const_counts (map (fun x => x * to_R (Int 2)) [1; 2])) 1%nat);
    reflexivity.
Defined.

Lemma generic_component_witness :
  sim_component nat const_beta const_gamma first_choice const_poisson
    const_special_gamma catalog_small component_G [] empty_sims 1000 0%nat
  = inl TypeError.
Proof.
  apply (proj1 (generic_component_needs_a_sample nat const_beta
                  const_gamma first_choice const_poisson
                  const_special_gamma catalog_small component_G
                  [] [] [] empty_sims 1000 0%nat
                  eq_refl eq_refl eq_refl));
    reflexivity.
Defined.

Lemma noop_flag_witness :
  store_sims_rollups (set_noop true sims_of_A) hardware_A_and_N []
  = inl PreventUpdate
  /\ process_event nat const_beta const_gamma first_choice const_poisson
       const_special_gamma catalog_small true diff_of_added_N no_diff
       hardware_A_and_N [] hardware_A [] state_of_A 0%nat
     = ok ({| st_sims := set_noop true sims_of_A;
              st_rollups := st_rollups state_of_A |}, 0%nat).
Proof.
  apply (noop_flag_skips_the_rollups nat const_beta const_gamma
           first_choice const_poisson const_special_gamma catalog_small
           true diff_of_added_N no_diff hardware_A_and_N [] hardware_A []
           state_of_A (set_noop true sims_of_A) 0%nat 0%nat);
    reflexivity.
Defined.

(* ------------------------------------------------------------------ *)
(** * Dictionaries *)

Lemma dict_get_In {V} (d : dict V) (k : string) (v : V) :
  dict_get d k = Some v -> In (k, v) d.
Proof.
  induction d as [ | [k' v'] d IH]; simpl; [ discriminate | ].
  destruct (String.eqb k' k) eqn:Hk.
  - apply String.eqb_eq in Hk. intros [= ->]. left. congruence.
  - intros H. right. auto.
Qed.

Lemma dict_in_get {V} (d : dict V) (k : string) :
  dict_in d k = true <-> exists v, dict_get d k = Some v.
Proof.
  unfold dict_in. destruct (dict_get d k) as [v | ].
  - split; [ eauto | reflexivity ].
  - split; [ discriminate | intros [v Hv]; discriminate ].
Qed.

Lemma dict_in_false {V} (d : dict V) (k : string) :
  dict_in d k = false <-> dict_get d k = None.
Proof.
  unfold dict_in. destruct (dict_get d k); split; congruence.
Qed.

Lemma str_in_true (s : string) (l : list string) :
  str_in s l = true <-> In s l.
Proof.
  unfold str_in. rewrite existsb_exists. split.
  - intros (x & Hin & Heq). apply String.eqb_eq in Heq. congruence.
  - intros Hin. exists s. split; [ exact Hin | apply String.eqb_refl ].
Qed.

(* ------------------------------------------------------------------ *)
(** * Efficiency parameters and valid samples *)

Lemma efficiency_entries_resolve :
  Forall (fun kv =>
            exists a b,
              get_efficiency_params (fst kv) = ok (a, b) /\ 0 < a /\ 0 < b)
         EFFICIENCY_CONFIG.
Proof.
  unfold EFFICIENCY_CONFIG.
  repeat (apply Forall_cons;
          [ do 2 eexists; split; [ reflexivity | split; lra ] | ]).
  apply Forall_nil.
Qed.

(** X6.  Every tag of [EFFICIENCY_CONFIG] resolves, through one alias at
    most, to a pair of positive Beta parameters; a tag that the table
    does not hold raises [KeyError]. *)
Theorem efficiency_params_of_every_tag (tag : string) :
  (dict_in EFFICIENCY_CONFIG tag = true ->
   exists a b,
     get_efficiency_params tag = ok (a, b) /\ 0 < a /\ 0 < b)
  /\ (dict_in EFFICIENCY_CONFIG tag = false ->
      get_efficiency_params tag = inl KeyError).
Proof.
  split.
  - intros Hin. apply dict_in_get in Hin as [entry Hentry].
    apply dict_get_In in Hentry.
    pose proof efficiency_entries_resolve as Hall.
    rewrite Forall_forall in Hall. exact (Hall _ Hentry).
  - intros Hout. apply dict_in_false in Hout.
    unfold get_efficiency_params, getitem. rewrite Hout. reflexivity.
Qed.

Lemma is_positive_number_R (v : pyval) :
  is_positive_number v = true ->
  exists n, as_number v = ok n /\ 0 < to_R n.
Proof.
  destruct v as [ | s | z | r]; simpl; try discriminate.
  - intros Hz. exists (Int z). split; [ reflexivity | ].
    apply Z.ltb_lt in Hz. simpl. apply IZR_lt in Hz. exact Hz.
  - destruct (Rlt_dec 0 r); [ | discriminate ].
    intros _. exists (Float r). split; [ reflexivity | assumption ].
Qed.

Lemma is_fraction_R (v : pyval) :
  is_fraction v = true ->
  exists n, as_number v = ok n /\ 0 < to_R n <= 1.
Proof.
  destruct v as [ | s | z | r]; simpl; try discriminate.
  - intros Hz. apply andb_prop in Hz as [Hlo Hhi].
    apply Z.ltb_lt in Hlo. apply Z.leb_le in Hhi.
    exists (Int z). split; [ reflexivity | ]. simpl.
    apply IZR_lt in Hlo. apply IZR_le in Hhi. lra.
  - destruct (Rlt_dec 0 r); [ | discriminate ].
    destruct (Rle_dec r 1); [ | discriminate ].
    intros _. exists (Float r). split; [ reflexivity | simpl; lra ].
Qed.

Lemma is_count_Z (v : pyval) :
  is_count v = true -> exists k, v = PyInt k /\ (0 <= k)%Z.
Proof.
  destruct v as [ | s | z | r]; simpl; try discriminate.
  intros Hz. apply Z.leb_le in Hz. eauto.
Qed.

(** X7.  A sample for which [detect_sample_alerts] reports nothing gives
    [sim_component] a sound row of likelihood data: a count that is a
    natural number, a positive extent, a pour fraction in (0, 1] and
    positive Beta parameters. *)
Theorem clean_sample_gives_a_sound_row (s : sample)
    (hardware_dict : dict hardware) (hw : hardware) :
  dict_get hardware_dict (s_hardware_id s) = Some hw ->
  detect_sample_alerts s hardware_dict = ok ""%string ->
  exists d,
    samples_data (area_vol_attr_of hw) [s] = ok [d]
    /\ (exists k, (0 <= k)%Z /\ d_cfu d = IZR k)
    /\ 0 < d_extent d
    /\ 0 < d_fraction d <= 1
    /\ 0 < d_alpha d /\ 0 < d_beta d.
Proof.
  intros Hhw Halert.
  unfold detect_sample_alerts, getitem in Halert.
  rewrite Hhw in Halert. unfold rbind, ok in Halert.
  cbv beta iota zeta in Halert.
  assert (Hattr :
            (if startswith_2 (hw_dim hw) then s_sampled_area s
             else s_sampled_volume s) = area_vol_attr_of hw s).
  { unfold area_vol_attr_of. destruct (startswith_2 (hw_dim hw));
      reflexivity. }
  rewrite Hattr in Halert.
  destruct (is_positive_number (area_vol_attr_of hw s)) eqn:Hextent;
    [ | discriminate Halert ].
  unfold negb in Halert. cbv beta iota in Halert.
  destruct (dict_get EFFICIENCY_CONFIG (sample_eff_tag s))
    as [entry | ] eqn:Hentry; [ | discriminate Halert ].
  destruct (params entry) as [a b | tag] eqn:Hparams;
    [ | discriminate Halert ].
  destruct (is_fraction (s_pour_fraction s)) eqn:Hfraction;
    [ | discriminate Halert ].
  destruct (is_count (s_cfu s)) eqn:Hcount; [ | discriminate Halert ].
  clear Halert Hattr.
  apply is_positive_number_R in Hextent as (extent & Hextent & Hepos).
  apply is_fraction_R in Hfraction as (fraction & Hfraction & Hfpos).
  apply is_count_Z in Hcount as (k & Hk & Hkpos).
  assert (Hget : get_efficiency_params (sample_eff_tag s) = ok (a, b)).
  { unfold get_efficiency_params, getitem. rewrite Hentry. simpl.
    rewrite Hparams. reflexivity. }
  assert (Hpos : 0 < a /\ 0 < b).
  { pose proof efficiency_entries_resolve as Hall.
    rewrite Forall_forall in Hall.
    destruct (Hall _ (dict_get_In _ _ _ Hentry)) as (a' & b' & Hab & Hpos).
    simpl fst in Hab. rewrite Hget in Hab. injection Hab as <- <-.
    exact Hpos. }
  exists {| d_cfu := IZR k; d_extent := to_R extent;
            d_fraction := to_R fraction; d_alpha := a; d_beta := b |}.
  split.
  - unfold samples_data. simpl. rewrite Hget. simpl.
    rewrite Hk, Hextent, Hfraction. reflexivity.
  - simpl. split; [ eauto | ]. tauto.
Qed.

Lemma clean_sample_witness :
  exists d,
    samples_data (area_vol_attr_of component_A) [sample_of_A] = ok [d]
    /\ (exists k, (0 <= k)%Z /\ d_cfu d = IZR k)
    /\ 0 < d_extent d
    /\ 0 < d_fraction d <= 1
    /\ 0 < d_alpha d /\ 0 < d_beta d.
Proof.
  apply (clean_sample_gives_a_sound_row sample_of_A hardware_A component_A);
    reflexivity.
Defined.

Lemma detect_sample_alerts_returns (s : sample)
    (hardware_dict : dict hardware) :
  dict_in hardware_dict (s_hardware_id s) = true ->
  exists alert, detect_sample_alerts s hardware_dict = ok alert.
Proof.
  intros Hin. apply dict_in_get in Hin as [hw Hhw].
  unfold detect_sample_alerts, getitem. rewrite Hhw.
  unfold rbind, ok. cbv beta iota zeta.
  destruct (negb (is_positive_number _)); [ eauto | ].
  destruct (dict_get EFFICIENCY_CONFIG (sample_eff_tag s)) as [entry | ];
    [ | eauto ].
  destruct (params entry); [ | eauto ].
  destruct (negb (is_fraction _)); [ eauto | ].
  destruct (negb (is_count _)); eauto.
Qed.

Lemma detect_sample_alerts_dangling (s : sample)
    (hardware_dict : dict hardware) :
  dict_in hardware_dict (s_hardware_id s) = false ->
  detect_sample_alerts s hardware_dict = inl KeyError.
Proof.
  intros Hout. apply dict_in_false in Hout.
  unfold detect_sample_alerts, getitem. rewrite Hout. reflexivity.
Qed.

Lemma identify_valid_samples_dangling (samples_list : list sample)
    (hardware_dict : dict hardware) :
  Exists (fun s => dict_in hardware_dict (s_hardware_id s) = false)
         samples_list ->
  identify_valid_samples samples_list hardware_dict = inl KeyError.
Proof.
  induction samples_list as [ | s rest IH]; intros Hex.
  - inversion Hex.
  - simpl.
    destruct (dict_in hardware_dict (s_hardware_id s)) eqn:Hs.
    + destruct (detect_sample_alerts_returns s hardware_dict Hs)
        as [alert ->].
      inversion Hex as [? ? Hs' | ? ? Hrest]; subst; [ congruence | ].
      rewrite (IH Hrest). reflexivity.
    + rewrite (detect_sample_alerts_dangling s hardware_dict Hs).
      reflexivity.
Qed.

Lemma identify_valid_samples_present (samples_list : list sample)
    (hardware_dict : dict hardware) :
  Forall (fun s => dict_in hardware_dict (s_hardware_id s) = true)
         samples_list ->
  identify_valid_samples samples_list hardware_dict
  = ok (map s_sample_id (filter (accepted hardware_dict) samples_list)).
Proof.
  induction samples_list as [ | s rest IH]; intros Hall.
  - reflexivity.
  - inversion Hall as [ | ? ? Hs Hrest]; subst.
    destruct (detect_sample_alerts_returns s hardware_dict Hs)
      as [alert Halert].
    simpl. unfold accepted at 1. rewrite Halert, (IH Hrest).
    unfold rbind, ok. cbv beta iota.
    change ((alert =? "") || ((alert =? "efficiency") || false))%bool%string
      with (str_in alert allowed_errors).
    destruct (str_in alert allowed_errors); reflexivity.
Qed.

(** X8.  [identify_valid_samples] returns, in the order of the table,
    the ids of the samples whose alert is empty or ["efficiency"]; one
    sample whose Hardware ID is not a key of the hardware makes the
    whole call raise [KeyError]. *)
Theorem identify_valid_samples_keeps_the_accepted
    (samples_list : list sample) (hardware_dict : dict hardware) :
  (Forall (fun s => dict_in hardware_dict (s_hardware_id s) = true)
          samples_list ->
   identify_valid_samples samples_list hardware_dict
   = ok (map s_sample_id (filter (accepted hardware_dict) samples_list)))
  /\ (Exists (fun s => dict_in hardware_dict (s_hardware_id s) = false)
             samples_list ->
      identify_valid_samples samples_list hardware_dict = inl KeyError).
Proof.
  split.
  - apply identify_valid_samples_present.
  - apply identify_valid_samples_dangling.
Qed.

(* ------------------------------------------------------------------ *)
(** * Edge cases of the aggregation *)

(** X9.  The aggregation depends on the order of the children.  After a
    child with an array of counts, a child whose CFU is a number with a
    fractional part cannot be added in place to the [int64] array and
    [reduce_child_results] raises [TypeError]; with the two children the
    other way round it returns. *)
Theorem aggregation_depends_on_the_order (lam counts : list R)
    (t1 s1 t2 s2 density : number) (x : R) :
  let counted :=
    ({| r_lambda := Nd false lam; r_cfu := Nd true counts;
        r_total := of_number t1; r_sampled := of_number s1 |}, empty_res) in
  let fractional :=
    ({| r_lambda := Py density; r_cfu := Py (Float x);
        r_total := of_number t2; r_sampled := of_number s2 |}, empty_res) in
  reduce_child_results [counted; fractional] = inl TypeError
  /\ exists r, reduce_child_results [fractional; counted] = ok r.
Proof.
  intros counted fractional. split.
  - unfold reduce_child_results, counted, fractional. simpl reduce_loop.
    unfold accumulate, py_iadd. simpl.
    repeat (rewrite !as_number_of_number; simpl).
    reflexivity.
  - unfold reduce_child_results, counted, fractional. simpl reduce_loop.
    unfold accumulate, py_iadd. simpl.
    repeat (rewrite !as_number_of_number; simpl).
    unfold finish. simpl.
    match goal with
    | |- context [nonzero ?n] => destruct (nonzero n)
    end; simpl; eexists; reflexivity.
Qed.

Lemma reduce_loop_of_zeros (n : nat) :
  reduce_loop accum0 accum0 (repeat (empty_res, empty_res) n)
  = ok (accum0, accum0).
Proof. induction n as [ | n IH]; simpl; [ reflexivity | exact IH ]. Qed.

Lemma rmap_constant {A B} (f : A -> result B) (l : list A) (b : B) :
  Forall (fun a => f a = ok b) l -> rmap f l = ok (repeat b (length l)).
Proof.
  induction 1 as [ | a l Ha _ IH]; simpl; [ reflexivity | ].
  rewrite Ha, IH. reflexivity.
Qed.

(** X10.  A rollup, or the project, all of whose children are ineligible
    components (or that has no child at all) gets the zero aggregate in
    both dimensions, whatever the stored simulations are. *)
Theorem ineligible_children_aggregate_to_zero (sims_in : sims_store)
    (hardware_dict : dict hardware) (samples_list : list sample)
    (samples_valid : list string)
    (sims_rollups : dict (rollup_res * rollup_res))
    (is_child : hardware -> bool) :
  Forall (fun child =>
            hw_is_component child = true
            /\ exists hw,
                 dict_get hardware_dict (hw_id child) = Some hw
                 /\ ineligible hw samples_list samples_valid = true)
         (filter is_child (values hardware_dict)) ->
  rollup_of sims_in hardware_dict samples_list samples_valid sims_rollups
    is_child
  = ok (empty_res, empty_res).
Proof.
  intros Hall. unfold rollup_of.
  rewrite (rmap_constant _ _ (empty_res, empty_res)).
  - unfold rbind, ok. cbv beta iota.
    unfold reduce_child_results. rewrite reduce_loop_of_zeros. reflexivity.
  - eapply Forall_impl; [ | exact Hall ].
    intros child (Hcomp & hw & Hhw & Hinel).
    unfold handle_child, getitem. rewrite Hcomp, Hhw. simpl.
    rewrite Hinel. reflexivity.
Qed.

Lemma ineligible_children_witness :
  rollup_of empty_sims [ ("N", new_hardware "N" None 2) ] [] [] [] is_root
  = ok (empty_res, empty_res).
Proof.
  apply (ineligible_children_aggregate_to_zero empty_sims
           [ ("N", new_hardware "N" None 2) ] [] [] [] is_root).
  repeat constructor. eexists. split; reflexivity.
Defined.

(* ------------------------------------------------------------------ *)
(** * The hierarchy and the callbacks that edit it *)

Lemma keys_skeleton (d : dict hardware) : keys (skeleton d) = keys d.
Proof.
  unfold keys, skeleton. rewrite map_map. reflexivity.
Qed.

Lemma in_skeleton (d : dict hardware) (k : string) (hw : hardware) :
  In (k, hw) d -> In (k, shape_of hw) (skeleton d).
Proof.
  intros Hin. unfold skeleton.
  apply in_map_iff. exists (k, hw). split; [ reflexivity | exact Hin ].
Qed.

Lemma skeleton_in (d : dict hardware) (k : string) (s : shape) :
  In (k, s) (skeleton d) ->
  exists hw, In (k, hw) d /\ s = shape_of hw.
Proof.
  unfold skeleton. intros Hin.
  apply in_map_iff in Hin as [[k' hw] [Heq Hin]].
  injection Heq as <- <-. eauto.
Qed.

Lemma in_values {V} (d : dict V) (v : V) :
  In v (values d) <-> exists k, In (k, v) d.
Proof.
  unfold values. rewrite in_map_iff. split.
  - intros [[k v'] [<- Hin]]. eauto.
  - intros [k Hin]. exists (k, v). auto.
Qed.

Lemma in_keys {V} (d : dict V) (k : string) (v : V) :
  In (k, v) d -> In k (keys d).
Proof.
  intros Hin. unfold keys. apply in_map_iff. exists (k, v). auto.
Qed.

Lemma NoDup_keys_eq {V} (d : dict V) (k : string) (v v' : V) :
  NoDup (keys d) -> In (k, v) d -> In (k, v') d -> v = v'.
Proof.
  induction d as [ | [k0 v0] d IH]; simpl; intros Hnodup Hv Hv';
    [ contradiction | ].
  inversion Hnodup as [ | ? ? Hnotin Hrest]; subst.
  destruct Hv as [Hv | Hv], Hv' as [Hv' | Hv'].
  - congruence.
  - injection Hv as <- <-. apply in_keys in Hv'. contradiction.
  - injection Hv' as <- <-. apply in_keys in Hv. contradiction.
  - auto.
Qed.

Lemma In_dict_get {V} (d : dict V) (k : string) (v : V) :
  NoDup (keys d) -> In (k, v) d -> dict_get d k = Some v.
Proof.
  induction d as [ | [k0 v0] d IH]; simpl; intros Hnodup Hin;
    [ contradiction | ].
  inversion Hnodup as [ | ? ? Hnotin Hrest]; subst.
  destruct Hin as [Heq | Hin].
  - injection Heq as -> ->. rewrite String.eqb_refl. reflexivity.
  - destruct (String.eqb k0 k) eqn:Hk.
    + apply String.eqb_eq in Hk. subst k0.
      apply in_keys in Hin. contradiction.
    + auto.
Qed.

Lemma dict_in_keys {V} (d : dict V) (k : string) :
  dict_in d k = true <-> In k (keys d).
Proof.
  rewrite dict_in_get. split.
  - intros [v Hv]. apply dict_get_In in Hv. eapply in_keys; eauto.
  - unfold keys. intros Hin. apply in_map_iff in Hin as [[k' v] [<- Hin]].
    induction d as [ | [k0 v0] d IH]; simpl in *; [ contradiction | ].
    destruct (String.eqb k0 k') eqn:Hk; [ eauto | ].
    destruct Hin as [Heq | Hin].
    + injection Heq as -> ->. rewrite String.eqb_refl in Hk. discriminate.
    + auto.
Qed.

Lemma dict_set_absent {V} (d : dict V) (k : string) (v : V) :
  dict_in d k = false -> dict_set d k v = d ++ [(k, v)].
Proof.
  unfold dict_in.
  induction d as [ | [k0 v0] d IH]; simpl; [ reflexivity | ].
  destruct (String.eqb k0 k); [ discriminate | ].
  intros H. rewrite (IH H). reflexivity.
Qed.

Lemma keys_dict_set_present {V} (d : dict V) (k : string) (v : V) :
  dict_in d k = true -> keys (dict_set d k v) = keys d.
Proof.
  unfold dict_in.
  induction d as [ | [k0 v0] d IH]; simpl; [ discriminate | ].
  destruct (String.eqb k0 k) eqn:Hk.
  - apply String.eqb_eq in Hk. subst. reflexivity.
  - intros H. simpl. rewrite (IH H). reflexivity.
Qed.

Lemma in_dict_set {V} (d : dict V) (k k' : string) (v v' : V) :
  NoDup (keys d) ->
  In (k', v') (dict_set d k v) ->
  (k' = k /\ v' = v) \/ (k' <> k /\ In (k', v') d).
Proof.
  induction d as [ | [k0 v0] d IH]; simpl; intros Hnodup Hin.
  - destruct Hin as [Heq | []]. injection Heq as <- <-. auto.
  - inversion Hnodup as [ | ? ? Hnotin Hrest]; subst.
    destruct (String.eqb k0 k) eqn:Hk.
    + apply String.eqb_eq in Hk. subst k0.
      destruct Hin as [Heq | Hin].
      * injection Heq as <- <-. auto.
      * right. split; [ | auto ].
        intros ->. apply in_keys in Hin. contradiction.
    + apply String.eqb_neq in Hk.
      destruct Hin as [Heq | Hin].
      * injection Heq as <- <-. right. auto.
      * destruct (IH Hrest Hin) as [? | [? ?]]; auto.
Qed.

Lemma dict_set_in_same {V} (d : dict V) (k : string) (v : V) :
  In (k, v) (dict_set d k v).
Proof.
  apply dict_get_In. apply dict_get_set_same.
Qed.

Lemma dict_set_in_other {V} (d : dict V) (k k' : string) (v v' : V) :
  k' <> k -> In (k', v') d -> In (k', v') (dict_set d k v).
Proof.
  intros Hne. induction d as [ | [k0 v0] d IH]; simpl; [ contradiction | ].
  intros [Heq | Hin].
  - injection Heq as -> ->.
    destruct (String.eqb k' k) eqn:Hk.
    + apply String.eqb_eq in Hk. contradiction.
    + left. reflexivity.
  - destruct (String.eqb k0 k); [ right; exact Hin | right; auto ].
Qed.

Lemma keys_dict_remove {V} (d : dict V) (k : string) :
  NoDup (keys d) ->
  keys (dict_remove d k)
  = filter (fun k' => negb (String.eqb k' k)) (keys d).
Proof.
  induction d as [ | [k0 v0] d IH]; simpl; intros Hnodup; [ reflexivity | ].
  inversion Hnodup as [ | ? ? Hnotin Hrest]; subst.
  destruct (String.eqb k0 k) eqn:Hk; simpl.
  - apply String.eqb_eq in Hk. subst k0.
    symmetry. apply forallb_filter_id.
    apply forallb_forall. intros k' Hk'.
    apply negb_true_iff. apply String.eqb_neq. intros ->. contradiction.
  - rewrite (IH Hrest). reflexivity.
Qed.

Lemma in_dict_remove {V} (d : dict V) (k k' : string) (v : V) :
  NoDup (keys d) ->
  In (k', v) (dict_remove d k) <-> k' <> k /\ In (k', v) d.
Proof.
  induction d as [ | [k0 v0] d IH]; simpl; intros Hnodup; [ tauto | ].
  inversion Hnodup as [ | ? ? Hnotin Hrest]; subst.
  destruct (String.eqb k0 k) eqn:Hk.
  - apply String.eqb_eq in Hk. subst k0. split.
    + intros Hin. split; [ | auto ].
      intros ->. apply in_keys in Hin. contradiction.
    + intros [Hne [Heq | Hin]]; [ congruence | exact Hin ].
  - apply String.eqb_neq in Hk. simpl. rewrite (IH Hrest). split.
    + intros [Heq | [Hne Hin]]; [ | tauto ].
      injection Heq as <- <-. auto.
    + intros [Hne [Heq | Hin]]; auto.
Qed.

Lemma skeleton_dict_set (d : dict hardware) (k : string) (hw : hardware) :
  skeleton (dict_set d k hw) = dict_set (skeleton d) k (shape_of hw).
Proof.
  induction d as [ | [k0 v0] d IH]; simpl; [ reflexivity | ].
  destruct (String.eqb k0 k); simpl; [ reflexivity | ].
  rewrite IH. reflexivity.
Qed.

Lemma skeleton_dict_remove (d : dict hardware) (k : string) :
  skeleton (dict_remove d k) = dict_remove (skeleton d) k.
Proof.
  induction d as [ | [k0 v0] d IH]; simpl; [ reflexivity | ].
  destruct (String.eqb k0 k); simpl; [ reflexivity | ].
  rewrite IH. reflexivity.
Qed.

Lemma dict_get_skeleton (d : dict hardware) (k : string) :
  dict_get (skeleton d) k = option_map shape_of (dict_get d k).
Proof.
  induction d as [ | [k0 v0] d IH]; simpl; [ reflexivity | ].
  destruct (String.eqb k0 k); [ reflexivity | exact IH ].
Qed.

Lemma dict_set_same_shape (d : dict hardware) (k : string)
    (hw hw' : hardware) :
  dict_get d k = Some hw -> shape_of hw' = shape_of hw ->
  skeleton (dict_set d k hw') = skeleton d.
Proof.
  intros Hget Hshape.
  induction d as [ | [k0 v0] d IH]; simpl in *; [ discriminate | ].
  destruct (String.eqb k0 k) eqn:Hk; simpl.
  - apply String.eqb_eq in Hk. injection Hget as ->. subst k0.
    rewrite Hshape. reflexivity.
  - rewrite (IH Hget). reflexivity.
Qed.

Lemma tree_levels (t : dict shape) (k : string) (s : shape) :
  tree_ok t -> In (k, s) t -> (2 <= sh_level s)%nat.
Proof.
  intros Hok Hin.
  destruct (truthy (sh_parent s)) eqn:Hparent.
  - destruct (tk_parents t Hok k s Hin Hparent) as (p & sp & _ & Hp & ->).
    destruct (truthy (sh_parent sp)) eqn:Hgrand.
    + destruct (tk_parents t Hok p sp Hp Hgrand) as (g & sg & _ & _ & ->).
      lia.
    + rewrite (tk_roots t Hok p sp Hp Hgrand). lia.
  - rewrite (tk_roots t Hok k s Hin Hparent). lia.
Qed.

Lemma hierarchy_ids (d : dict hardware) :
  hierarchy_ok d -> map hw_id (values d) = keys d.
Proof.
  intros Hok. unfold values, keys. rewrite map_map.
  apply map_ext_in. intros [k hw] Hin. simpl.
  apply in_skeleton in Hin.
  destruct (tk_ids _ Hok _ _ Hin) as [Hid _]. exact Hid.
Qed.

Lemma hierarchy_entry (d : dict hardware) (hw : hardware) :
  hierarchy_ok d -> In hw (values d) -> In (hw_id hw, hw) d.
Proof.
  intros Hok Hin. apply in_values in Hin as [k Hin].
  pose proof (in_skeleton _ _ _ Hin) as Hs.
  destruct (tk_ids _ Hok _ _ Hs) as [Hid _]. simpl in Hid.
  rewrite Hid. exact Hin.
Qed.

(** The invariant of the callbacks gives the hierarchy that the
    theorems on the aggregation assume. *)
Lemma hierarchy_is_well_formed (d : dict hardware) :
  hierarchy_ok d -> well_formed_tree d.
Proof.
  intros Hok.
  assert (Hkeys : NoDup (keys d))
    by (rewrite <- keys_skeleton; exact (tk_keys _ Hok)).
  split.
  - rewrite (hierarchy_ids d Hok). exact Hkeys.
  - intros child elem Hchild Helem Hparent _.
    apply (hierarchy_entry d _ Hok) in Hchild, Helem.
    pose proof (in_skeleton _ _ _ Hchild) as Hc.
    pose proof (in_skeleton _ _ _ Helem) as He.
    destruct (tk_ids _ Hok _ _ He) as (_ & Hne & _).
    unfold children_of, opt_eqb in Hparent.
    destruct (hw_parent_id child) as [p | ] eqn:Hp; [ | discriminate ].
    apply String.eqb_eq in Hparent. subst p.
    assert (Htruthy : truthy (sh_parent (shape_of child)) = true).
    { simpl. rewrite Hp. simpl. apply negb_true_iff.
      apply String.eqb_neq. exact Hne. }
    destruct (tk_parents _ Hok _ _ Hc Htruthy) as (p & sp & Hsp & Hin & Hl).
    simpl in Hsp, Hl. rewrite Hp in Hsp. injection Hsp as <-.
    rewrite (NoDup_keys_eq _ _ _ _ (tk_keys _ Hok) Hin He) in Hl.
    exact Hl.
  - intros elem Helem Hrollup.
    apply (hierarchy_entry d _ Hok) in Helem.
    apply in_skeleton in Helem.
    pose proof (tree_levels _ _ _ Hok Helem) as Hlow.
    pose proof (tk_depth _ Hok _ _ Helem Hrollup) as Hhigh.
    simpl in Hlow, Hhigh. lia.
  - intros elem Helem.
    apply (hierarchy_entry d _ Hok) in Helem.
    apply in_skeleton in Helem.
    destruct (tk_ids _ Hok _ _ Helem) as (_ & _ & Hproject).
    exact Hproject.
Qed.

Lemma has_child_true (t : dict shape) (k : string) :
  has_child t k = true
  <-> exists k' s', In (k', s') t /\ sh_parent s' = Some k.
Proof.
  unfold has_child. rewrite existsb_exists. split.
  - intros (s' & Hin & Hp). apply in_values in Hin as [k' Hin].
    exists k', s'. split; [ exact Hin | ].
    unfold opt_eqb in Hp. destruct (sh_parent s'); [ | discriminate ].
    apply String.eqb_eq in Hp. congruence.
  - intros (k' & s' & Hin & Hp). exists s'. split.
    + apply in_values. eauto.
    + rewrite Hp. simpl. apply String.eqb_refl.
Qed.

Lemma has_child_false (t : dict shape) (k : string) :
  has_child t k = false
  <-> forall k' s', In (k', s') t -> sh_parent s' <> Some k.
Proof.
  split.
  - intros Hfalse k' s' Hin Hp.
    assert (has_child t k = true) by (apply has_child_true; eauto).
    congruence.
  - intros Hall. destruct (has_child t k) eqn:Hc; [ | reflexivity ].
    apply has_child_true in Hc as (k' & s' & Hin & Hp).
    exfalso. eapply Hall; eauto.
Qed.

Lemma has_child_parents (t t' : dict shape) (k : string) :
  map sh_parent (values t) = map sh_parent (values t') ->
  has_child t k = has_child t' k.
Proof.
  intros Heq. unfold has_child.
  assert (Hgen : forall l : list shape,
             existsb (fun s => opt_eqb (sh_parent s) k) l
             = existsb (fun o => opt_eqb o k) (map sh_parent l)).
  { induction l as [ | s l IH]; simpl; [ reflexivity | ].
    rewrite IH. reflexivity. }
  rewrite !Hgen, Heq. reflexivity.
Qed.

Lemma parents_dict_set (t : dict shape) (k : string) (s s' : shape) :
  dict_get t k = Some s -> sh_parent s' = sh_parent s ->
  map sh_parent (values (dict_set t k s')) = map sh_parent (values t).
Proof.
  intros Hget Hp.
  induction t as [ | [k0 s0] t IH]; simpl in *; [ discriminate | ].
  destruct (String.eqb k0 k); simpl.
  - injection Hget as ->. rewrite Hp. reflexivity.
  - rewrite (IH Hget). reflexivity.
Qed.

Lemma NoDup_keys_remove {V} (d : dict V) (k : string) :
  NoDup (keys d) -> NoDup (keys (dict_remove d k)).
Proof.
  intros Hnodup. rewrite keys_dict_remove by assumption.
  apply NoDup_filter. exact Hnodup.
Qed.

Lemma dict_get_remove_other {V} (d : dict V) (k k' : string) :
  k' <> k -> dict_get (dict_remove d k) k' = dict_get d k'.
Proof.
  intros Hne. induction d as [ | [k0 v0] d IH]; simpl; [ reflexivity | ].
  destruct (String.eqb k0 k) eqn:Hk.
  - apply String.eqb_eq in Hk. subst k0.
    destruct (String.eqb k k') eqn:Hk'; [ | reflexivity ].
    apply String.eqb_eq in Hk'. congruence.
  - simpl. destruct (String.eqb k0 k'); [ reflexivity | exact IH ].
Qed.

(** A part of a hierarchy that is closed under parents, and in which the
    components are the leaves, is a hierarchy. *)
Lemma subtree_ok (t t' : dict shape) :
  tree_ok t ->
  NoDup (keys t') ->
  (forall k s', In (k, s') t' -> exists s, In (k, s) t /\ same_core s' s) ->
  (forall k s' p,
      In (k, s') t' -> sh_parent s' = Some p -> p <> ""%string ->
      exists sp', In (p, sp') t') ->
  (forall k s', In (k, s') t' -> sh_component s' = negb (has_child t' k)) ->
  (forall k s', In (k, s') t' -> sh_component s' = false ->
                (sh_level s' <= 5)%nat) ->
  tree_ok t'.
Proof.
  intros Hok Hkeys Hfrom Hclosed Hleaves Hdepth.
  split; try assumption.
  - intros k s' Hin.
    destruct (Hfrom _ _ Hin) as (s & Hs & Hid & _ & _).
    rewrite Hid. exact (tk_ids _ Hok _ _ Hs).
  - intros k s' Hin Hroot.
    destruct (Hfrom _ _ Hin) as (s & Hs & _ & Hp & Hl).
    rewrite Hl. apply (tk_roots _ Hok _ _ Hs). rewrite <- Hp. exact Hroot.
  - intros k s' Hin Htruthy.
    destruct (Hfrom _ _ Hin) as (s & Hs & _ & Hp & Hl).
    rewrite Hp in Htruthy.
    destruct (tk_parents _ Hok _ _ Hs Htruthy) as (p & sp & Hsp & Hpin & Hlp).
    assert (Hne : p <> ""%string).
    { rewrite Hsp in Htruthy. simpl in Htruthy.
      apply negb_true_iff in Htruthy. apply String.eqb_neq. exact Htruthy. }
    destruct (Hclosed k s' p Hin ltac:(congruence) Hne) as (sp' & Hsp').
    destruct (Hfrom _ _ Hsp') as (sp0 & Hsp0 & _ & _ & Hl0).
    rewrite (NoDup_keys_eq _ _ _ _ (tk_keys _ Hok) Hsp0 Hpin) in Hl0.
    exists p, sp'. split; [ congruence | ]. split; [ exact Hsp' | ].
    congruence.
Qed.

Lemma same_core_refl (s : shape) : same_core s s.
Proof. repeat split. Qed.

Lemma same_core_set_component (b : bool) (s : shape) :
  same_core (set_component b s) s.
Proof. repeat split. Qed.

(** The parent of an element is not the element. *)
Lemma tree_parent_differs (t : dict shape) (k : string) (s : shape) :
  tree_ok t -> In (k, s) t -> sh_parent s <> Some k.
Proof.
  intros Hok Hin Hp.
  destruct (tk_ids _ Hok _ _ Hin) as (_ & Hne & _).
  assert (Htruthy : truthy (sh_parent s) = true).
  { rewrite Hp. simpl. apply negb_true_iff. apply String.eqb_neq.
    exact Hne. }
  destruct (tk_parents _ Hok _ _ Hin Htruthy) as (p & sp & Hsp & Hpin & Hl).
  assert (p = k) by congruence. subst p.
  rewrite (NoDup_keys_eq _ _ _ _ (tk_keys _ Hok) Hpin Hin) in Hl. lia.
Qed.

Lemma delete_shape_ok (t : dict shape) (id : string) (s : shape) :
  tree_ok t -> In (id, s) t -> sh_component s = true ->
  tree_ok (delete_shape t id (sh_parent s)).
Proof.
  intros Hok Hin Hcomp.
  pose proof (tk_keys _ Hok) as Hkeys.
  pose proof (NoDup_keys_remove t id Hkeys) as Hkeys1.
  assert (Hin1 : forall k s', In (k, s') (dict_remove t id)
                              <-> k <> id /\ In (k, s') t)
    by (intros; apply in_dict_remove; exact Hkeys).
  assert (Hleaf : forall k' s', In (k', s') t -> sh_parent s' <> Some id).
  { apply has_child_false.
    pose proof (tk_leaves _ Hok _ _ Hin) as Hl. rewrite Hcomp in Hl.
    destruct (has_child t id); [ discriminate | reflexivity ]. }
  (* the children that the other elements keep *)
  assert (Hchildren : forall k,
             sh_parent s <> Some k ->
             has_child (dict_remove t id) k = has_child t k).
  { intros k Hk.
    destruct (has_child t k) eqn:Hc.
    - apply has_child_true in Hc as (k' & s' & Hs' & Hp).
      apply has_child_true. exists k', s'. split; [ | exact Hp ].
      apply Hin1. split; [ | exact Hs' ].
      intros ->. rewrite (NoDup_keys_eq _ _ _ _ Hkeys Hs' Hin) in Hp.
      contradiction.
    - apply has_child_false. intros k' s' Hs' Hp.
      apply Hin1 in Hs' as [_ Hs'].
      rewrite has_child_false in Hc. exact (Hc _ _ Hs' Hp). }
  assert (Hclosed1 : forall k s' p,
             In (k, s') (dict_remove t id) -> sh_parent s' = Some p ->
             p <> ""%string ->
             exists sp', In (p, sp') (dict_remove t id)).
  { intros k s' p Hs' Hp Hne. apply Hin1 in Hs' as [_ Hs'].
    assert (Htruthy : truthy (sh_parent s') = true).
    { rewrite Hp. simpl. apply negb_true_iff. apply String.eqb_neq.
      exact Hne. }
    destruct (tk_parents _ Hok _ _ Hs' Htruthy)
      as (p' & sp & Hsp & Hpin & _).
    assert (p' = p) by congruence. subst p'.
    exists sp. apply Hin1. split; [ | exact Hpin ].
    intros ->. exact (Hleaf _ _ Hs' Hp). }
  unfold delete_shape.
  destruct (sh_parent s) as [p | ] eqn:Hparent.
  - destruct (negb (String.eqb p "") && negb (has_child (dict_remove t id) p))
      eqn:Hcoerce.
    + apply andb_true_iff in Hcoerce as [Hne Hlast].
      apply negb_true_iff in Hne, Hlast. apply String.eqb_neq in Hne.
      assert (Htruthy : truthy (sh_parent s) = true).
      { rewrite Hparent. simpl. apply negb_true_iff.
        apply String.eqb_neq. exact Hne. }
      destruct (tk_parents _ Hok _ _ Hin Htruthy)
        as (p' & sp & Hsp & Hpin & _).
      assert (p' = p) by congruence. subst p'.
      assert (Hpid : p <> id).
      { intros ->. apply (tree_parent_differs t id s Hok Hin).
        exact Hparent. }
      assert (Hget : dict_get (dict_remove t id) p = Some sp).
      { apply In_dict_get; [ exact Hkeys1 | ].
        apply Hin1. split; assumption. }
      rewrite Hget.
      assert (Hpresent : dict_in (dict_remove t id) p = true)
        by (apply dict_in_get; eauto).
      assert (Hin2 : forall k s2,
                 In (k, s2) (dict_set (dict_remove t id) p
                               (set_component true sp))
                 -> (k = p /\ s2 = set_component true sp)
                    \/ (k <> p /\ In (k, s2) (dict_remove t id)))
        by (intros; apply in_dict_set; assumption).
      assert (Hchild2 : forall k,
                 has_child (dict_set (dict_remove t id) p
                              (set_component true sp)) k
                 = has_child (dict_remove t id) k).
      { intros k. apply has_child_parents.
        apply (parents_dict_set _ _ sp); [ exact Hget | reflexivity ]. }
      apply (subtree_ok t); try assumption.
      * rewrite keys_dict_set_present by assumption. exact Hkeys1.
      * intros k s2 Hs2.
        destruct (Hin2 _ _ Hs2) as [[-> ->] | [_ Hs1]].
        -- exists sp. split; [ exact Hpin | ].
           apply same_core_set_component.
        -- apply Hin1 in Hs1 as [_ Hs1].
           exists s2. split; [ exact Hs1 | apply same_core_refl ].
      * intros k s2 q Hs2 Hq Hqne.
        assert (Hq1 : exists sq, In (q, sq) (dict_remove t id)).
        { destruct (Hin2 _ _ Hs2) as [[-> ->] | [_ Hs1]].
          - apply (Hclosed1 p sp q); [ | exact Hq | exact Hqne ].
            apply Hin1. split; assumption.
          - exact (Hclosed1 _ _ _ Hs1 Hq Hqne). }
        destruct Hq1 as (sq & Hsq).
        destruct (String.eqb q p) eqn:Hqp.
        -- apply String.eqb_eq in Hqp. subst q.
           exists (set_component true sp). apply dict_set_in_same.
        -- apply String.eqb_neq in Hqp.
           exists sq. apply dict_set_in_other; assumption.
      * intros k s2 Hs2. rewrite Hchild2.
        destruct (Hin2 _ _ Hs2) as [[-> ->] | [Hkp Hs1]].
        -- simpl. rewrite Hlast. reflexivity.
        -- rewrite Hchildren by congruence.
           apply Hin1 in Hs1 as [_ Hs1].
           exact (tk_leaves _ Hok _ _ Hs1).
      * intros k s2 Hs2 Hrollup.
        destruct (Hin2 _ _ Hs2) as [[-> ->] | [_ Hs1]];
          [ discriminate Hrollup | ].
        apply Hin1 in Hs1 as [_ Hs1].
        exact (tk_depth _ Hok _ _ Hs1 Hrollup).
    + apply (subtree_ok t); try assumption.
      * intros k s' Hs'. apply Hin1 in Hs' as [_ Hs'].
        exists s'. split; [ exact Hs' | apply same_core_refl ].
      * intros k s' Hs'.
        pose proof Hs' as Hs1. apply Hin1 in Hs1 as [_ Hs1].
        rewrite (tk_leaves _ Hok _ _ Hs1). f_equal.
        destruct (String.eqb p k) eqn:Hpk.
        -- apply String.eqb_eq in Hpk. subst k.
           destruct (tk_ids _ Hok _ _ Hs1) as (_ & Hne & _).
           apply String.eqb_neq in Hne. rewrite Hne in Hcoerce.
           simpl in Hcoerce. apply negb_false_iff in Hcoerce.
           rewrite Hcoerce. apply has_child_true.
           exists id, s. auto.
        -- apply String.eqb_neq in Hpk. symmetry. apply Hchildren.
           congruence.
      * intros k s' Hs' Hrollup. apply Hin1 in Hs' as [_ Hs'].
        exact (tk_depth _ Hok _ _ Hs' Hrollup).
  - apply (subtree_ok t); try assumption.
    + intros k s' Hs'. apply Hin1 in Hs' as [_ Hs'].
      exists s'. split; [ exact Hs' | apply same_core_refl ].
    + intros k s' Hs'.
      pose proof Hs' as Hs1. apply Hin1 in Hs1 as [_ Hs1].
      rewrite (tk_leaves _ Hok _ _ Hs1). f_equal.
      symmetry. apply Hchildren. discriminate.
    + intros k s' Hs' Hrollup. apply Hin1 in Hs' as [_ Hs'].
      exact (tk_depth _ Hok _ _ Hs' Hrollup).
Qed.

Lemma dict_in_set {V} (d : dict V) (k k' : string) (v : V) :
  dict_in (dict_set d k v) k' = dict_in d k' || String.eqb k k'.
Proof.
  unfold dict_in.
  destruct (String.eqb k k') eqn:Hk.
  - apply String.eqb_eq in Hk. subst k'.
    rewrite dict_get_set_same. rewrite orb_true_r. reflexivity.
  - apply String.eqb_neq in Hk.
    rewrite dict_get_set_other by assumption.
    rewrite orb_false_r. reflexivity.
Qed.

Lemma invalidate_implied_returns (l : list hardware) :
  forall d : dict hardware,
    Forall (fun hw => dict_in d (hw_id hw) = true) l ->
    exists d', invalidate_implied l d = ok d'.
Proof.
  induction l as [ | a l IH]; intros d Hall; simpl.
  - eauto.
  - inversion Hall as [ | ? ? Ha Hl]; subst.
    apply dict_in_get in Ha as [cur Hcur].
    unfold getitem. rewrite Hcur. simpl.
    apply IH. eapply Forall_impl; [ | exact Hl ].
    intros hw Hhw. simpl in Hhw. rewrite dict_in_set, Hhw. reflexivity.
Qed.

Lemma invalidate_implied_skeleton (l : list hardware) :
  forall d d' : dict hardware,
    invalidate_implied l d = ok d' -> skeleton d' = skeleton d.
Proof.
  induction l as [ | a l IH]; intros d d' H; simpl in H.
  - injection H as <-. reflexivity.
  - unfold getitem in H.
    destruct (dict_get d (hw_id a)) as [cur | ] eqn:Hcur;
      [ | discriminate H ].
    simpl in H. rewrite (IH _ _ H).
    apply (dict_set_same_shape d (hw_id a) cur); [ exact Hcur | reflexivity ].
Qed.

(** Every entry either is one of the elements of [l] with its link
    cleared, or is left as it was. *)
Lemma invalidate_implied_entries (l : list hardware) :
  forall d d' : dict hardware,
    NoDup (keys d) ->
    invalidate_implied l d = ok d' ->
    forall k hw',
      In (k, hw') d' ->
      exists hw,
        In (k, hw) d
        /\ ((In k (map hw_id l) /\ hw' = with_validity false None hw)
            \/ (~ In k (map hw_id l) /\ hw' = hw)).
Proof.
  induction l as [ | a l IH]; intros d d' Hnodup H k hw' Hin; simpl in H.
  - injection H as <-. exists hw'. split; [ exact Hin | ].
    right. split; [ intros [] | reflexivity ].
  - unfold getitem in H.
    destruct (dict_get d (hw_id a)) as [cur | ] eqn:Hcur;
      [ | discriminate H ].
    simpl in H.
    assert (Hpresent : dict_in d (hw_id a) = true)
      by (apply dict_in_get; eauto).
    assert (Hnodup1 :
              NoDup (keys (dict_set d (hw_id a)
                             (with_validity false None cur))))
      by (rewrite keys_dict_set_present; assumption).
    destruct (IH _ _ Hnodup1 H k hw' Hin) as (hw1 & Hin1 & Hcase).
    apply in_dict_set in Hin1; [ | exact Hnodup ].
    destruct Hin1 as [[-> ->] | [Hne Hin1]].
    + exists cur. split; [ apply dict_get_In; exact Hcur | ].
      left. split; [ left; reflexivity | ].
      destruct Hcase as [[_ ->] | [_ ->]]; reflexivity.
    + exists hw1. split; [ exact Hin1 | ].
      destruct Hcase as [[Hk ->] | [Hk ->]].
      * left. split; [ right; exact Hk | reflexivity ].
      * right. split; [ | reflexivity ].
        intros [Heq | Hk']; [ congruence | contradiction ].
Qed.

Lemma siblings_none (d : dict hardware) (p : string) :
  filter (fun hw => opt_eqb (hw_parent_id hw) p) (values d) = []
  <-> has_child (skeleton d) p = false.
Proof.
  unfold has_child, values, skeleton. rewrite map_map. simpl.
  induction d as [ | [k hw] d IH]; simpl; [ tauto | ].
  destruct (opt_eqb (hw_parent_id hw) p); simpl.
  - split; discriminate.
  - exact IH.
Qed.

Lemma keys_delete_shape (t : dict shape) (id : string)
    (parent : option string) :
  keys (delete_shape t id parent) = keys (dict_remove t id).
Proof.
  unfold delete_shape. destruct parent as [p | ]; [ | reflexivity ].
  destruct (negb (String.eqb p "") && negb (has_child (dict_remove t id) p));
    [ | reflexivity ].
  destruct (dict_get (dict_remove t id) p) as [sp | ] eqn:Hget;
    [ | reflexivity ].
  apply keys_dict_set_present. apply dict_in_get. eauto.
Qed.

Lemma filter_twice {A} (f : A -> bool) (l : list A) :
  filter f (filter f l) = filter f l.
Proof.
  induction l as [ | a l IH]; simpl; [ reflexivity | ].
  destruct (f a) eqn:Ha; simpl; [ rewrite Ha, IH | ]; auto.
Qed.

(** The step of [hardware_delete_confirm] that turns a parent left
    without child into a component. *)
Lemma delete_coerce_step (d : dict hardware) (id : string) (hw : hardware) :
  hierarchy_ok d -> dict_get d id = Some hw ->
  exists d2 notes,
    match hw_parent_id hw with
    | Some parent_id =>
        if negb (String.eqb parent_id "") then
          match filter (fun hw => opt_eqb (hw_parent_id hw) parent_id)
                       (values (dict_remove d id)) with
          | [] =>
              (parent <- getitem (dict_remove d id) parent_id ;;
               ok (dict_set (dict_remove d id) parent_id
                     (coerce_to_component parent),
                   [coerced_message parent_id (hw_id hw)]))%res
          | _ :: _ => ok (dict_remove d id, [])
          end
        else ok (dict_remove d id, [])
    | None => ok (dict_remove d id, [])
    end = ok (d2, notes)
    /\ skeleton d2 = delete_shape (skeleton d) id (hw_parent_id hw)
    /\ forall k hw2,
         In (k, hw2) d2 ->
         hw_implied_id hw2 = None
         \/ (k <> id /\ In (k, hw2) d).
Proof.
  intros Hok Hget.
  assert (Hkeys : NoDup (keys d))
    by (rewrite <- keys_skeleton; exact (tk_keys _ Hok)).
  assert (Hrest : forall k hw2,
             In (k, hw2) (dict_remove d id) ->
             hw_implied_id hw2 = None \/ (k <> id /\ In (k, hw2) d)).
  { intros k hw2 Hin. right. apply in_dict_remove in Hin; assumption. }
  unfold delete_shape. rewrite <- skeleton_dict_remove.
  destruct (hw_parent_id hw) as [p | ] eqn:Hparent.
  - destruct (negb (String.eqb p "")) eqn:Hne; simpl.
    + destruct (filter (fun hw0 => opt_eqb (hw_parent_id hw0) p)
                       (values (dict_remove d id))) as [ | x l] eqn:Hsib.
      * apply siblings_none in Hsib. rewrite Hsib. simpl.
        (* the parent exists *)
        apply dict_get_In in Hget.
        pose proof (in_skeleton _ _ _ Hget) as Hs.
        assert (Htruthy : truthy (sh_parent (shape_of hw)) = true).
        { simpl. rewrite Hparent. simpl. exact Hne. }
        destruct (tk_parents _ Hok _ _ Hs Htruthy)
          as (p' & sp & Hsp & Hpin & _).
        simpl in Hsp. rewrite Hparent in Hsp. injection Hsp as <-.
        apply skeleton_in in Hpin as (parent & Hpin & ->).
        assert (Hpid : p <> id).
        { intros ->. apply (tree_parent_differs _ _ _ Hok Hs).
          simpl. exact Hparent. }
        assert (Hgetp : dict_get (dict_remove d id) p = Some parent).
        { rewrite dict_get_remove_other by congruence.
          apply In_dict_get; assumption. }
        unfold getitem. rewrite Hgetp. simpl.
        exists (dict_set (dict_remove d id) p (coerce_to_component parent)),
          [coerced_message p (hw_id hw)].
        split; [ reflexivity | ]. split.
        -- rewrite skeleton_dict_set, dict_get_skeleton, Hgetp.
           reflexivity.
        -- intros k hw2 Hin.
           apply in_dict_set in Hin; [ | apply NoDup_keys_remove; exact Hkeys ].
           destruct Hin as [[-> ->] | [_ Hin]]; [ left; reflexivity | ].
           exact (Hrest _ _ Hin).
      * assert (Hsome : has_child (skeleton (dict_remove d id)) p = true).
        { destruct (has_child (skeleton (dict_remove d id)) p) eqn:Hc;
            [ reflexivity | ].
          apply siblings_none in Hc. congruence. }
        rewrite Hsome. simpl.
        exists (dict_remove d id), []. auto.
    + exists (dict_remove d id), []. auto.
  - exists (dict_remove d id), []. auto.
Qed.

Lemma hardware_delete_confirm_steps (d d2 d3 : dict hardware)
    (samples_list : list sample) (id : string) (hw : hardware)
    (notes : list string) :
  dict_get d id = Some hw ->
  match hw_parent_id hw with
  | Some parent_id =>
      if negb (String.eqb parent_id "") then
        match filter (fun hw => opt_eqb (hw_parent_id hw) parent_id)
                     (values (dict_remove d id)) with
        | [] =>
            (parent <- getitem (dict_remove d id) parent_id ;;
             ok (dict_set (dict_remove d id) parent_id
                   (coerce_to_component parent),
                 [coerced_message parent_id (hw_id hw)]))%res
        | _ :: _ => ok (dict_remove d id, [])
        end
      else ok (dict_remove d id, [])
  | None => ok (dict_remove d id, [])
  end = ok (d2, notes) ->
  invalidate_implied
    (filter (fun hw => opt_eqb (hw_implied_id hw) id) (values d2)) d2
  = ok d3 ->
  hardware_delete_confirm id d samples_list
  = ok (d3,
        filter (fun s => negb (String.eqb (s_hardware_id s) id)) samples_list,
        notes).
Proof.
  intros Hget Hstep Hinv.
  unfold hardware_delete_confirm, getitem at 1. rewrite Hget.
  unfold rbind at 1. unfold ok at 1. cbv beta iota zeta.
  rewrite Hstep. unfold rbind at 1. unfold ok at 1. cbv beta iota.
  simpl fst. simpl snd. rewrite Hinv.
  unfold rbind, ok. cbv beta iota. rewrite filter_twice. reflexivity.
Qed.

(** What [hardware_delete_confirm] does to a component of a well-formed
    hierarchy. *)
Lemma hardware_delete_confirm_of_component (d : dict hardware)
    (samples_list : list sample) (id : string) (hw : hardware) :
  hierarchy_ok d ->
  dict_get d id = Some hw ->
  hw_is_component hw = true ->
  exists d' notes,
    hardware_delete_confirm id d samples_list
    = ok (d',
          filter (fun s => negb (String.eqb (s_hardware_id s) id))
                 samples_list,
          notes)
    /\ hierarchy_ok d'
    /\ keys d' = filter (fun k => negb (String.eqb k id)) (keys d)
    /\ Forall (fun hw' => opt_eqb (hw_implied_id hw') id = false)
              (values d').
Proof.
  intros Hok Hget Hcomp.
  assert (Hkeys : NoDup (keys d))
    by (rewrite <- keys_skeleton; exact (tk_keys _ Hok)).
  destruct (delete_coerce_step d id hw Hok Hget)
    as (d2 & notes & Hstep & Hskel & Hentries).
  assert (Hok2 : hierarchy_ok d2).
  { unfold hierarchy_ok. rewrite Hskel.
    apply (delete_shape_ok (skeleton d) id (shape_of hw) Hok).
    - apply in_skeleton. apply dict_get_In. exact Hget.
    - exact Hcomp. }
  assert (Hkeys2 : NoDup (keys d2))
    by (rewrite <- keys_skeleton; exact (tk_keys _ Hok2)).
  destruct (invalidate_implied_returns
              (filter (fun hw0 => opt_eqb (hw_implied_id hw0) id)
                      (values d2)) d2) as (d3 & Hinv).
  { apply Forall_forall. intros hw0 Hin.
    apply filter_In in Hin as [Hin _].
    apply (hierarchy_entry d2 _ Hok2) in Hin.
    apply dict_in_keys. eapply in_keys. exact Hin. }
  pose proof (invalidate_implied_skeleton _ _ _ Hinv) as Hskel3.
  exists d3, notes.
  split; [ eapply hardware_delete_confirm_steps; eassumption | ].
  split; [ unfold hierarchy_ok; rewrite Hskel3; exact Hok2 | ].
  split.
  - rewrite <- (keys_skeleton d3), Hskel3, Hskel, keys_delete_shape.
    rewrite keys_dict_remove by (exact (tk_keys _ Hok)).
    rewrite keys_skeleton. reflexivity.
  - apply Forall_forall. intros hw' Hin.
    apply in_values in Hin as [k Hin].
    destruct (invalidate_implied_entries _ _ _ Hkeys2 Hinv _ _ Hin)
      as (hw2 & Hin2 & [[_ ->] | [Hnot ->]]); [ reflexivity | ].
    destruct (opt_eqb (hw_implied_id hw2) id) eqn:Himplied;
      [ | reflexivity ].
    exfalso. apply Hnot. apply in_map_iff. exists hw2. split.
    + pose proof (in_skeleton _ _ _ Hin2) as Hs.
      destruct (tk_ids _ Hok2 _ _ Hs) as [Hid _]. exact Hid.
    + apply filter_In. split; [ | exact Himplied ].
      apply in_values. eauto.
Qed.

(** X11.  Deleting a component of a well-formed hierarchy returns; the
    hierarchy that is left is well-formed (a parent left without child
    has become a component); the element deleted is the only key that
    disappears; and the samples of the element are removed, the others
    kept in their order. *)
Theorem delete_of_a_component_keeps_the_hierarchy (d : dict hardware)
    (samples_list : list sample) (id : string) (hw : hardware) :
  hierarchy_ok d ->
  dict_get d id = Some hw ->
  hw_is_component hw = true ->
  exists d' notes,
    hardware_delete_confirm id d samples_list
    = ok (d',
          filter (fun s => negb (String.eqb (s_hardware_id s) id))
                 samples_list,
          notes)
    /\ hierarchy_ok d'
    /\ well_formed_tree d'
    /\ keys d' = filter (fun k => negb (String.eqb k id)) (keys d).
Proof.
  intros Hok Hget Hcomp.
  destruct (hardware_delete_confirm_of_component d samples_list id hw
              Hok Hget Hcomp) as (d' & notes & Hdel & Hok' & Hkeys & _).
  exists d', notes.
  split; [ exact Hdel | ]. split; [ exact Hok' | ].
  split; [ apply hierarchy_is_well_formed; exact Hok' | exact Hkeys ].
Qed.

Lemma filter_none {A} (f : A -> bool) (l : list A) :
  Forall (fun a => f a = false) l -> filter f l = [].
Proof.
  induction 1 as [ | a l Ha _ IH]; simpl; [ reflexivity | ].
  rewrite Ha. exact IH.
Qed.

(** X12.  After [hardware_delete_confirm] has deleted a component, the
    hardware no longer tells which elements were implied from it:
    [find_implied_hardware] on the element deleted finds nothing, and
    the removal event deletes the simulation of the element only, so
    that the simulations of its dependents stay in the store. *)
Theorem removal_keeps_the_records_of_the_dependents (d d' : dict hardware)
    (samples_list samples' : list sample) (samples_valid : list string)
    (id : string) (hw : hardware) (notes : list string)
    (current_sims : sims_store) :
  hierarchy_ok d ->
  dict_get d id = Some hw ->
  hw_is_component hw = true ->
  hardware_delete_confirm id d samples_list = ok (d', samples', notes) ->
  dict_in (sims current_sims) id = true ->
  find_implied_hardware hw d' = []
  /\ hardware_removed d' d samples' samples_valid [ [KStr id] ]
       current_sims
     = ok {| noop := false; sims := dict_remove (sims current_sims) id |}.
Proof.
  intros Hok Hget Hcomp Hdel Hsim.
  destruct (hardware_delete_confirm_of_component d samples_list id hw
              Hok Hget Hcomp) as (d0 & notes0 & Hdel0 & _ & _ & Hlinks).
  rewrite Hdel in Hdel0. injection Hdel0 as -> _ _.
  assert (Hid : hw_id hw = id).
  { apply dict_get_In in Hget. apply in_skeleton in Hget.
    destruct (tk_ids _ Hok _ _ Hget) as [Hid _]. exact Hid. }
  assert (Hnone : find_implied_hardware hw d0 = []).
  { unfold find_implied_hardware.
    destruct (negb (hw_valid hw) || negb (opt_eqb (hw_type hw) "Sampled"));
      [ reflexivity | ].
    apply filter_none. rewrite Hid.
    eapply Forall_impl; [ | exact Hlinks ].
    intros hw' Hlink. simpl in Hlink. rewrite Hlink.
    apply andb_false_r. }
  split; [ exact Hnone | ].
  unfold hardware_removed. simpl rmap. unfold getitem. rewrite Hget.
  simpl. unfold removed_step. simpl snd. rewrite Hnone, Hid, Hsim.
  destruct (is_eligible samples' samples_valid hw); simpl;
    unfold del_sim, delitem; rewrite Hsim; reflexivity.
Qed.

Lemma in_relabel (t : dict shape) (k : string) (s' : shape) :
  In (k, s') (relabel t)
  <-> exists s,
        In (k, s) t /\ s' = set_component (negb (has_child t k)) s.
Proof.
  unfold relabel. rewrite in_map_iff. split.
  - intros [[k0 s] [Heq Hin]]. simpl in Heq. injection Heq as <- <-. eauto.
  - intros [s [Hin ->]]. exists (k, s). auto.
Qed.

Lemma keys_relabel (t : dict shape) : keys (relabel t) = keys t.
Proof. unfold keys, relabel. rewrite map_map. reflexivity. Qed.

Lemma has_child_relabel (t : dict shape) (k : string) :
  has_child (relabel t) k = has_child t k.
Proof.
  apply has_child_parents. unfold values, relabel. rewrite !map_map.
  reflexivity.
Qed.

Lemma truthy_some (p : string) : truthy (Some p) = true <-> p <> ""%string.
Proof.
  simpl. rewrite negb_true_iff. apply String.eqb_neq.
Qed.

(** The shapes after an element has been recorded under a parent of
    level 5 at most, or under no parent. *)
Lemma record_shape_ok (t : dict shape) (n : string) (par : option string)
    (level : nat) :
  tree_ok t ->
  ~ In n (keys t) -> n <> ""%string -> n <> PROJECT ->
  (truthy par = false /\ level = 2%nat)
  \/ (exists p sp,
         par = Some p /\ In (p, sp) t /\ level = S (sh_level sp)
         /\ (sh_level sp <= 5)%nat) ->
  tree_ok (relabel (t ++ [(n, {| sh_id := n; sh_parent := par;
                                  sh_level := level;
                                  sh_component := true |})])).
Proof.
  intros Hok Hfresh Hne Hproject Hpar.
  pose proof (tk_keys _ Hok) as Hkeys.
  set (sn := {| sh_id := n; sh_parent := par; sh_level := level;
                sh_component := true |}).
  set (t1 := t ++ [(n, sn)]).
  assert (Hin1 : forall k s, In (k, s) t1
                             <-> In (k, s) t \/ (k = n /\ s = sn)).
  { intros k s. unfold t1. rewrite in_app_iff. simpl. split.
    - intros [H | [H | []]]; [ auto | ]. injection H as <- <-. auto.
    - intros [H | [-> ->]]; auto. }
  assert (Hkey_ne : forall k s, In (k, s) t -> k <> n).
  { intros k s Hin ->. apply Hfresh. eapply in_keys. exact Hin. }
  assert (Htruthy_par :
            truthy par = true ->
            exists p sp,
              par = Some p /\ In (p, sp) t /\ level = S (sh_level sp)
              /\ (sh_level sp <= 5)%nat).
  { intros Ht. destruct Hpar as [[Hf _] | H]; [ congruence | exact H ]. }
  (* no element is a child of the new one *)
  assert (Hnochild : has_child t1 n = false).
  { apply has_child_false. intros k s Hin Hp.
    assert (Ht : truthy (sh_parent s) = true)
      by (rewrite Hp; apply truthy_some; exact Hne).
    apply Hin1 in Hin as [Hin | [-> ->]].
    - destruct (tk_parents _ Hok _ _ Hin Ht) as (p & sp & Hsp & Hpin & _).
      assert (p = n) by congruence. subst p.
      exact (Hkey_ne _ _ Hpin eq_refl).
    - destruct (Htruthy_par Ht) as (p & sp & Hsp & Hpin & _).
      simpl in Hp. assert (p = n) by congruence. subst p.
      exact (Hkey_ne _ _ Hpin eq_refl). }
  split.
  - rewrite keys_relabel. unfold t1, keys. rewrite map_app. simpl.
    apply NoDup_app; [ exact Hkeys | repeat constructor; intros [] | ].
    intros k Hk [<- | []]. exact (Hfresh Hk).
  - intros k s' Hin. apply in_relabel in Hin as (s & Hin & ->). simpl.
    apply Hin1 in Hin as [Hin | [-> ->]].
    + exact (tk_ids _ Hok _ _ Hin).
    + simpl. auto.
  - intros k s' Hin Hroot. apply in_relabel in Hin as (s & Hin & ->).
    simpl in *. apply Hin1 in Hin as [Hin | [-> ->]].
    + exact (tk_roots _ Hok _ _ Hin Hroot).
    + simpl in *. destruct Hpar as [[_ ->] | (p & sp & -> & Hpin & _)];
        [ reflexivity | ].
      destruct (tk_ids _ Hok _ _ Hpin) as (_ & Hpne & _).
      apply truthy_some in Hpne. congruence.
  - intros k s' Hin Ht. apply in_relabel in Hin as (s & Hin & ->).
    simpl in *.
    assert (Hparent : exists p sp,
               sh_parent s = Some p /\ In (p, sp) t
               /\ sh_level s = S (sh_level sp)).
    { apply Hin1 in Hin as [Hin | [-> ->]].
      - exact (tk_parents _ Hok _ _ Hin Ht).
      - destruct (Htruthy_par Ht) as (p & sp & Hsp & Hpin & Hl & _).
        exists p, sp. auto. }
    destruct Hparent as (p & sp & Hsp & Hpin & Hl).
    exists p, (set_component (negb (has_child t1 p)) sp).
    split; [ exact Hsp | ]. split; [ | exact Hl ].
    apply in_relabel. exists sp. split; [ | reflexivity ].
    apply Hin1. auto.
  - intros k s' Hin. rewrite has_child_relabel.
    apply in_relabel in Hin as (s & _ & ->). reflexivity.
  - intros k s' Hin Hrollup. apply in_relabel in Hin as (s & Hin & ->).
    cbn [set_component sh_component sh_level] in *.
    apply negb_false_iff in Hrollup.
    apply Hin1 in Hin as [Hin | [-> ->]]; [ | congruence ].
    apply has_child_true in Hrollup as (k' & c & Hc & Hp).
    apply Hin1 in Hc as [Hc | [-> ->]].
    + apply (tk_depth _ Hok _ _ Hin).
      rewrite (tk_leaves _ Hok _ _ Hin). apply negb_false_iff.
      apply has_child_true. eauto.
    + simpl in Hp.
      destruct (tk_ids _ Hok _ _ Hin) as (_ & Hkne & _).
      assert (Ht : truthy par = true)
        by (rewrite Hp; apply truthy_some; exact Hkne).
      destruct (Htruthy_par Ht) as (p & sp & Hsp & Hpin & _ & Hle).
      assert (p = k) by congruence. subst p.
      rewrite (NoDup_keys_eq _ _ _ _ Hkeys Hin Hpin). exact Hle.
Qed.

Lemma str_in_parent_ids (d : dict hardware) (k : string) :
  str_in k (parent_ids d) = has_child (skeleton d) k.
Proof.
  unfold str_in, parent_ids, has_child, values, skeleton.
  rewrite !map_map. simpl.
  induction d as [ | [k0 hw] d IH]; simpl; [ reflexivity | ].
  rewrite existsb_app, IH.
  destruct (hw_parent_id hw) as [p | ]; simpl; [ | reflexivity ].
  rewrite orb_false_r, String.eqb_sym. reflexivity.
Qed.

Lemma skeleton_mark_component (d : dict hardware) :
  skeleton
    (map (mark_component (fun k => negb (str_in k (parent_ids d)))) d)
  = relabel (skeleton d).
Proof.
  unfold relabel, skeleton at 1 3. rewrite !map_map.
  apply map_ext. intros [k hw]. unfold mark_component. simpl.
  rewrite str_in_parent_ids. f_equal.
  destruct (hw_is_component hw && negb (negb (has_child (skeleton d) k)));
    reflexivity.
Qed.

Lemma find_by_id (d : dict hardware) (hw : hardware) :
  hierarchy_ok d -> In hw (values d) ->
  find (fun hw' => opt_eqb (Some (hw_id hw)) (hw_id hw')) (values d)
  = Some hw.
Proof.
  intros Hok Hin.
  destruct (find (fun hw' => opt_eqb (Some (hw_id hw)) (hw_id hw'))
                 (values d)) as [hw' | ] eqn:Hfind.
  - apply find_some in Hfind as [Hin' Heq]. simpl in Heq.
    apply String.eqb_eq in Heq. f_equal.
    apply (hierarchy_entry d _ Hok) in Hin, Hin'. rewrite Heq in Hin.
    assert (Hkeys : NoDup (keys d))
      by (rewrite <- keys_skeleton; exact (tk_keys _ Hok)).
    exact (NoDup_keys_eq _ _ _ _ Hkeys Hin' Hin).
  - pose proof (find_none _ _ Hfind hw Hin) as Hnone. simpl in Hnone.
    rewrite String.eqb_refl in Hnone. discriminate.
Qed.

(** What [hardware_record] does with a fresh id in a well-formed
    hierarchy. *)
Lemma hardware_record_of_fresh_id (d : dict hardware)
    (samples_list : list sample) (n : string) (par : option string) :
  hierarchy_ok d ->
  dict_in d n = false -> n <> ""%string -> n <> PROJECT ->
  truthy par = false
  \/ (exists p,
         par = Some p /\ In p (hardware_options_parent d samples_list)) ->
  exists d' notes level,
    hardware_record d n par = inr (d', notes)
    /\ hierarchy_ok d'
    /\ keys d' = keys d ++ [n]
    /\ dict_get d' n = Some (recorded_hardware n par level).
Proof.
  intros Hok Hfresh Hne Hproject Hpar.
  assert (Hkeys : NoDup (keys d))
    by (rewrite <- keys_skeleton; exact (tk_keys _ Hok)).
  (* the level that the callback computes *)
  assert (Hlevel : exists level,
             (if negb (truthy par) then inr 2%nat
              else match find (fun hw => opt_eqb par (hw_id hw))
                              (values d) with
                   | Some parent => inr (hw_level parent + 1)%nat
                   | None => inl StopIteration
                   end) = inr level
             /\ ((truthy par = false /\ level = 2%nat)
                 \/ (exists p sp,
                        par = Some p /\ In (p, sp) (skeleton d)
                        /\ level = S (sh_level sp)
                        /\ (sh_level sp <= 5)%nat))).
  { destruct Hpar as [Hroot | (p & -> & Hp)].
    - rewrite Hroot. simpl. exists 2%nat. auto.
    - unfold hardware_options_parent in Hp.
      apply in_map_iff in Hp as (hw & <- & Hin).
      apply filter_In in Hin as (Hin & Hcond).
      apply andb_true_iff in Hcond as (Hle & _).
      apply Nat.leb_le in Hle.
      pose proof (hierarchy_entry d _ Hok Hin) as Hentry.
      apply in_skeleton in Hentry.
      destruct (tk_ids _ Hok _ _ Hentry) as (_ & Hidne & _).
      apply truthy_some in Hidne. rewrite Hidne. simpl negb. cbv iota.
      rewrite (find_by_id d hw Hok Hin).
      exists (hw_level hw + 1)%nat. split; [ reflexivity | ].
      right. exists (hw_id hw), (shape_of hw).
      split; [ reflexivity | ]. split; [ exact Hentry | ].
      simpl. split; [ lia | exact Hle ]. }
  destruct Hlevel as (level & Hlevel & Hcase).
  set (new := recorded_hardware n par level).
  set (d1 := dict_set d n new).
  exists (map (mark_component (fun k => negb (str_in k (parent_ids d1)))) d1),
    (flat_map (fun entry =>
                 if hw_is_component (snd entry)
                    && negb (negb (str_in (fst entry) (parent_ids d1)))
                 then [to_rollup_message (fst entry) n]
                 else [])
              d1),
    level.
  assert (Hd1 : d1 = d ++ [(n, new)])
    by (apply dict_set_absent; exact Hfresh).
  assert (Hskel1 : skeleton d1 = skeleton d ++ [(n, shape_of new)]).
  { rewrite Hd1. unfold skeleton. rewrite map_app. reflexivity. }
  assert (Hok' :
            hierarchy_ok
              (map (mark_component
                      (fun k => negb (str_in k (parent_ids d1)))) d1)).
  { unfold hierarchy_ok. rewrite skeleton_mark_component, Hskel1.
    apply record_shape_ok; try assumption.
    rewrite keys_skeleton. intros Hin. apply dict_in_keys in Hin.
    unfold new in Hin. simpl in Hin. congruence. }
  assert (Hkeys' :
            keys (map (mark_component
                         (fun k => negb (str_in k (parent_ids d1)))) d1)
            = keys d ++ [n]).
  { rewrite <- keys_skeleton, skeleton_mark_component, keys_relabel, Hskel1.
    unfold keys. rewrite map_app. simpl.
    fold (keys (skeleton d)). rewrite keys_skeleton. reflexivity. }
  split; [ | split; [ exact Hok' | split; [ exact Hkeys' | ] ] ].
  - unfold hardware_record. rewrite Hfresh, Hlevel. reflexivity.
  - apply In_dict_get.
    + rewrite Hkeys'. rewrite <- Hkeys'.
      rewrite <- keys_skeleton. exact (tk_keys _ Hok').
    + apply in_map_iff. exists (n, new). split.
      * unfold mark_component. simpl fst. simpl snd.
        assert (Hleaf : str_in n (parent_ids d1) = false).
        { rewrite str_in_parent_ids.
          pose proof (tk_leaves _ Hok' n
                        (set_component
                           (negb (has_child (skeleton d1) n))
                           (shape_of new))) as Hl.
          rewrite skeleton_mark_component in Hl.
          apply has_child_false. intros k s Hin Hp.
          rewrite Hskel1 in Hin. apply in_app_iff in Hin.
          assert (Ht : truthy (sh_parent s) = true)
            by (rewrite Hp; apply truthy_some; exact Hne).
          destruct Hin as [Hin | [Heq | []]].
          - destruct (tk_parents _ Hok _ _ Hin Ht)
              as (p & sp & Hsp & Hpin & _).
            assert (p = n) by congruence. subst p.
            apply in_keys in Hpin. rewrite keys_skeleton in Hpin.
            apply dict_in_keys in Hpin. congruence.
          - injection Heq as <- <-. simpl in Hp, Ht.
            destruct Hcase as [[Hf _] | (p & sp & Hsp & Hpin & _)];
              [ congruence | ].
            assert (p = n) by congruence. subst p.
            apply in_keys in Hpin. rewrite keys_skeleton in Hpin.
            apply dict_in_keys in Hpin. congruence. }
        rewrite Hleaf. reflexivity.
      * rewrite Hd1. apply in_app_iff. right. left. reflexivity.
Qed.

(** X13.  Recording an element under a fresh id, at the top of the
    hierarchy or under one of the parents that [hardware_options_parent]
    offers, returns and keeps the hierarchy well-formed: the new element
    is a blank component one level below its parent, its key comes last,
    and its parent has become a rollup. *)
Theorem hardware_record_keeps_the_hierarchy (d : dict hardware)
    (samples_list : list sample) (n : string) (par : option string) :
  hierarchy_ok d ->
  dict_in d n = false -> n <> ""%string -> n <> PROJECT ->
  truthy par = false
  \/ (exists p,
         par = Some p /\ In p (hardware_options_parent d samples_list)) ->
  exists d' notes level,
    hardware_record d n par = inr (d', notes)
    /\ hierarchy_ok d'
    /\ well_formed_tree d'
    /\ keys d' = keys d ++ [n]
    /\ dict_get d' n = Some (recorded_hardware n par level).
Proof.
  intros Hok Hfresh Hne Hproject Hpar.
  destruct (hardware_record_of_fresh_id d samples_list n par
              Hok Hfresh Hne Hproject Hpar)
    as (d' & notes & level & Hrec & Hok' & Hkeys & Hnew).
  exists d', notes, level.
  split; [ exact Hrec | ]. split; [ exact Hok' | ].
  split; [ apply hierarchy_is_well_formed; exact Hok' | ].
  split; assumption.
Qed.

Lemma hardware_config_apply_skeleton (d d' : dict hardware) (id : string)
    (group : option string) (dim : string) (area_vol : pyval)
    (type analogy implied_id spec : option string)
    (m1 m2 m3 m4 m5 m6 m7 m8 m9 m10 : pyval) :
  hardware_config_apply d id group dim area_vol type analogy implied_id
    spec m1 m2 m3 m4 m5 m6 m7 m8 m9 m10 = ok d' ->
  skeleton d' = skeleton d.
Proof.
  unfold hardware_config_apply, getitem.
  destruct (dict_get d id) as [hw | ] eqn:Hget; [ | discriminate ].
  simpl. intros [= <-].
  apply (dict_set_same_shape d id hw); [ exact Hget | reflexivity ].
Qed.

Lemma groups_delete_cascade_skeleton (tags : list string)
    (d d' : dict hardware) :
  groups_delete_cascade tags d = ok d' -> skeleton d' = skeleton d.
Proof.
  unfold groups_delete_cascade.
  destruct (set_eqb tags _); [ discriminate | ].
  intros [= <-]. unfold skeleton. rewrite map_map.
  apply map_ext. intros [k hw]. simpl.
  destruct (hw_group hw) as [g | ]; [ | reflexivity ].
  destruct (str_in g _); reflexivity.
Qed.

Lemma empty_hierarchy_ok : hierarchy_ok [].
Proof.
  split; simpl; try (intros; contradiction). constructor.
Qed.

Lemma update_first_sample_ids (samp_id : string) (f : sample -> sample)
    (l l' : list sample) :
  (forall s, s_sample_id (f s) = s_sample_id s
             /\ s_hardware_id (f s) = s_hardware_id s) ->
  update_first_sample samp_id f l = ok l' ->
  map s_sample_id l' = map s_sample_id l
  /\ map s_hardware_id l' = map s_hardware_id l.
Proof.
  intros Hf. revert l'. induction l as [ | s rest IH]; intros l' H;
    simpl in H; [ discriminate | ].
  destruct (String.eqb (s_sample_id s) samp_id).
  - injection H as <-. simpl. destruct (Hf s) as [-> ->]. auto.
  - destruct (update_first_sample samp_id f rest) as [e | rest'];
      [ discriminate | ].
    simpl in H. injection H as <-. simpl.
    destruct (IH rest' eq_refl) as [-> ->]. auto.
Qed.

Lemma present_by_hardware_ids (d : dict hardware) (l l' : list sample) :
  map s_hardware_id l' = map s_hardware_id l ->
  Forall (fun s => dict_in d (s_hardware_id s) = true) l ->
  Forall (fun s => dict_in d (s_hardware_id s) = true) l'.
Proof.
  intros Hmap Hall.
  apply (Forall_map s_hardware_id (fun h => dict_in d h = true)).
  rewrite Hmap.
  apply (Forall_map s_hardware_id (fun h => dict_in d h = true)).
  exact Hall.
Qed.

Lemma present_by_keys (d d' : dict hardware) (l : list sample) :
  (forall k, In k (keys d) -> In k (keys d')) ->
  Forall (fun s => dict_in d (s_hardware_id s) = true) l ->
  Forall (fun s => dict_in d' (s_hardware_id s) = true) l.
Proof.
  intros Hkeys Hall. eapply Forall_impl; [ | exact Hall ].
  intros s Hs. simpl in Hs. apply dict_in_keys. apply Hkeys.
  apply dict_in_keys. exact Hs.
Qed.

(** The invariant of the sessions. *)
Lemma session_invariant (d : dict hardware) (samples : list sample) :
  session d samples ->
  hierarchy_ok d
  /\ Forall (fun s => dict_in d (s_hardware_id s) = true) samples
  /\ NoDup (map s_sample_id samples).
Proof.
  induction 1 as
    [ | d d' samples n par notes _ IH Hfresh Hne Hproject Hpar Hrec
      | d d' samples samples' id hw notes _ IH Hget Hcomp Hdel
      | d d' samples id group dim area_vol type analogy implied_id spec
          m1 m2 m3 m4 m5 m6 m7 m8 m9 m10 _ IH Happly
      | d d' samples tags _ IH Hgroups
      | d samples samples' samp_id samp_hw_id accountable device
          device_type technique fraction area_vol cfu m1 m2 m3 m4 m5 notes
          _ IH Hrec
      | d samples samples' samp_id samp_hw_id accountable device
          device_type technique fraction area_vol cfu m1 m2 m3 m4 m5
          _ IH Hconf
      | d samples kept _ IH
      | d samples samples' _ IH Hsame_ids Hsame_hw ].
  - split; [ exact empty_hierarchy_ok | ]. split; constructor.
  - destruct IH as (Hok & Hpresent & Hids).
    destruct (hardware_record_of_fresh_id d samples n par
                Hok Hfresh Hne Hproject Hpar)
      as (d0 & notes0 & level & Hrec0 & Hok0 & Hkeys0 & _).
    rewrite Hrec in Hrec0. injection Hrec0 as -> _.
    split; [ exact Hok0 | ]. split; [ | exact Hids ].
    apply (present_by_keys d d0); [ | exact Hpresent ].
    intros k Hk. rewrite Hkeys0. apply in_app_iff. auto.
  - destruct IH as (Hok & Hpresent & Hids).
    destruct (hardware_delete_confirm_of_component d samples id hw
                Hok Hget Hcomp) as (d0 & notes0 & Hdel0 & Hok0 & Hkeys0 & _).
    rewrite Hdel in Hdel0. injection Hdel0 as -> -> _.
    split; [ exact Hok0 | ]. split.
    + apply Forall_forall. intros s Hs.
      apply filter_In in Hs as [Hs Hne].
      rewrite Forall_forall in Hpresent. specialize (Hpresent s Hs).
      apply dict_in_keys. rewrite Hkeys0. apply filter_In.
      split; [ apply dict_in_keys; exact Hpresent | exact Hne ].
    + apply NoDup_map_filter. exact Hids.
  - destruct IH as (Hok & Hpresent & Hids).
    pose proof (hardware_config_apply_skeleton _ _ _ _ _ _ _ _ _ _ _ _ _ _
                  _ _ _ _ _ _ Happly) as Hskel.
    split; [ unfold hierarchy_ok; rewrite Hskel; exact Hok | ].
    split; [ | exact Hids ].
    apply (present_by_keys d d'); [ | exact Hpresent ].
    intros k Hk. rewrite <- keys_skeleton, Hskel, keys_skeleton. exact Hk.
  - destruct IH as (Hok & Hpresent & Hids).
    pose proof (groups_delete_cascade_skeleton _ _ _ Hgroups) as Hskel.
    split; [ unfold hierarchy_ok; rewrite Hskel; exact Hok | ].
    split; [ | exact Hids ].
    apply (present_by_keys d d'); [ | exact Hpresent ].
    intros k Hk. rewrite <- keys_skeleton, Hskel, keys_skeleton. exact Hk.
  - destruct IH as (Hok & Hpresent & Hids).
    split; [ exact Hok | ].
    unfold sample_record in Hrec.
    destruct (str_in samp_id (map s_sample_id samples)) eqn:Hdup.
    + injection Hrec as <- _. auto.
    + unfold getitem in Hrec.
      destruct (dict_get d samp_hw_id) as [hw | ] eqn:Hget;
        [ | discriminate Hrec ].
      simpl in Hrec. injection Hrec as <- _.
      split.
      * apply Forall_app. split; [ exact Hpresent | ].
        constructor; [ | constructor ]. simpl.
        pose proof (dict_get_In _ _ _ Hget) as Hin.
        apply in_skeleton in Hin.
        destruct (tk_ids _ Hok _ _ Hin) as [Hid _]. simpl in Hid.
        rewrite Hid. apply dict_in_get. eauto.
      * rewrite map_app. simpl. apply NoDup_app.
        -- exact Hids.
        -- repeat constructor. intros [].
        -- intros x Hx [<- | []].
           apply str_in_true in Hx. congruence.
  - destruct IH as (Hok & Hpresent & Hids).
    split; [ exact Hok | ].
    unfold sample_config_apply, getitem in Hconf.
    destruct (dict_get d samp_hw_id) as [hw | ]; [ | discriminate Hconf ].
    simpl in Hconf.
    apply update_first_sample_ids in Hconf;
      [ | intros s; split; reflexivity ].
    destruct Hconf as [Hsame_ids Hsame_hw].
    split.
    + exact (present_by_hardware_ids d _ _ Hsame_hw Hpresent).
    + rewrite Hsame_ids. exact Hids.
  - destruct IH as (Hok & Hpresent & Hids).
    split; [ exact Hok | ]. split.
    + apply Forall_forall. intros s Hs. apply filter_In in Hs as [Hs _].
      rewrite Forall_forall in Hpresent. auto.
    + apply NoDup_map_filter. exact Hids.
  - destruct IH as (Hok & Hpresent & Hids).
    split; [ exact Hok | ]. split.
    + exact (present_by_hardware_ids d _ _ Hsame_hw Hpresent).
    + rewrite Hsame_ids. exact Hids.
Qed.

(** X14.  In every state that the callbacks that record, configure and
    delete elements, groups and samples reach from the empty project,
    the hierarchy is well-formed, every sample belongs to an element of
    the hardware, the ids of the samples are distinct, and
    [identify_valid_samples] returns. *)
Theorem sessions_are_well_formed (d : dict hardware)
    (samples : list sample) :
  session d samples ->
  hierarchy_ok d
  /\ well_formed_tree d
  /\ Forall (fun s => dict_in d (s_hardware_id s) = true) samples
  /\ NoDup (map s_sample_id samples)
  /\ identify_valid_samples samples d
     = ok (map s_sample_id (filter (accepted d) samples)).
Proof.
  intros Hsession.
  destruct (session_invariant d samples Hsession)
    as (Hok & Hpresent & Hids).
  split; [ exact Hok | ].
  split; [ apply hierarchy_is_well_formed; exact Hok | ].
  split; [ exact Hpresent | ]. split; [ exact Hids | ].
  apply identify_valid_samples_present. exact Hpresent.
Qed.
(* ------------------------------------------------------------------ *)
(** * The callbacks on concrete hierarchies *)

Lemma hardware_rover_recorded_ok : hierarchy_ok hardware_rover_recorded.
Proof.
  destruct (hardware_record_of_fresh_id [] [] "Rover" None
              empty_hierarchy_ok eq_refl)
    as (d' & notes & level & Hrec & Hok & _);
    [ discriminate | discriminate | left; reflexivity | ].
  injection Hrec as <- _. exact Hok.
Qed.

Lemma rover_is_offered_as_parent :
  exists p,
    Some "Rover"%string = Some p
    /\ In p (hardware_options_parent hardware_rover_recorded []).
Proof. exists "Rover"%string. split; [ reflexivity | left; reflexivity ]. Qed.

Lemma hardware_arm_recorded_ok : hierarchy_ok hardware_arm_recorded.
Proof.
  destruct (hardware_record_of_fresh_id hardware_rover_recorded [] "Arm"
              (Some "Rover"%string) hardware_rover_recorded_ok eq_refl)
    as (d' & notes & level & Hrec & Hok & _);
    [ discriminate | discriminate | right; exact rover_is_offered_as_parent
    | ].
  injection Hrec as <- _. exact Hok.
Qed.

Lemma hardware_record_witness :
  exists d' notes level,
    hardware_record hardware_rover_recorded "Arm" (Some "Rover"%string)
    = inr (d', notes)
    /\ hierarchy_ok d'
    /\ well_formed_tree d'
    /\ keys d' = keys hardware_rover_recorded ++ ["Arm"%string]
    /\ dict_get d' "Arm"
       = Some (recorded_hardware "Arm" (Some "Rover"%string) level).
Proof.
  apply (hardware_record_keeps_the_hierarchy hardware_rover_recorded []
           "Arm" (Some "Rover"%string)).
  - exact hardware_rover_recorded_ok.
  - reflexivity.
  - discriminate.
  - discriminate.
  - right. exact rover_is_offered_as_parent.
Defined.

Lemma hardware_delete_witness :
  exists d' notes,
    hardware_delete_confirm "Arm" hardware_arm_recorded []
    = ok (d',
          filter (fun s => negb (String.eqb (s_hardware_id s) "Arm")) [],
          notes)
    /\ hierarchy_ok d'
    /\ well_formed_tree d'
    /\ keys d'
       = filter (fun k => negb (String.eqb k "Arm"))
                (keys hardware_arm_recorded).
Proof.
  apply (delete_of_a_component_keeps_the_hierarchy hardware_arm_recorded []
           "Arm" (recorded_hardware "Arm" (Some "Rover"%string) 3)).
  - exact hardware_arm_recorded_ok.
  - reflexivity.
  - reflexivity.
Defined.

Lemma hardware_before_delete_ok : hierarchy_ok hardware_before_delete.
Proof.
  split; simpl.
  - repeat constructor; simpl; intuition discriminate.
  - intros k s [H | [H | []]]; injection H as <- <-; simpl;
      repeat split; discriminate.
  - intros k s [H | [H | []]]; injection H as <- <-; reflexivity.
  - intros k s [H | [H | []]]; injection H as <- <-; discriminate.
  - intros k s [H | [H | []]]; injection H as <- <-; reflexivity.
  - intros k s [H | [H | []]]; injection H as <- <-; discriminate.
Qed.

Lemma removal_witness :
  find_implied_hardware (sampled_hardware "A" None 2 "Analog A" (PyInt 1))
    hardware_after_delete = []
  /\ hardware_removed hardware_after_delete hardware_before_delete [] []
       [ [KStr "A"] ] sims_before_delete
     = ok {| noop := false;
             sims := dict_remove (sims sims_before_delete) "A" |}.
Proof.
  apply (removal_keeps_the_records_of_the_dependents hardware_before_delete
           hardware_after_delete [] [] [] "A"
           (sampled_hardware "A" None 2 "Analog A" (PyInt 1)) []
           sims_before_delete).
  - exact hardware_before_delete_ok.
  - reflexivity.
  - reflexivity.
  - reflexivity.
  - reflexivity.
Defined.


(* ------------------------------------------------------------------ *)
(** * Configuration of an element, and the groups *)

Lemma keys_dict_set_get {V} (d : dict V) (k : string) (v v' : V) :
  dict_get d k = Some v -> keys (dict_set d k v') = keys d.
Proof.
  intros Hget. apply keys_dict_set_present. apply dict_in_get. eauto.
Qed.

(** X15.  [hardware_config_apply] raises [KeyError] on an id that the
    hardware does not hold; otherwise it rewrites the entry of the id
    and nothing else, leaves the place of the element in the hierarchy
    as it is, and marks the element valid only with a dimension, a
    non-zero extent, a type and, for a component, the analogy, the link
    or the class that its type requires; the extent is stored under the
    dimension chosen. *)
Theorem hardware_config_apply_rewrites_one_entry (d : dict hardware)
    (id : string) (group : option string) (dim : string) (area_vol : pyval)
    (type analogy implied_id spec : option string)
    (m1 m2 m3 m4 m5 m6 m7 m8 m9 m10 : pyval) :
  (dict_in d id = false ->
   hardware_config_apply d id group dim area_vol type analogy implied_id
     spec m1 m2 m3 m4 m5 m6 m7 m8 m9 m10 = inl KeyError)
  /\ (forall hw,
         dict_get d id = Some hw ->
         exists d' hw',
           hardware_config_apply d id group dim area_vol type analogy
             implied_id spec m1 m2 m3 m4 m5 m6 m7 m8 m9 m10 = ok d'
           /\ dict_get d' id = Some hw'
           /\ keys d' = keys d
           /\ (forall k, k <> id -> dict_get d' k = dict_get d k)
           /\ shape_of hw' = shape_of hw
           /\ (hw_valid hw' = true ->
               dim <> ""%string /\ pyval_truthy area_vol = true
               /\ truthy type = true
               /\ (hw_is_component hw = true ->
                   (type = Some "Sampled"%string ->
                    truthy analogy = true)
                   /\ (type = Some "Unsampled - Implied"%string ->
                       truthy implied_id = true)
                   /\ (type = Some "Unsampled - Spec"%string ->
                       truthy spec = true)))
           /\ (startswith_2 dim = true \/ startswith_3 dim = true ->
               exposure_of hw' = area_vol)).
Proof.
  split.
  - intros Hout. apply dict_in_false in Hout.
    unfold hardware_config_apply, getitem. rewrite Hout. reflexivity.
  - intros hw Hget.
    unfold hardware_config_apply, getitem. rewrite Hget.
    unfold rbind, ok. cbv beta iota zeta.
    eexists. eexists.
    split; [ reflexivity | ].
    split; [ apply dict_get_set_same | ].
    split; [ apply (keys_dict_set_get d id hw); exact Hget | ].
    split; [ intros k Hk; apply dict_get_set_other; congruence | ].
    split; [ reflexivity | ].
    split.
    + cbn [hw_valid]. intros Hvalid.
      destruct (negb (String.eqb dim "")) eqn:Hdim;
        [ | simpl in Hvalid; discriminate Hvalid ].
      destruct (pyval_truthy area_vol) eqn:Harea;
        [ | simpl in Hvalid; discriminate Hvalid ].
      destruct (truthy type) eqn:Htype;
        [ | simpl in Hvalid; discriminate Hvalid ].
      apply negb_true_iff in Hdim. apply String.eqb_neq in Hdim.
      split; [ exact Hdim | ]. split; [ reflexivity | ].
      split; [ reflexivity | ].
      intros Hcomp. rewrite Hcomp in Hvalid. simpl in Hvalid.
      repeat split; intros ->; simpl in Hvalid; exact Hvalid.
    + unfold exposure_of. cbn [hw_dim hw_area hw_volume].
      destruct (startswith_2 dim) eqn:H2; [ reflexivity | ].
      intros [H | H]; [ discriminate | ]. rewrite H. reflexivity.
Qed.

Lemma groups_referenced (d : dict hardware) (hw : hardware) (g : string) :
  In hw (values d) -> hw_group hw = Some g -> g <> ""%string ->
  In g (flat_map (fun hw => if truthy (hw_group hw) then
                              match hw_group hw with
                              | Some g => [g]
                              | None => []
                              end
                            else [])
                 (values d)).
Proof.
  intros Hin Hg Hne. apply in_flat_map. exists hw.
  split; [ exact Hin | ]. rewrite Hg.
  apply truthy_some in Hne. rewrite Hne. left. reflexivity.
Qed.

(** X16.  When [groups_delete_cascade] returns, every element is either
    as it was or has lost a group that the table of groups no longer
    defines; the keys and their order are kept; and every group that an
    element still refers to is defined. *)
Theorem groups_delete_cascade_clears_the_lost_groups (tags : list string)
    (d d' : dict hardware) :
  groups_delete_cascade tags d = ok d' ->
  keys d' = keys d
  /\ Forall2 (fun hw hw' =>
                hw' = hw
                \/ (hw' = with_group None hw
                    /\ exists g,
                         hw_group hw = Some g /\ str_in g tags = false))
             (values d) (values d')
  /\ Forall (fun hw' =>
               forall g,
                 hw_group hw' = Some g -> g <> ""%string ->
                 str_in g tags = true)
            (values d').
Proof.
  unfold groups_delete_cascade.
  destruct (set_eqb tags _); [ discriminate | ].
  intros [= <-].
  set (groups_ref :=
         flat_map (fun hw => if truthy (hw_group hw) then
                               match hw_group hw with
                               | Some g => [g]
                               | None => []
                               end
                             else [])
                  (values d)).
  set (groups_clear := filter (fun g => negb (str_in g tags)) groups_ref).
  assert (Hclear : forall g, str_in g groups_clear = true ->
                             str_in g tags = false).
  { intros g Hg. apply str_in_true in Hg. apply filter_In in Hg as [_ Hg].
    apply negb_true_iff in Hg. exact Hg. }
  split; [ | split ].
  - unfold keys. rewrite map_map. reflexivity.
  - unfold values. rewrite map_map. simpl.
    assert (Hgen : forall l : dict hardware,
               Forall2 (fun hw hw' =>
                          hw' = hw
                          \/ (hw' = with_group None hw
                              /\ exists g,
                                   hw_group hw = Some g
                                   /\ str_in g tags = false))
                       (map snd l)
                       (map (fun x =>
                               match hw_group (snd x) with
                               | Some g =>
                                   if str_in g groups_clear
                                   then with_group None (snd x)
                                   else snd x
                               | None => snd x
                               end) l)).
    { induction l as [ | [k hw] l IH]; simpl; constructor; [ | exact IH ].
      destruct (hw_group hw) as [g | ] eqn:Hg; [ | left; reflexivity ].
      destruct (str_in g groups_clear) eqn:Hc; [ | left; reflexivity ].
      right. split; [ reflexivity | ]. exists g. auto. }
    apply Hgen.
  - apply Forall_forall. intros hw' Hin g Hg Hne.
    apply in_values in Hin as [k Hin].
    apply in_map_iff in Hin as [[k0 hw] [Heq Hin]].
    simpl in Heq. injection Heq as -> <-.
    assert (Hvalue : In hw (values d)) by (apply in_values; eauto).
    destruct (hw_group hw) as [g0 | ] eqn:Hg0; [ | congruence ].
    destruct (str_in g0 groups_clear) eqn:Hc; [ discriminate Hg | ].
    assert (g0 = g) by congruence. subst g0.
    destruct (str_in g tags) eqn:Ht; [ reflexivity | ].
    assert (Hin_clear : str_in g groups_clear = true).
    { apply str_in_true. apply filter_In. split.
      - exact (groups_referenced d hw g Hvalue Hg0 Hne).
      - rewrite Ht. reflexivity. }
    congruence.
Qed.

(* ------------------------------------------------------------------ *)
(** * Paths of a deepdiff *)

Lemma string_length_app (a b : string) :
  String.length (a ++ b) = (String.length a + String.length b)%nat.
Proof.
  induction a as [ | c a IH]; simpl; [ reflexivity | ].
  rewrite IH. reflexivity.
Qed.

Lemma string_app_assoc (a b c : string) :
  ((a ++ b) ++ c)%string = (a ++ (b ++ c))%string.
Proof.
  induction a as [ | x a IH]; simpl; [ reflexivity | ].
  rewrite IH. reflexivity.
Qed.

Lemma span_app (p : ascii -> bool) (a b : string) :
  string_forall p a = true ->
  match b with
  | EmptyString => True
  | String c _ => p c = false
  end ->
  span p (a ++ b) = (a, b).
Proof.
  intros Ha Hb. induction a as [ | c a IH]; simpl in *.
  - destruct b as [ | c b]; [ reflexivity | ]. simpl. rewrite Hb.
    reflexivity.
  - apply andb_true_iff in Ha as [Hc Ha].
    rewrite Hc, (IH Ha). reflexivity.
Qed.

Lemma nat_of_digit (n : nat) :
  (n < 10)%nat -> nat_of_ascii (digit_of n) = (48 + n)%nat.
Proof.
  intros Hn. unfold digit_of. apply nat_ascii_embedding. lia.
Qed.

Lemma is_digit_digit_of (n : nat) :
  (n < 10)%nat -> is_digit (digit_of n) = true.
Proof.
  intros Hn. unfold is_digit. rewrite (nat_of_digit n Hn).
  apply andb_true_iff. split; apply Nat.leb_le; lia.
Qed.

Lemma digit_is_no_quote (c : ascii) : is_digit c = true -> is_quote c = false.
Proof.
  unfold is_digit, is_quote. intros Hd.
  destruct (Ascii.eqb c "'") eqn:Hq; [ | reflexivity ].
  apply Ascii.eqb_eq in Hq. subst c. discriminate Hd.
Qed.

Lemma digit_is_no_bracket (c : ascii) :
  is_digit c = true -> Ascii.eqb c "]" = false.
Proof.
  unfold is_digit. intros Hd.
  destruct (Ascii.eqb c "]") eqn:Hq; [ | reflexivity ].
  apply Ascii.eqb_eq in Hq. subst c. discriminate Hd.
Qed.

Lemma digits_upto_digits (fuel : nat) :
  forall n acc,
    string_forall is_digit acc = true ->
    string_forall is_digit (digits_upto fuel n acc) = true.
Proof.
  induction fuel as [ | fuel IH]; intros n acc Hacc; simpl.
  - exact Hacc.
  - assert (Hacc' :
              string_forall is_digit (String (digit_of (n mod 10)) acc)
              = true).
    { cbn [string_forall]. rewrite Hacc, is_digit_digit_of; [ reflexivity | ].
      apply Nat.mod_upper_bound. lia. }
    destruct (n <? 10)%nat; [ exact Hacc' | apply IH; exact Hacc' ].
Qed.

Lemma digits_upto_not_empty (fuel : nat) :
  forall n c acc, digits_upto fuel n (String c acc) <> EmptyString.
Proof.
  induction fuel as [ | fuel IH]; intros n c acc; simpl.
  - discriminate.
  - destruct (n <? 10)%nat; [ discriminate | apply IH ].
Qed.

Lemma decimal_not_empty (n : nat) : decimal n <> EmptyString.
Proof.
  unfold decimal. simpl.
  destruct (n <? 10)%nat; [ discriminate | apply digits_upto_not_empty ].
Qed.

Lemma decimal_digits (n : nat) : string_forall is_digit (decimal n) = true.
Proof. apply digits_upto_digits. reflexivity. Qed.

Lemma int_of_digits_upto (fuel : nat) :
  forall n acc,
    (n < fuel)%nat ->
    (fix go (s : string) (acc : nat) : nat :=
       match s with
       | EmptyString => acc
       | String c s' => go s' (10 * acc + (nat_of_ascii c - 48))%nat
       end) (digits_upto fuel n acc) 0%nat
    = (fix go (s : string) (acc : nat) : nat :=
         match s with
         | EmptyString => acc
         | String c s' => go s' (10 * acc + (nat_of_ascii c - 48))%nat
         end) acc n.
Proof.
  induction fuel as [ | fuel IH]; intros n acc Hn; [ lia | ].
  cbn [digits_upto].
  destruct (n <? 10)%nat eqn:Hsmall.
  - apply Nat.ltb_lt in Hsmall.
    rewrite Nat.mod_small by assumption.
    cbn [Nat.mul]. rewrite nat_of_digit by assumption.
    f_equal. lia.
  - apply Nat.ltb_ge in Hsmall.
    rewrite IH.
    + rewrite nat_of_digit by (apply Nat.mod_upper_bound; lia).
      f_equal. pose proof (Nat.div_mod_eq n 10). lia.
    + assert (n / 10 < n)%nat by (apply Nat.div_lt; lia). lia.
Qed.

Lemma int_of_decimal (n : nat) : int_of_digits (decimal n) = n.
Proof.
  unfold int_of_digits, decimal.
  rewrite int_of_digits_upto by lia. reflexivity.
Qed.

Lemma match_key_render (s rest : string) :
  plain_key (KStr s) = true ->
  match_key (render_key (KStr s) ++ rest) = Some (s, rest).
Proof.
  simpl plain_key. intros Hplain.
  apply andb_true_iff in Hplain as [Hne Hquotes].
  apply negb_true_iff in Hne. apply String.eqb_neq in Hne.
  unfold render_key.
  change (("['" ++ s ++ "']") ++ rest)%string
    with (String "[" (String "'" ((s ++ "']") ++ rest)))%string.
  rewrite string_app_assoc.
  unfold match_key.
  change (Ascii.eqb "[" "[") with true.
  change (is_quote "'") with true. cbv iota.
  rewrite (span_app _ s ("']" ++ rest)); [ | exact Hquotes | reflexivity ].
  destruct s as [ | k0 k]; [ congruence | ]. reflexivity.
Qed.

Lemma match_index_render (n : nat) (rest : string) :
  match_key (render_key (KInt n) ++ rest) = None
  /\ match_index (render_key (KInt n) ++ rest) = Some (decimal n, rest).
Proof.
  unfold render_key.
  change (("[" ++ decimal n ++ "]") ++ rest)%string
    with (String "[" ((decimal n ++ "]") ++ rest))%string.
  rewrite string_app_assoc.
  pose proof (decimal_not_empty n) as Hne.
  pose proof (decimal_digits n) as Hdigits.
  split.
  - unfold match_key. change (Ascii.eqb "[" "[") with true. cbv iota.
    destruct (decimal n) as [ | c1 d]; [ congruence | ]. simpl.
    simpl in Hdigits. apply andb_true_iff in Hdigits as [Hc1 _].
    rewrite (digit_is_no_quote c1 Hc1). reflexivity.
  - unfold match_index. change (Ascii.eqb "[" "[") with true. cbv iota.
    rewrite (span_app is_digit (decimal n) ("]" ++ rest));
      [ | exact Hdigits | reflexivity ].
    destruct (decimal n) as [ | d0 d]; [ congruence | ]. reflexivity.
Qed.

Lemma findall_step (turns : nat) (c : ascii) (text : string) :
  findall (S turns) (String c text)
  = match match_key (String c text) with
    | Some (string_key, rest) => KStr string_key :: findall turns rest
    | None =>
        match match_index (String c text) with
        | Some (numeric_index, rest) =>
            KInt (int_of_digits numeric_index) :: findall turns rest
        | None => findall turns text
        end
    end.
Proof. reflexivity. Qed.

Lemma render_key_head (k : loc_key) (rest : string) :
  exists text, (render_key k ++ rest)%string = String "[" text.
Proof. destruct k; eexists; reflexivity. Qed.

Lemma render_key_length (k : loc_key) :
  (1 <= String.length (render_key k))%nat.
Proof. destruct k; simpl; lia. Qed.

Lemma findall_render (l : loc) :
  forall turns,
    forallb plain_key l = true ->
    (String.length (render_keys l) <= turns)%nat ->
    findall turns (render_keys l) = l.
Proof.
  induction l as [ | k l IH]; intros turns Hplain Hturns.
  - destruct turns; reflexivity.
  - simpl in Hplain. apply andb_true_iff in Hplain as [Hk Hl].
    cbn [render_keys] in *. rewrite string_length_app in Hturns.
    pose proof (render_key_length k) as Hlen.
    destruct turns as [ | turns]; [ lia | ].
    destruct (render_key_head k (render_keys l)) as [text Htext].
    destruct k as [s | n].
    + pose proof (match_key_render s (render_keys l) Hk) as Hmatch.
      rewrite Htext in *. rewrite findall_step, Hmatch. f_equal.
      apply IH; [ exact Hl | lia ].
    + destruct (match_index_render n (render_keys l)) as [Hkey Hindex].
      rewrite Htext in *.
      rewrite findall_step, Hkey, Hindex, int_of_decimal. f_equal.
      apply IH; [ exact Hl | lia ].
Qed.

(** X17.  [unpack_deepdiff_loc] reads back the keys of a path as
    deepdiff writes it: the string keys that are not empty and hold no
    quote, and the indices, in their order. *)
Theorem unpack_deepdiff_loc_reads_a_path_back (l : loc) :
  forallb plain_key l = true ->
  unpack_deepdiff_loc (render_path l) = l.
Proof.
  intros Hplain. unfold unpack_deepdiff_loc, render_path.
  change ("root" ++ render_keys l)%string
    with (String "r" (String "o" (String "o" (String "t" (render_keys l))))).
  cbn [String.length]. cbn [findall match_key match_index].
  change (Ascii.eqb "r" "[") with false.
  change (Ascii.eqb "o" "[") with false.
  change (Ascii.eqb "t" "[") with false.
  cbv iota.
  apply findall_render; [ exact Hplain | lia ].
Qed.

Lemma unpack_deepdiff_loc_witness :
  unpack_deepdiff_loc (render_path [KStr "Arm"; KStr "notes"; KInt 12])
  = [KStr "Arm"; KStr "notes"; KInt 12].
Proof.
  apply (unpack_deepdiff_loc_reads_a_path_back
           [KStr "Arm"; KStr "notes"; KInt 12]).
  reflexivity.
Defined.

(* ------------------------------------------------------------------ *)
(** * Sessions and groups on concrete hardware *)

Lemma session_of_two_records : session hardware_arm_recorded [].
Proof.
  apply (session_hardware_record hardware_rover_recorded
           hardware_arm_recorded [] "Arm" (Some "Rover"%string)
           [to_rollup_message "Rover" "Arm"]).
  - apply (session_hardware_record [] hardware_rover_recorded [] "Rover"
             None []).
    + exact session_empty.
    + reflexivity.
    + discriminate.
    + discriminate.
    + left. reflexivity.
    + reflexivity.
  - reflexivity.
  - discriminate.
  - discriminate.
  - right. exact rover_is_offered_as_parent.
  - reflexivity.
Qed.

Lemma session_witness :
  hierarchy_ok hardware_arm_recorded
  /\ well_formed_tree hardware_arm_recorded
  /\ Forall (fun s => dict_in hardware_arm_recorded (s_hardware_id s) = true)
            []
  /\ NoDup (map s_sample_id [])
  /\ identify_valid_samples [] hardware_arm_recorded
     = ok (map s_sample_id (filter (accepted hardware_arm_recorded) [])).
Proof.
  apply (sessions_are_well_formed hardware_arm_recorded []).
  exact session_of_two_records.
Defined.

Lemma groups_witness :
  keys hardware_without_lost_group = keys hardware_with_groups
  /\ Forall2 (fun hw hw' =>
                hw' = hw
                \/ (hw' = with_group None hw
                    /\ exists g,
                         hw_group hw = Some g
                         /\ str_in g ["G1"%string] = false))
             (values hardware_with_groups)
             (values hardware_without_lost_group)
  /\ Forall (fun hw' =>
               forall g,
                 hw_group hw' = Some g -> g <> ""%string ->
                 str_in g ["G1"%string] = true)
            (values hardware_without_lost_group).
Proof.
  apply (groups_delete_cascade_clears_the_lost_groups ["G1"%string]
           hardware_with_groups hardware_without_lost_group).
  reflexivity.
Defined.

(* ------------------------------------------------------------------ *)
(** * The elements offered for the results *)

Lemma in_set_add (ids : list string) (x id : string) :
  In id (set_add ids x) <-> In id ids \/ id = x.
Proof.
  unfold set_add. destruct (str_in x ids) eqn:Hx.
  - apply str_in_true in Hx. split; [ auto | ].
    intros [H | ->]; assumption.
  - rewrite in_app_iff. simpl. split.
    + intros [H | [H | []]]; auto.
    + intros [H | ->]; auto.
Qed.

Lemma level_get_add (m : level_sets) (l l' : nat) (x : string) :
  level_get (level_add m l x) l'
  = if (l =? l')%nat then set_add (level_get m l) x else level_get m l'.
Proof.
  induction m as [ | [l0 ids] m IH]; simpl.
  - destruct (l =? l')%nat; reflexivity.
  - destruct (l0 =? l)%nat eqn:H0; simpl.
    + apply Nat.eqb_eq in H0. subst l0.
      destruct (l =? l')%nat; reflexivity.
    + destruct (l0 =? l')%nat eqn:H0'.
      * apply Nat.eqb_eq in H0'. subst l0.
        rewrite Nat.eqb_sym, H0. reflexivity.
      * exact IH.
Qed.

Lemma level_get_set (m : level_sets) (l l' : nat) (ids : list string) :
  level_get (level_set m l ids) l'
  = if (l =? l')%nat then ids else level_get m l'.
Proof.
  induction m as [ | [l0 ids0] m IH]; simpl.
  - destruct (l =? l')%nat; reflexivity.
  - destruct (l0 =? l)%nat eqn:H0; simpl.
    + apply Nat.eqb_eq in H0. subst l0.
      destruct (l =? l')%nat; reflexivity.
    + destruct (l0 =? l')%nat eqn:H0'.
      * apply Nat.eqb_eq in H0'. subst l0.
        rewrite Nat.eqb_sym, H0. reflexivity.
      * exact IH.
Qed.

Lemma hierarchy_level_bounds (d : dict hardware) (hw : hardware) :
  hierarchy_ok d -> In hw (values d) -> (2 <= hw_level hw <= 6)%nat.
Proof.
  intros Hok Hin. apply (hierarchy_entry d hw Hok) in Hin.
  apply in_skeleton in Hin.
  pose proof (tree_levels _ _ _ Hok Hin) as Hlow. simpl in Hlow.
  split; [ exact Hlow | ].
  destruct (truthy (hw_parent_id hw)) eqn:Hparent.
  - destruct (tk_parents _ Hok _ _ Hin Hparent) as (p & sp & Hsp & Hp & Hl).
    simpl in Hsp, Hl. rewrite Hl.
    assert (Hrollup : sh_component sp = false).
    { rewrite (tk_leaves _ Hok _ _ Hp). apply negb_false_iff.
      apply has_child_true. exists (hw_id hw), (shape_of hw). auto. }
    pose proof (tk_depth _ Hok _ _ Hp Hrollup). lia.
  - pose proof (tk_roots _ Hok _ _ Hin Hparent) as Hl. simpl in Hl. lia.
Qed.

(** The parent of an element of a well-formed hierarchy, if it has
    one. *)
Lemma hierarchy_parent (d : dict hardware) (hw : hardware) :
  hierarchy_ok d -> In hw (values d) ->
  match hw_parent_id hw with
  | Some p =>
      if negb (String.eqb p "") then
        exists parent,
          dict_get d p = Some parent /\ In parent (values d)
          /\ hw_level hw = S (hw_level parent)
      else True
  | None => True
  end.
Proof.
  intros Hok Hin. apply (hierarchy_entry d hw Hok) in Hin.
  apply in_skeleton in Hin.
  destruct (hw_parent_id hw) as [p | ] eqn:Hp; [ | exact I ].
  destruct (negb (String.eqb p "")) eqn:Hne; [ | exact I ].
  assert (Ht : truthy (sh_parent (shape_of hw)) = true)
    by (simpl; rewrite Hp; exact Hne).
  destruct (tk_parents _ Hok _ _ Hin Ht) as (p' & sp & Hsp & Hpin & Hl).
  simpl in Hsp, Hl. rewrite Hp in Hsp. injection Hsp as <-.
  apply skeleton_in in Hpin as (parent & Hpin & ->).
  exists parent. split; [ | split ].
  - apply In_dict_get; [ | exact Hpin ].
    rewrite <- keys_skeleton. exact (tk_keys _ Hok).
  - apply in_values. eauto.
  - exact Hl.
Qed.

Lemma climb_reaches_the_top (d : dict hardware) (turns : nat) :
  hierarchy_ok d ->
  forall (hw : hardware) (m : level_sets),
    In hw (values d) -> (hw_level hw <= S turns)%nat ->
    exists m',
      climb turns d hw m = Some (ok m')
      /\ forall level id,
           In id (level_get m' level)
           <-> if (level =? 1)%nat then id = PROJECT
               else In id (level_get m level)
                    \/ exists top,
                         above d hw top /\ hw_id top = id
                         /\ hw_level top = level.
Proof.
  intros Hok. induction turns as [ | turns IH]; intros hw m Hin Hlevel.
  - pose proof (hierarchy_level_bounds d hw Hok Hin). lia.
  - pose proof (hierarchy_level_bounds d hw Hok Hin) as Hbounds.
    pose proof (hierarchy_parent d hw Hok Hin) as Hparent.
    simpl climb.
    assert (Hroot :
              (forall p, hw_parent_id hw = Some p -> p = ""%string) ->
              forall level id,
                In id (level_get
                         (level_set (level_add m (hw_level hw) (hw_id hw))
                            1 [PROJECT]) level)
                <-> if (level =? 1)%nat then id = PROJECT
                    else In id (level_get m level)
                         \/ exists top,
                              above d hw top /\ hw_id top = id
                              /\ hw_level top = level).
    { intros Hnone level id. rewrite level_get_set.
      destruct level as [ | [ | level]]; simpl.
      - rewrite level_get_add.
        destruct (hw_level hw =? 0)%nat eqn:H0;
          [ apply Nat.eqb_eq in H0; lia | ].
        split; [ auto | ]. intros [H | (top & Hab & _ & Hl)]; [ exact H | ].
        inversion Hab as [ | ? ? ? p Hp Hne ]; subst; [ lia | ].
        specialize (Hnone p Hp). contradiction.
      - split; [ intros [H | []]; auto | intros ->; auto ].
      - rewrite level_get_add.
        destruct (hw_level hw =? S (S level))%nat eqn:Hl.
        + rewrite in_set_add. apply Nat.eqb_eq in Hl. split.
          * intros [H | ->]; [ left; rewrite <- Hl; exact H | ].
            right. exists hw. split; [ constructor | auto ].
          * intros [H | (top & Hab & Hid & Htop)].
            -- left. rewrite Hl. exact H.
            -- inversion Hab as [ | ? ? ? p Hp Hne ]; subst; [ auto | ].
               specialize (Hnone p Hp). contradiction.
        + apply Nat.eqb_neq in Hl. split; [ auto | ].
          intros [H | (top & Hab & Hid & Htop)]; [ exact H | ].
          inversion Hab as [ | ? ? ? p Hp Hne ]; subst; [ congruence | ].
          specialize (Hnone p Hp). contradiction. }
    destruct (hw_parent_id hw) as [p | ] eqn:Hp.
    + destruct (negb (String.eqb p "")) eqn:Hne.
      * destruct Hparent as (parent & Hget & Hpin & Hl).
        rewrite Hget.
        destruct (IH parent (level_add m (hw_level hw) (hw_id hw)) Hpin
                    ltac:(lia)) as (m' & Hclimb & Hm').
        exists m'. split; [ exact Hclimb | ].
        intros level id. rewrite Hm'.
        destruct (level =? 1)%nat eqn:H1; [ tauto | ].
        rewrite level_get_add.
        apply negb_true_iff in Hne. apply String.eqb_neq in Hne.
        assert (Habove : forall top,
                   above d hw top <-> top = hw \/ above d parent top).
        { intros top. split.
          - intros Hab.
            inversion Hab as [ | ? parent' ? p' Hp' _ Hget' Hrest ]; subst;
              [ auto | ].
            right. assert (p' = p) by congruence. subst p'.
            assert (parent' = parent) by congruence. subst parent'.
            exact Hrest.
          - intros [-> | Hrest]; [ constructor | ].
            eapply above_parent; eauto. }
        destruct (hw_level hw =? level)%nat eqn:Hlv.
        -- apply Nat.eqb_eq in Hlv. rewrite in_set_add. split.
           ++ intros [[H | ->] | (top & Hab & Hid & Htop)].
              ** left. rewrite <- Hlv. exact H.
              ** right. exists hw. split; [ constructor | auto ].
              ** right. exists top. rewrite Habove. auto.
           ++ intros [H | (top & Hab & Hid & Htop)].
              ** left. left. rewrite Hlv. exact H.
              ** apply Habove in Hab as [-> | Hab]; [ left; right; auto | ].
                 right. eauto.
        -- apply Nat.eqb_neq in Hlv. split.
           ++ intros [H | (top & Hab & Hid & Htop)]; [ auto | ].
              right. exists top. rewrite Habove. auto.
           ++ intros [H | (top & Hab & Hid & Htop)]; [ auto | ].
              apply Habove in Hab as [-> | Hab]; [ congruence | ].
              right. eauto.
      * eexists. split; [ reflexivity | ].
        apply Hroot. intros p' [= <-].
        apply negb_false_iff in Hne. apply String.eqb_eq in Hne. exact Hne.
    + eexists. split; [ reflexivity | ].
      apply Hroot. intros p' Hp'. discriminate Hp'.
Qed.

Lemma above_levels (d : dict hardware) (hw top : hardware) :
  hierarchy_ok d -> In hw (values d) -> above d hw top ->
  In top (values d).
Proof.
  intros Hok Hin Hab. induction Hab as [ | hw parent top p Hp Hne Hget _ IH];
    [ exact Hin | ].
  apply IH. apply dict_get_In in Hget. apply in_values. eauto.
Qed.

Lemma eligible_fold (d : dict hardware) (samples : list sample)
    (samples_valid : list string) (turns : nat) :
  hierarchy_ok d -> (5 <= turns)%nat ->
  forall (l done : list hardware) (m : level_sets),
    Forall (fun hw => In hw (values d)) l ->
    Forall (fun hw => In hw (values d)) done ->
    (forall level id,
        In id (level_get m level)
        <-> offered d samples samples_valid done level id) ->
    exists m',
      fold_left
        (fun acc hw =>
           match acc with
           | Some (inr eligible_hardware_ids) =>
               if ineligible hw samples samples_valid
               then Some (ok eligible_hardware_ids)
               else climb turns d hw eligible_hardware_ids
           | _ => acc
           end)
        l (Some (ok m)) = Some (ok m')
      /\ forall level id,
           In id (level_get m' level)
           <-> offered d samples samples_valid (done ++ l) level id.
Proof.
  intros Hok Hturns. induction l as [ | hw l IH]; intros done m Hl Hdone Hm.
  - exists m. split; [ reflexivity | ]. rewrite app_nil_r. exact Hm.
  - inversion Hl as [ | ? ? Hhw Hrest]; subst.
    assert (Hdone' : Forall (fun hw => In hw (values d)) (done ++ [hw])).
    { apply Forall_app. split; [ exact Hdone | ]. constructor; auto. }
    simpl fold_left. unfold ok at 1. cbv beta iota.
    destruct (ineligible hw samples samples_valid) eqn:Hinel.
    + destruct (IH (done ++ [hw]) m Hrest Hdone') as (m' & Hfold & Hm').
      * intros level id. rewrite Hm. unfold offered. split.
        -- intros (hw' & Hin & Hrest'). exists hw'.
           split; [ apply in_app_iff; auto | exact Hrest' ].
        -- intros (hw' & Hin & He & Hrest'). exists hw'.
           apply in_app_iff in Hin as [Hin | [<- | []]];
             [ auto | congruence ].
      * exists m'. split; [ exact Hfold | ].
        rewrite <- app_assoc in Hm'. exact Hm'.
    + pose proof (hierarchy_level_bounds d hw Hok Hhw) as Hbounds.
      destruct (climb_reaches_the_top d turns Hok hw m Hhw ltac:(lia))
        as (m1 & Hclimb & Hm1).
      rewrite Hclimb.
      destruct (IH (done ++ [hw]) m1 Hrest Hdone') as (m' & Hfold & Hm').
      * intros level id. rewrite Hm1. unfold offered.
        destruct (level =? 1)%nat eqn:H1.
        -- apply Nat.eqb_eq in H1. subst level. split.
           ++ intros ->. exists hw.
              split; [ apply in_app_iff; right; left; reflexivity | ].
              split; [ exact Hinel | left; auto ].
           ++ intros (hw' & Hin & He & [[_ Hid] | (top & Hab & _ & Htop)]);
                [ exact Hid | ].
              assert (Hhw' : In hw' (values d)).
              { rewrite Forall_forall in Hdone'. auto. }
              pose proof (above_levels d hw' top Hok Hhw' Hab) as Htopin.
              pose proof (hierarchy_level_bounds d top Hok Htopin). lia.
        -- apply Nat.eqb_neq in H1. rewrite Hm. unfold offered. split.
           ++ intros [(hw' & Hin & Hrest') | (top & Hab & Hid & Htop)].
              ** exists hw'. split; [ apply in_app_iff; auto | exact Hrest' ].
              ** exists hw.
                 split; [ apply in_app_iff; right; left; reflexivity | ].
                 split; [ exact Hinel | right; eauto ].
           ++ intros (hw' & Hin & He & Hcase).
              apply in_app_iff in Hin as [Hin | [<- | []]].
              ** left. exists hw'. auto.
              ** destruct Hcase as [[Hl1 _] | Htop]; [ congruence | ].
                 right. exact Htop.
      * exists m'. split; [ exact Hfold | ].
        rewrite <- app_assoc in Hm'. exact Hm'.
Qed.

(** X18.  On a well-formed hierarchy whose samples belong to its
    elements, [find_eligible_hardware_ids] returns (five turns of the
    climb are enough), and it lists, level by level, the elements that
    are eligible or above an eligible element, and the project on
    level 1 as soon as one element is eligible. *)
Theorem eligible_hardware_ids_are_the_eligible_and_above
    (d : dict hardware) (samples : list sample) (turns : nat) :
  hierarchy_ok d ->
  Forall (fun s => dict_in d (s_hardware_id s) = true) samples ->
  (5 <= turns)%nat ->
  exists m,
    find_eligible_hardware_ids turns d samples = Some (ok m)
    /\ forall level id,
         In id (level_get m level)
         <-> offered d samples
               (map s_sample_id (filter (accepted d) samples))
               (values d) level id.
Proof.
  intros Hok Hpresent Hturns.
  unfold find_eligible_hardware_ids.
  rewrite (identify_valid_samples_present samples d Hpresent).
  unfold ok at 1. cbv beta iota.
  destruct (eligible_fold d samples
              (map s_sample_id (filter (accepted d) samples)) turns
              Hok Hturns (values d) [] [])
    as (m & Hfold & Hm).
  - apply Forall_forall. auto.
  - constructor.
  - intros level id. destruct level; simpl; split;
      try contradiction; intros (hw & [] & _).
  - exists m. split; [ exact Hfold | exact Hm ].
Qed.

Lemma above_trans (d : dict hardware) (a b c : hardware) :
  above d a b -> above d b c -> above d a c.
Proof.
  intros Hab Hbc. induction Hab as [ | hw parent top p Hp Hne Hget _ IH];
    [ exact Hbc | ].
  eapply above_parent; eauto.
Qed.

(** The element above is the element itself, or is above through one of
    its children. *)
Lemma above_through_a_child (d : dict hardware) (hw top : hardware) :
  hierarchy_ok d -> In hw (values d) ->
  above d hw top ->
  hw = top
  \/ exists child,
       In child (values d)
       /\ hw_parent_id child = Some (hw_id top)
       /\ above d hw child.
Proof.
  intros Hok Hin Hab.
  induction Hab as [ | hw parent top p Hp Hne Hget Hrest IH]; [ auto | ].
  right.
  pose proof (dict_get_In _ _ _ Hget) as Hpin.
  pose proof (in_skeleton _ _ _ Hpin) as Hs.
  destruct (tk_ids _ Hok _ _ Hs) as [Hid _]. simpl in Hid.
  assert (Hparent : In parent (values d)) by (apply in_values; eauto).
  destruct (IH Hparent) as [<- | (child & Hchild & Hcp & Hac)].
  - exists hw. split; [ exact Hin | ].
    split; [ congruence | constructor ].
  - exists child. split; [ exact Hchild | ]. split; [ exact Hcp | ].
    eapply above_parent; eauto.
Qed.

Lemma hierarchy_get (d : dict hardware) (hw : hardware) :
  hierarchy_ok d -> In hw (values d) -> dict_get d (hw_id hw) = Some hw.
Proof.
  intros Hok Hin. apply In_dict_get.
  - rewrite <- keys_skeleton. exact (tk_keys _ Hok).
  - apply hierarchy_entry; assumption.
Qed.

Lemma hierarchy_id_not_empty (d : dict hardware) (hw : hardware) :
  hierarchy_ok d -> In hw (values d) -> hw_id hw <> ""%string.
Proof.
  intros Hok Hin. apply (hierarchy_entry d hw Hok) in Hin.
  apply in_skeleton in Hin.
  destruct (tk_ids _ Hok _ _ Hin) as (_ & Hne & _). exact Hne.
Qed.

(** A child is one level below its parent. *)
Lemma hierarchy_child_level (d : dict hardware) (child e : hardware) :
  hierarchy_ok d -> In child (values d) -> In e (values d) ->
  hw_parent_id child = Some (hw_id e) ->
  hw_level child = S (hw_level e).
Proof.
  intros Hok Hchild He Hp.
  pose proof (hierarchy_parent d child Hok Hchild) as Hparent.
  rewrite Hp in Hparent.
  pose proof (hierarchy_id_not_empty d e Hok He) as Hne.
  apply String.eqb_neq in Hne. rewrite Hne in Hparent. simpl in Hparent.
  destruct Hparent as (parent & Hget & _ & Hl).
  rewrite (hierarchy_get d e Hok He) in Hget. congruence.
Qed.

Lemma dfs_collects_the_components (d : dict hardware) (depth : nat) :
  hierarchy_ok d ->
  forall (e : hardware) (acc : list string),
    In e (values d) -> (7 <= depth + hw_level e)%nat ->
    exists ids,
      dfs depth d (hw_id e) acc = Some (ok ids)
      /\ forall c,
           In c ids
           <-> In c acc
               \/ exists hw,
                    In hw (values d) /\ hw_is_component hw = true
                    /\ hw_id hw = c /\ above d hw e.
Proof.
  intros Hok. induction depth as [ | depth IH]; intros e acc He Hdepth.
  - pose proof (hierarchy_level_bounds d e Hok He). lia.
  - simpl dfs. rewrite (hierarchy_get d e Hok He).
    destruct (hw_is_component e) eqn:Hcomp.
    + eexists. split; [ reflexivity | ].
      intros c. rewrite in_set_add. split.
      * intros [H | ->]; [ auto | ].
        right. exists e. repeat split; try assumption. constructor.
      * intros [H | (hw & Hhw & Hc & Hid & Hab)]; [ auto | ].
        right.
        destruct (above_through_a_child d hw e Hok Hhw Hab)
          as [-> | (child & Hchild & Hcp & _)]; [ auto | ].
        exfalso.
        pose proof (hierarchy_entry d e Hok He) as Hentry.
        apply in_skeleton in Hentry.
        pose proof (tk_leaves _ Hok _ _ Hentry) as Hleaf.
        simpl in Hleaf. rewrite Hcomp in Hleaf.
        symmetry in Hleaf. apply negb_true_iff in Hleaf.
        rewrite has_child_false in Hleaf.
        apply (hierarchy_entry d child Hok) in Hchild.
        apply in_skeleton in Hchild.
        exact (Hleaf _ _ Hchild Hcp).
    + (* the loop over the children *)
      assert (Hloop :
                forall (ks : list string) (acc : list string),
                  (forall k, In k ks ->
                             exists child,
                               In child (values d) /\ hw_id child = k
                               /\ hw_parent_id child = Some (hw_id e)) ->
                  exists ids,
                    fold_left
                      (fun acc child_id =>
                         match acc with
                         | Some (inr component_ids) =>
                             dfs depth d child_id component_ids
                         | _ => acc
                         end)
                      ks (Some (ok acc)) = Some (ok ids)
                    /\ forall c,
                         In c ids
                         <-> In c acc
                             \/ exists child hw,
                                  In (hw_id child) ks
                                  /\ In child (values d)
                                  /\ In hw (values d)
                                  /\ hw_is_component hw = true
                                  /\ hw_id hw = c /\ above d hw child).
      { induction ks as [ | k ks IHks]; intros acc0 Hks.
        - exists acc0. split; [ reflexivity | ].
          intros c. split; [ auto | ].
          intros [H | (child & hw & [] & _)]. exact H.
        - destruct (Hks k (or_introl eq_refl)) as (child & Hchild & <- & Hcp).
          pose proof (hierarchy_child_level d child e Hok Hchild He Hcp)
            as Hlevel.
          destruct (IH child acc0 Hchild ltac:(lia)) as (ids1 & Hdfs & Hids1).
          simpl fold_left. unfold ok at 1. cbv beta iota. rewrite Hdfs.
          destruct (IHks ids1) as (ids & Hfold & Hids).
          { intros k' Hk'. apply Hks. right. exact Hk'. }
          exists ids. split; [ exact Hfold | ].
          intros c. rewrite Hids, Hids1. split.
          + intros [[H | (hw & Hhw & Hc & Hid & Hab)]
                   | (child' & hw & Hin & Hrest)].
            * auto.
            * right. exists child, hw. simpl. auto 10.
            * right. exists child', hw. simpl. auto.
          + intros [H | (child' & hw & [Heq | Hin] & Hc' & Hhw & Hc & Hid
                         & Hab)].
            * auto.
            * left. right. exists hw.
              assert (child' = child).
              { apply (hierarchy_entry d _ Hok) in Hc', Hchild.
                rewrite <- Heq in Hc'.
                eapply NoDup_keys_eq; [ | exact Hc' | exact Hchild ].
                rewrite <- keys_skeleton. exact (tk_keys _ Hok). }
              subst child'. auto.
            * right. exists child', hw. auto 10. }
      destruct (Hloop (map fst
                         (filter (fun entry =>
                                    opt_eqb (hw_parent_id (snd entry))
                                            (hw_id e)) d)) acc)
        as (ids & Hfold & Hids).
      { intros k Hk. apply in_map_iff in Hk as [[k' child] [<- Hin]].
        apply filter_In in Hin as [Hin Hp]. simpl in *.
        exists child. split; [ apply in_values; eauto | ].
        split.
        - apply in_skeleton in Hin.
          destruct (tk_ids _ Hok _ _ Hin) as [Hid _]. exact Hid.
        - unfold opt_eqb in Hp.
          destruct (hw_parent_id child); [ | discriminate ].
          apply String.eqb_eq in Hp. congruence. }
      exists ids. split; [ exact Hfold | ].
      intros c. rewrite Hids. split.
      * intros [H | (child & hw & Hk & Hchild & Hhw & Hc & Hid & Hab)];
          [ auto | ].
        right. exists hw. repeat split; try assumption.
        apply in_map_iff in Hk as [[k' child'] [Hkeq Hin]].
        apply filter_In in Hin as [Hin Hp]. simpl in *.
        assert (child' = child).
        { apply (hierarchy_entry d _ Hok) in Hchild.
          rewrite <- Hkeq in Hchild.
          eapply NoDup_keys_eq; [ | exact Hin | exact Hchild ].
          rewrite <- keys_skeleton. exact (tk_keys _ Hok). }
        subst child'.
        unfold opt_eqb in Hp.
        destruct (hw_parent_id child) as [p | ] eqn:Hcp; [ | discriminate ].
        apply String.eqb_eq in Hp. subst p.
        apply (above_trans d hw child e Hab).
        eapply above_parent.
        -- exact Hcp.
        -- exact (hierarchy_id_not_empty d e Hok He).
        -- exact (hierarchy_get d e Hok He).
        -- constructor.
      * intros [H | (hw & Hhw & Hc & Hid & Hab)]; [ auto | ].
        right.
        destruct (above_through_a_child d hw e Hok Hhw Hab)
          as [-> | (child & Hchild & Hcp & Hac)]; [ congruence | ].
        exists child, hw. repeat split; try assumption.
        apply in_map_iff. exists (hw_id child, child).
        split; [ reflexivity | ].
        apply filter_In. split.
        -- apply hierarchy_entry; assumption.
        -- simpl. rewrite Hcp. simpl. apply String.eqb_refl.
Qed.

(** X19.  On a well-formed hierarchy, [find_rollup_nested_component_ids]
    returns for every element (a recursion of depth 6 is enough) the ids
    of the components that are the element or below it, and for the
    project the keys of all the components in their order; an id that
    the hardware does not hold raises [KeyError]. *)
Theorem nested_component_ids_are_the_components_below
    (d : dict hardware) (depth : nat) :
  hierarchy_ok d -> (6 <= depth)%nat ->
  (forall e,
      In e (values d) ->
      exists ids,
        find_rollup_nested_component_ids depth (hw_id e) d = Some (ok ids)
        /\ forall c,
             In c ids
             <-> exists hw,
                   In hw (values d) /\ hw_is_component hw = true
                   /\ hw_id hw = c /\ above d hw e)
  /\ find_rollup_nested_component_ids depth PROJECT d
     = Some (ok (map fst
                     (filter (fun entry => hw_is_component (snd entry)) d)))
  /\ (forall id,
         id <> PROJECT -> dict_in d id = false ->
         find_rollup_nested_component_ids depth id d = Some (inl KeyError)).
Proof.
  intros Hok Hdepth. split; [ | split ].
  - intros e He.
    pose proof (hierarchy_level_bounds d e Hok He) as Hbounds.
    destruct (dfs_collects_the_components d depth Hok e [] He ltac:(lia))
      as (ids & Hdfs & Hids).
    exists ids. split.
    + unfold find_rollup_nested_component_ids.
      assert (Hne : String.eqb (hw_id e) PROJECT = false).
      { apply String.eqb_neq.
        apply (hierarchy_entry d e Hok) in He. apply in_skeleton in He.
        destruct (tk_ids _ Hok _ _ He) as (_ & _ & Hp). exact Hp. }
      rewrite Hne. exact Hdfs.
    + intros c. rewrite Hids. split; [ | auto ].
      intros [[] | H]. exact H.
  - reflexivity.
  - intros id Hne Hout. unfold find_rollup_nested_component_ids.
    apply String.eqb_neq in Hne. rewrite Hne.
    destruct depth as [ | depth]; [ lia | ].
    simpl. apply dict_in_false in Hout. rewrite Hout. reflexivity.
Qed.

(* ------------------------------------------------------------------ *)
(** * The rollup with three components *)

Lemma hardware_rover_ok : hierarchy_ok hardware_rover.
Proof.
  split; simpl.
  - repeat constructor; simpl; intuition discriminate.
  - intros k s [H | [H | [H | [H | []]]]]; injection H as <- <-; simpl;
      repeat split; discriminate.
  - intros k s [H | [H | [H | [H | []]]]]; injection H as <- <-;
      try reflexivity; discriminate.
  - intros k s [H | [H | [H | [H | []]]]]; injection H as <- <-;
      try discriminate; intros _;
      exists "Rover"%string, (shape_of (rollup_hardware "Rover" None 2));
      (split; [ reflexivity | split; [ left; reflexivity | reflexivity ] ]).
  - intros k s [H | [H | [H | [H | []]]]]; injection H as <- <-; reflexivity.
  - intros k s [H | [H | [H | [H | []]]]]; injection H as <- <-;
      try discriminate; simpl; lia.
Qed.

Lemma eligible_hardware_ids_witness :
  exists m,
    find_eligible_hardware_ids 5 hardware_rover samples_rover = Some (ok m)
    /\ forall level id,
         In id (level_get m level)
         <-> offered hardware_rover samples_rover
               (map s_sample_id
                    (filter (accepted hardware_rover) samples_rover))
               (values hardware_rover) level id.
Proof.
  apply (eligible_hardware_ids_are_the_eligible_and_above hardware_rover
           samples_rover 5).
  - exact hardware_rover_ok.
  - repeat constructor.
  - lia.
Defined.

Lemma nested_component_ids_witness :
  (forall e,
      In e (values hardware_rover) ->
      exists ids,
        find_rollup_nested_component_ids 6 (hw_id e) hardware_rover
        = Some (ok ids)
        /\ forall c,
             In c ids
             <-> exists hw,
                   In hw (values hardware_rover)
                   /\ hw_is_component hw = true
                   /\ hw_id hw = c /\ above hardware_rover hw e)
  /\ find_rollup_nested_component_ids 6 PROJECT hardware_rover
     = Some (ok (map fst
                     (filter (fun entry => hw_is_component (snd entry))
                             hardware_rover)))
  /\ (forall id,
         id <> PROJECT -> dict_in hardware_rover id = false ->
         find_rollup_nested_component_ids 6 id hardware_rover
         = Some (inl KeyError)).
Proof.
  apply (nested_component_ids_are_the_components_below hardware_rover 6).
  - exact hardware_rover_ok.
  - lia.
Defined.
